(** * UptimeMonitor: the monitoring engine of [src/app.js]

    The development embeds the monitoring engine of the repository:
    the address classifier ([checkIpAddress] and the inline regular
    expression of the second variant), the prober ([checkStatus]), the
    change detector ([handleMonitor], [updateMonitorStatus]), the notifier
    ([sendWebhook]) and the scheduler ([checkMonitors] registered with
    [cron.schedule]).

    [src/app.js] holds two variants of the application and [src/unnamed]
    two variants of [models/monitor.js]; they are kept apart in the modules
    [V1] / [V2] and [Model000] / [Model001].

    Asynchronous JavaScript is modelled by a small free monad [Prog]: a
    program is a tree whose nodes are the calls it makes to its
    surroundings (the clock, the logger, [ping], [fetch], the Sequelize
    store) and whose branches are indexed by the answer.  [run] executes
    one such program to completion against an environment; the event loop
    of Section [Scheduler] interleaves several of them at their [await]s. *)

From Stdlib Require Import String Ascii List ZArith Bool Lia QArith.
Import ListNotations.

Local Open Scope Z_scope.
Local Open Scope list_scope.

(* ================================================================== *)
(** ** Regular expressions as the classifier uses them *)

Module Regex.

(** The fragment of JavaScript regular expressions that occurs in the
    source: literal characters, character classes, concatenation,
    alternation and [?].  The anchors [^] and [$] are part of [test]. *)
Inductive cls_item : Type :=
| One (c : ascii)              (* a single character inside [...] *)
| Range (lo hi : ascii).       (* lo-hi inside [...] *)

Inductive regex : Type :=
| Chr (c : ascii)              (* a literal character, \. included *)
| Cls (items : list cls_item)  (* [...] *)
| Cat (r1 r2 : regex)          (* r1r2 *)
| Alt (r1 r2 : regex)          (* r1|r2 *)
| Opt (r : regex).             (* r? *)

Definition code (c : ascii) : N := N_of_ascii c.

Definition in_item (c : ascii) (i : cls_item) : bool :=
  match i with
  | One d => Ascii.eqb c d
  | Range lo hi => (code lo <=? code c)%N && (code c <=? code hi)%N
  end.

Definition in_cls (c : ascii) (items : list cls_item) : bool :=
  existsb (in_item c) items.

(** Backtracking matcher: [rmatch r s] lists, in the order a
    backtracking engine tries them, the remainders of [s] after each
    prefix of [s] that [r] matches. *)
Fixpoint rmatch (r : regex) (s : string) : list string :=
  match r with
  | Chr c =>
      match s with
      | String a s' => if Ascii.eqb a c then [s'] else []
      | EmptyString => []
      end
  | Cls items =>
      match s with
      | String a s' => if in_cls a items then [s'] else []
      | EmptyString => []
      end
  | Cat r1 r2 => flat_map (rmatch r2) (rmatch r1 s)
  | Alt r1 r2 => rmatch r1 s ++ rmatch r2 s
  | Opt r1 => rmatch r1 s ++ [s]
  end.

Definition is_empty (s : string) : bool :=
  match s with EmptyString => true | String _ _ => false end.

(** [/^r$/.test(s)]: some way of matching [r] at the start of [s]
    consumes all of [s]. *)
Definition test (r : regex) (s : string) : bool :=
  existsb is_empty (rmatch r s).

End Regex.

Import Regex.

Definition digit_0_5 : regex := Cls [Range "0" "5"].
Definition digit_0_4 : regex := Cls [Range "0" "4"].
Definition digit_0_9 : regex := Cls [Range "0" "9"].
Definition digit_01 : regex := Cls [One "0"; One "1"].
Definition dot : regex := Chr ".".

(** [(25[0-5]|2[0-4][0-9]|[01]?[0-9][0-9]?)] *)
Definition octet : regex :=
  Alt (Cat (Chr "2") (Cat (Chr "5") digit_0_5))
      (Alt (Cat (Chr "2") (Cat digit_0_4 digit_0_9))
           (Cat (Opt digit_01) (Cat digit_0_9 (Opt digit_0_9)))).

(** [([0-5]?[0-9]|[01]?[0-9][0-9]?)], the group the second variant uses
    for the second, third and fourth octet. *)
Definition octet_v2 : regex :=
  Alt (Cat (Opt digit_0_5) digit_0_9)
      (Cat (Opt digit_01) (Cat digit_0_9 (Opt digit_0_9))).

Definition dotted (a b c d : regex) : regex :=
  Cat a (Cat dot (Cat b (Cat dot (Cat c (Cat dot d))))).

(* ================================================================== *)
(** ** Data model *)

(** A row of the [Monitor] table ([models/monitor.js]).  [id] is the
    primary key Sequelize adds; nullable columns are options.  The column
    [portNumber] of the second copy of the model, which the engine neither
    reads nor writes, is left out. *)
Record Monitor : Type := mkMonitor {
  id : Z;
  ipOrUrl : string;
  lastStatus : option string;
  lastChecked : option Z;
  webhookUrl : option string
}.

(** A row of the [MonitorLog] table ([models/monitorLog.js]); [createdAt]
    is the creation stamp of Sequelize that [/logs] orders by.  The
    columns the engine never sets ([timestamp], and [portNumber] in the
    second copy of the model) are left out. *)
Record MonitorLog : Type := mkMonitorLog {
  log_ipOrUrl : string;
  log_status : string;
  createdAt : Z
}.

(** A JavaScript [Error]: the engine reads [name] and [message]. *)
Record JsError : Type := mkError {
  err_name : string;
  err_message : string
}.

(** The two ways a promise settles. *)
Inductive Settled (A : Type) : Type :=
| Fulfilled (a : A)
| Rejected (e : JsError).
Arguments Fulfilled {A} a.
Arguments Rejected {A} e.

(** Options and answer of [ping.promise.probe]. *)
Record PingOptions : Type := mkPingOptions { timeout : Q }.
Record PingResponse : Type := mkPingResponse { alive : bool }.

(** [fetch]: the part of the request and of the response the engine uses. *)
Inductive Method : Type := HEAD | POST.

(** The JSON values the engine serialises: an object literal whose
    fields are strings or integers. *)
Inductive JsonValue : Type :=
| JStr (s : string)
| JNum (n : Z).

Definition JsonObject : Type := list (string * JsonValue).

Record FetchInit : Type := mkFetchInit {
  method : Method;
  headers : list (string * string);
  body : option JsonObject;    (* the value handed to JSON.stringify *)
  signal : bool                (* an AbortController signal is attached *)
}.

Record Response : Type := mkResponse { status : Z }.

(** [res.ok] of the Fetch API: the status is in the range 200-299. *)
Definition ok (res : Response) : bool :=
  (200 <=? status res) && (status res <=? 299).

(** Values printed by [console.log]. *)
Inductive JsVal : Type :=
| VStr (s : string)
| VNull
| VMonitor (m : Monitor)
| VPing (r : PingResponse).

(* ================================================================== *)
(** ** Programs: calls to the surroundings and their answers *)

Inductive Cmd : Type :=
(* synchronous *)
| Date_now
| app_log_info (msg : string)
| app_log_error (msg : string)
| console_log (args : list JsVal)
| setTimeout_abort (ms : Z)      (* setTimeout(() => controller.abort(), ms) *)
| clearTimeout
(* asynchronous: the caller awaits the answer *)
| ping_promise_probe (host : string) (opts : option PingOptions)
| fetch (url : string) (init : FetchInit)
| MonitorLog_create (ip : string) (st : string)
| monitor_update (key : Z) (st : string) (checked : Z)
| Monitor_findAll.

Definition resp (c : Cmd) : Type :=
  match c with
  | Date_now => Z
  | app_log_info _ | app_log_error _ | console_log _ | setTimeout_abort _
  | clearTimeout => unit
  | ping_promise_probe _ _ => Settled PingResponse
  | fetch _ _ => Settled Response
  | MonitorLog_create _ _ | monitor_update _ _ _ => Settled unit
  | Monitor_findAll => Settled (list Monitor)
  end.

Definition is_async (c : Cmd) : bool :=
  match c with
  | Date_now | app_log_info _ | app_log_error _ | console_log _
  | setTimeout_abort _ | clearTimeout => false
  | _ => true
  end.

Inductive Prog (A : Type) : Type :=
| Ret (a : A)                           (* return a *)
| Throw (e : JsError)                   (* throw e *)
| Vis (c : Cmd) (k : resp c -> Prog A). (* call c, continue with the answer *)
Arguments Ret {A} a.
Arguments Throw {A} e.
Arguments Vis {A} c k.

Fixpoint bind {A B : Type} (p : Prog A) (f : A -> Prog B) : Prog B :=
  match p with
  | Ret a => f a
  | Throw e => Throw e
  | Vis c k => Vis c (fun r => bind (k r) f)
  end.

(** [try { p } catch (e) { h e }] *)
Fixpoint try_catch {A : Type} (p : Prog A) (h : JsError -> Prog A) : Prog A :=
  match p with
  | Ret a => Ret a
  | Throw e => h e
  | Vis c k => Vis c (fun r => try_catch (k r) h)
  end.

(** A synchronous call. *)
Definition call (c : Cmd) : Prog (resp c) := Vis c Ret.

(** [await promise]: the value of a fulfilled promise, the reason of a
    rejected one thrown. *)
Definition settle {A : Type} (r : Settled A) : Prog A :=
  match r with
  | Fulfilled a => Ret a
  | Rejected e => Throw e
  end.

Definition await_ping host opts : Prog PingResponse :=
  Vis (ping_promise_probe host opts) settle.
Definition await_fetch url init : Prog Response :=
  Vis (fetch url init) settle.
Definition await_MonitorLog_create ip st : Prog unit :=
  Vis (MonitorLog_create ip st) settle.
Definition await_monitor_update key st checked : Prog unit :=
  Vis (monitor_update key st checked) settle.
Definition await_Monitor_findAll : Prog (list Monitor) :=
  Vis Monitor_findAll settle.

Declare Scope prog_scope.
Delimit Scope prog_scope with prog.
Notation "x <- p ;; q" := (bind p (fun x => q))
  (at level 61, p at next level, right associativity) : prog_scope.
Notation "p ;; q" := (bind p (fun _ => q))
  (at level 61, right associativity) : prog_scope.
Notation "'try' p 'catch' e => h" := (try_catch p (fun e => h))
  (at level 10, p at level 200, e name, h at level 200) : prog_scope.

(** [a === b] on a string and a nullable string column. *)
Definition strict_eq (a : string) (b : option string) : bool :=
  match b with
  | Some s => String.eqb a s
  | None => false
  end.

(** Truthiness of a nullable string column: [null] and [''] are falsy. *)
Definition truthy (v : option string) : option string :=
  match v with
  | Some s => if is_empty s then None else Some s
  | None => None
  end.

(* ================================================================== *)
(** ** The surroundings: store, clock, network *)

(** The state outside the engine: the two tables, the wall clock in
    milliseconds, and the calls made so far, oldest first. *)
Record World : Type := mkWorld {
  monitors : list Monitor;
  monitorLogs : list MonitorLog;
  clock : Z;
  trace : list Cmd
}.

(** What the engine does not control: the answers of the network, whether
    the store rejects an operation, and how long an awaited call takes.
    Every choice may depend on the world at the time of the call, hence on
    everything that happened before. *)
Record Env : Type := mkEnv {
  net_ping : World -> string -> option PingOptions -> Settled PingResponse;
  net_fetch : World -> string -> FetchInit -> Settled Response;
  store_fault : World -> Cmd -> option JsError;
  latency : World -> Cmd -> Z
}.

(** [instance.update({lastStatus, lastChecked})]: an UPDATE of these two
    columns of the row with the instance's primary key. *)
Definition set_status (key : Z) (st : string) (checked : Z) (m : Monitor)
  : Monitor :=
  if id m =? key
  then mkMonitor (id m) (ipOrUrl m) (Some st) (Some checked) (webhookUrl m)
  else m.

(** The world once call [c] has been made: it is on the trace, and an
    awaited call has taken its time. *)
Definition issued (e : Env) (c : Cmd) (w : World) : World :=
  mkWorld (monitors w) (monitorLogs w)
          (if is_async c then clock w + latency e w c else clock w)
          (trace w ++ [c]).

Definition with_monitors (ms : list Monitor) (w : World) : World :=
  mkWorld ms (monitorLogs w) (clock w) (trace w).

Definition with_monitorLogs (ls : list MonitorLog) (w : World) : World :=
  mkWorld (monitors w) ls (clock w) (trace w).

(** A store operation: rejected when the store is at fault, performed
    otherwise. *)
Definition store_op {A : Type} (e : Env) (c : Cmd) (w : World)
  (a : A) (w' : World) : Settled A * World :=
  match store_fault e w c with
  | Some err => (Rejected err, issued e c w)
  | None => (Fulfilled a, w')
  end.

Definition handle (e : Env) (c : Cmd) (w : World) : resp c * World :=
  let w1 := issued e c w in
  match c return resp c * World with
  | Date_now => (clock w, w1)
  | app_log_info _ => (tt, w1)
  | app_log_error _ => (tt, w1)
  | console_log _ => (tt, w1)
  | setTimeout_abort _ => (tt, w1)
  | clearTimeout => (tt, w1)
  | ping_promise_probe host opts => (net_ping e w host opts, w1)
  | fetch url init => (net_fetch e w url init, w1)
  | MonitorLog_create ip st =>
      (* Sequelize stamps [createdAt] when [create] is called, before
         the INSERT is sent *)
      store_op e c w tt
        (with_monitorLogs
           (monitorLogs w ++ [mkMonitorLog ip st (clock w)]) w1)
  | monitor_update key st checked =>
      store_op e c w tt
        (with_monitors (map (set_status key st checked) (monitors w)) w1)
  | Monitor_findAll =>
      store_op e c w (monitors w) w1
  end.

(** How a program ends. *)
Inductive Completion (A : Type) : Type :=
| Normal (a : A)
| Abrupt (e : JsError).
Arguments Normal {A} a.
Arguments Abrupt {A} e.

(** Running one program to completion, every call answered at once. *)
Fixpoint run {A : Type} (e : Env) (p : Prog A) (w : World)
  : Completion A * World :=
  match p with
  | Ret a => (Normal a, w)
  | Throw err => (Abrupt err, w)
  | Vis c k => let (r, w') := handle e c w in run e (k r) w'
  end.

Definition outcome {A : Type} (e : Env) (p : Prog A) (w : World)
  : Completion A := fst (run e p w).

Definition after {A : Type} (e : Env) (p : Prog A) (w : World)
  : World := snd (run e p w).

(* ================================================================== *)
(** ** The event loop: tasks suspended at their awaits *)

(** A JavaScript task runs until it awaits; the call it awaits completes
    later, and the task is resumed with the answer.  [advance] runs the
    synchronous calls that head a program; [resume] answers the awaited
    call that heads a suspended program and runs on to the next await. *)
Fixpoint advance {A : Type} (e : Env) (p : Prog A) (w : World)
  : Prog A * World :=
  match p with
  | Vis c k =>
      if is_async c then (p, w)
      else let (r, w') := handle e c w in advance e (k r) w'
  | _ => (p, w)
  end.

Definition resume {A : Type} (e : Env) (p : Prog A) (w : World)
  : Prog A * World :=
  match p with
  | Vis c k => let (r, w') := handle e c w in advance e (k r) w'
  | _ => (p, w)
  end.

(** The shape of [checkMonitors]:
    [const xs = await snapshot; await Promise.all(xs.map(pipeline))]. *)
Record Job : Type := mkJob {
  snapshot : Prog (list Monitor);
  pipeline : Monitor -> Prog unit
}.

(** The pending tasks of the scheduler, each with the number of the cron
    firing (tick) it belongs to. *)
Inductive Task : Type :=
| Finding (tick : nat) (p : Prog (list Monitor))  (* before Promise.all *)
| Pipeline (tick : nat) (p : Prog unit).          (* one mapped call *)

Record Sys : Type := mkSys {
  world : World;
  tasks : list Task;
  fired : nat               (* cron firings so far *)
}.

(** What can happen next: the cron pattern matches, or the call awaited
    by the [i]-th pending task completes. *)
Inductive Action : Type :=
| Fire
| Resume (i : nat).

Section Scheduler.
Variable e : Env.
Variable job : Job.

Definition pipeline_task (n : nat) (p : Prog unit) : list Task :=
  match p with
  | Vis _ _ => [Pipeline n p]
  | _ => []
  end.

(** [monitors.map(handleMonitor)]: every call runs, in order, up to its
    first await. *)
Fixpoint fan_out (n : nat) (ms : list Monitor) (w : World)
  : list Task * World :=
  match ms with
  | [] => ([], w)
  | m :: ms' =>
      let (p, w1) := advance e (pipeline job m) w in
      let (ts, w2) := fan_out n ms' w1 in
      (pipeline_task n p ++ ts, w2)
  end.

Definition finding_task (n : nat) (p : Prog (list Monitor)) (w : World)
  : list Task * World :=
  match p with
  | Ret ms => fan_out n ms w
  | Throw _ => ([], w)
  | Vis _ _ => ([Finding n p], w)
  end.

Definition remove_nth {A : Type} (i : nat) (l : list A) : list A :=
  firstn i l ++ skipn (S i) l.

(** [cron.schedule(pattern, job)] calls [job] at every firing and does
    not look at the promise it returns. *)
Definition step (a : Action) (s : Sys) : Sys :=
  match a with
  | Fire =>
      let (p, w1) := advance e (snapshot job) (world s) in
      let (ts, w2) := finding_task (fired s) p w1 in
      mkSys w2 (tasks s ++ ts) (S (fired s))
  | Resume i =>
      match nth_error (tasks s) i with
      | None => s
      | Some (Finding n p) =>
          let (p', w1) := resume e p (world s) in
          let (ts, w2) := finding_task n p' w1 in
          mkSys w2 (remove_nth i (tasks s) ++ ts) (fired s)
      | Some (Pipeline n p) =>
          let (p', w1) := resume e p (world s) in
          mkSys w1 (remove_nth i (tasks s) ++ pipeline_task n p') (fired s)
      end
  end.

Definition exec (schedule : list Action) (s : Sys) : Sys :=
  fold_left (fun s a => step a s) schedule s.

End Scheduler.

Definition task_tick (t : Task) : nat :=
  match t with
  | Finding n _ => n
  | Pipeline n _ => n
  end.

Definition is_pipeline (t : Task) : bool :=
  match t with
  | Pipeline _ _ => true
  | Finding _ _ => false
  end.

(** The ticks that have a pipeline in flight, one entry per pipeline. *)
Definition pipeline_ticks (s : Sys) : list nat :=
  map task_tick (filter is_pipeline (tasks s)).

(** Tick [n] has completed: it was started and none of its tasks is
    pending, which is when the promise of [checkMonitors] settles. *)
Definition tick_joined (n : nat) (s : Sys) : Prop :=
  (n < fired s)%nat /\ forall t, In t (tasks s) -> task_tick t <> n.

(** Ticks are serialized in [s]: the pipelines in flight all belong to
    one tick. *)
Definition serialized (s : Sys) : Prop :=
  forall n n', In n (pipeline_ticks s) -> In n' (pipeline_ticks s) -> n = n'.

Definition boot (w : World) : Sys := mkSys w [] 0.

(* ================================================================== *)
(** ** Configuration *)

(** [parseInt(process.env.TIMEOUT_MS, 10) || 5000]: the parsed variable
    ([None] when it is unset or not a number, which is [NaN]) or, when
    that is falsy, 5000. *)
Definition TIMEOUT_MS_of (parsed : option Z) : Z :=
  match parsed with
  | Some n => if n =? 0 then 5000 else n
  | None => 5000
  end.

(** [ms / 1000] as an exact fraction. *)
Definition div_1000 (ms : Z) : Q := ms # 1000.

(* ================================================================== *)
(** ** First variant of [src/app.js] *)

Module V1.
Section App.
Local Open Scope string_scope.
Local Open Scope prog_scope.

(** The parsed environment variable [TIMEOUT_MS]. *)
Variable env_TIMEOUT_MS : option Z.

Definition TIMEOUT_MS : Z := TIMEOUT_MS_of env_TIMEOUT_MS.

Definition checkIpAddress (ipOrUrl : string) : bool :=
  test (dotted octet octet octet octet) ipOrUrl.

Definition checkStatus (monitor : Monitor) : Prog string :=
  let isIpAddress := checkIpAddress (ipOrUrl monitor) in
  if isIpAddress then
    try
      (res <- await_ping (ipOrUrl monitor)
                (Some (mkPingOptions (div_1000 TIMEOUT_MS))) ;;
       Ret (if alive res then "online" else "offline"))
    catch error => Ret "offline"
  else
    (* const controller = new AbortController() *)
    call (setTimeout_abort TIMEOUT_MS) ;;
    try
      (res <- await_fetch (ipOrUrl monitor) (mkFetchInit HEAD [] None true) ;;
       call clearTimeout ;;
       Ret (if ok res then "online" else "offline"))
    catch error =>
      (call clearTimeout ;;
       if err_name error =? "AbortError"
       then Ret "offline"
       else Throw error).

Definition updateMonitorStatus (monitor : Monitor) (status : string)
  : Prog unit :=
  await_MonitorLog_create (ipOrUrl monitor) status ;;
  now <- call Date_now ;;
  await_monitor_update (id monitor) status now ;;
  call (app_log_info (ipOrUrl monitor ++ " is now " ++ status)).

Definition sendWebhook (monitor : Monitor) (status : string) : Prog unit :=
  match truthy (webhookUrl monitor) with
  | None => Ret tt
  | Some url =>
      try
        (now <- call Date_now ;;
         await_fetch url
           (mkFetchInit POST [("Content-Type", "application/json")]
              (Some [("monitor_status", JStr status);
                     ("timestamp", JNum (now / 1000))])
              false) ;;
         call (app_log_info
                 ("Webhook sent to " ++ url ++ " for " ++ ipOrUrl monitor)))
      catch err =>
        call (app_log_error
                ("Failed to send webhook to " ++ url ++ ": "
                 ++ err_message err))
  end.

Definition handleMonitor (monitor : Monitor) : Prog unit :=
  try
    (status <- checkStatus monitor ;;
     if negb (strict_eq status (lastStatus monitor)) then
       updateMonitorStatus monitor status ;;
       sendWebhook monitor status
     else Ret tt)
  catch error =>
    call (app_log_error
            ("Error checking " ++ ipOrUrl monitor ++ ": "
             ++ err_message error)).

Definition checkMonitors : Job :=
  mkJob await_Monitor_findAll handleMonitor.

End App.
End V1.

(* ================================================================== *)
(** ** Second variant of [src/app.js] *)

Module V2.
Section App.
Local Open Scope string_scope.
Local Open Scope prog_scope.

Variable env_TIMEOUT_MS : option Z.

Definition TIMEOUT_MS : Z := TIMEOUT_MS_of env_TIMEOUT_MS.

(** The regular expression written inline in [checkStatus]. *)
Definition isIpAddress_regex : regex :=
  dotted octet octet_v2 octet_v2 octet_v2.

Definition checkStatus (monitor : Monitor) : Prog string :=
  let isIpAddress := test isIpAddress_regex (ipOrUrl monitor) in
  if isIpAddress then
    call (console_log [VStr "Ping"]) ;;
    try
      (res <- await_ping (ipOrUrl monitor) None ;;
       call (console_log [VStr "Res:"; VPing res]) ;;
       Ret (if alive res then "online" else "offline"))
    catch error => Ret "offline"
  else
    (* const controller = new AbortController() *)
    call (setTimeout_abort TIMEOUT_MS) ;;
    try
      (res <- await_fetch (ipOrUrl monitor) (mkFetchInit HEAD [] None true) ;;
       call clearTimeout ;;
       Ret (if ok res then "online" else "offline"))
    catch error =>
      (call clearTimeout ;;
       if err_name error =? "AbortError"
       then Ret "timeout"
       else Throw error).

(** [monitor.update] also sets the two fields on the instance it is
    called on, and [sendWebhook] below prints that instance: the instance
    as the call leaves it is handed back to the caller. *)
Definition updateMonitorStatus (monitor : Monitor) (status : string)
  : Prog Monitor :=
  await_MonitorLog_create (ipOrUrl monitor) status ;;
  now <- call Date_now ;;
  await_monitor_update (id monitor) status now ;;
  call (app_log_info (ipOrUrl monitor ++ " is now " ++ status)) ;;
  Ret (mkMonitor (id monitor) (ipOrUrl monitor) (Some status) (Some now)
         (webhookUrl monitor)).

Definition sendWebhook (monitor : Monitor) (status : string) : Prog unit :=
  call (console_log [VStr "Webhook:"; VMonitor monitor]) ;;
  match truthy (webhookUrl monitor) with
  | None => Ret tt
  | Some url =>
      try
        (now <- call Date_now ;;
         await_fetch url
           (mkFetchInit POST [("Content-Type", "application/json")]
              (Some [("monitor_status", JStr status);
                     ("timestamp", JNum (now / 1000))])
              false) ;;
         call (app_log_info
                 ("Webhook sent to " ++ url ++ " for " ++ ipOrUrl monitor)))
      catch err =>
        call (app_log_error
                ("Failed to send webhook to " ++ url ++ ": "
                 ++ err_message err))
  end.

Definition js_string (v : option string) : JsVal :=
  match v with
  | Some s => VStr s
  | None => VNull
  end.

Definition handleMonitor (monitor : Monitor) : Prog unit :=
  try
    (status <- checkStatus monitor ;;
     call (console_log [VStr "Status:"; VStr status]) ;;
     call (console_log [VStr "Last Status:"; js_string (lastStatus monitor)]) ;;
     if negb (strict_eq status (lastStatus monitor)) then
       updated <- updateMonitorStatus monitor status ;;
       sendWebhook updated status
     else Ret tt)
  catch error =>
    call (app_log_error
            ("Error checking " ++ ipOrUrl monitor ++ ": "
             ++ err_message error)).

Definition checkMonitors : Job :=
  mkJob (call (console_log [VStr "Checking"]) ;; await_Monitor_findAll)
        handleMonitor.

End App.
End V2.

(* ================================================================== *)
(** ** The two variants of [models/monitor.js] *)

(** [Monitor.create({ ipOrUrl })]: a new row whose [lastStatus] is the
    [defaultValue] of the model and whose other nullable columns are
    [null].  Its primary key [key] is chosen by the database, whose
    AUTOINCREMENT column hands out a key the table has never held. *)
Definition Monitor_create (defaultValue : string) (key : Z) (ip : string)
  (w : World) : Monitor * World :=
  let row := mkMonitor key ip (Some defaultValue) None None in
  (row, with_monitors (monitors w ++ [row]) w).

Module Model000.
Local Open Scope string_scope.
Definition lastStatus_defaultValue : string := "offline".
Definition create := Monitor_create lastStatus_defaultValue.
End Model000.

Module Model001.
Local Open Scope string_scope.
Definition lastStatus_defaultValue : string := "online".
Definition create := Monitor_create lastStatus_defaultValue.
End Model001.

(* ================================================================== *)
(** ** Observations on a trace *)

(** Writes to the store. *)
Definition is_write (c : Cmd) : bool :=
  match c with
  | MonitorLog_create _ _ | monitor_update _ _ _ => true
  | _ => false
  end.

(** HTTP POST requests. *)
Definition is_post (c : Cmd) : bool :=
  match c with
  | fetch _ init => match method init with POST => true | HEAD => false end
  | _ => false
  end.

Definition is_error_log (c : Cmd) : bool :=
  match c with
  | app_log_error _ => true
  | _ => false
  end.

Definition writes (w : World) : list Cmd := filter is_write (trace w).
Definition posts (w : World) : list Cmd := filter is_post (trace w).
Definition error_logs (w : World) : list Cmd := filter is_error_log (trace w).

(** The store never rejects an operation. *)
Definition store_reliable (e : Env) : Prop :=
  forall w c, store_fault e w c = None.

(** [avoids P p]: on no path does [p] make a call that satisfies [P]. *)
Inductive avoids {A : Type} (P : Cmd -> bool) : Prog A -> Prop :=
| avoids_Ret a : avoids P (Ret a)
| avoids_Throw x : avoids P (Throw x)
| avoids_Vis c k :
    P c = false -> (forall r, avoids P (k r)) -> avoids P (Vis c k).

(** The line [handleMonitor] logs when its [try] block throws. *)
Definition error_checking (m : Monitor) (x : JsError) : Cmd :=
  app_log_error
    ("Error checking " ++ ipOrUrl m ++ ": " ++ err_message x)%string.

(** The request [checkStatus] makes for a URL:
    [fetch(url, { method: 'HEAD', signal: controller.signal })]. *)
Definition head_init : FetchInit := mkFetchInit HEAD [] None true.

(** The request [sendWebhook] makes, for status [st] at time [now]. *)
Definition webhook_init (st : string) (now : Z) : FetchInit :=
  mkFetchInit POST [("Content-Type", "application/json")%string]
    (Some [("monitor_status"%string, JStr st);
           ("timestamp"%string, JNum (now / 1000))])
    false.

(** The two lines [sendWebhook] can log. *)
Definition webhook_sent (url : string) (m : Monitor) : Cmd :=
  app_log_info ("Webhook sent to " ++ url ++ " for " ++ ipOrUrl m)%string.

Definition webhook_failed (url : string) (x : JsError) : Cmd :=
  app_log_error
    ("Failed to send webhook to " ++ url ++ ": " ++ err_message x)%string.

(** A delivery failure of a POST: the request is rejected, or the
    response does not have a 2xx status. *)
Definition delivery_failed (answer : Settled Response) : bool :=
  match answer with
  | Rejected _ => true
  | Fulfilled res => negb (ok res)
  end.

(* ================================================================== *)
(** ** Sample surroundings and targets *)

Module Sample.
Local Open Scope string_scope.

Definition refused : JsError :=
  mkError "FetchError" "connect ECONNREFUSED 93.184.216.34:443".

Definition aborted : JsError :=
  mkError "AbortError" "The user aborted a request.".

(** Every host answers and every request succeeds; an awaited call
    takes 7 ms. *)
Definition up : Env :=
  mkEnv (fun _ _ _ => Fulfilled (mkPingResponse true))
        (fun _ _ _ => Fulfilled (mkResponse 200))
        (fun _ _ => None)
        (fun _ _ => 7).

(** Every HTTP connection is refused. *)
Definition down : Env :=
  mkEnv (fun _ _ _ => Fulfilled (mkPingResponse false))
        (fun _ _ _ => Rejected refused)
        (fun _ _ => None)
        (fun _ _ => 7).

(** Every request carrying an abort signal is cut off by its timer. *)
Definition slow : Env :=
  mkEnv (fun _ _ _ => Fulfilled (mkPingResponse false))
        (fun _ _ init =>
           if signal init then Rejected aborted
           else Fulfilled (mkResponse 200))
        (fun _ _ => None)
        (fun _ _ => 5000).

(** Hosts answer pings; HEAD requests succeed; the webhook endpoint
    answers 500. *)
Definition hook_500 : Env :=
  mkEnv (fun _ _ _ => Fulfilled (mkPingResponse true))
        (fun _ _ init =>
           match method init with
           | HEAD => Fulfilled (mkResponse 200)
           | POST => Fulfilled (mkResponse 500)
           end)
        (fun _ _ => None)
        (fun _ _ => 7).

Definition dns : Monitor :=
  mkMonitor 1 "8.8.8.8" (Some "offline") None (Some "http://hook.test/up").

Definition site : Monitor :=
  mkMonitor 2 "https://example.com" (Some "online") None None.

Definition w0 : World := mkWorld [dns; site] [] 1700000000000 [].

End Sample.

(** How the two branches of [checkStatus] turn the answer of the network
    into their result; [on_abort] is the status the variant returns for
    an [AbortError]. *)
Definition status_of_ping (answer : Settled PingResponse) : string :=
  match answer with
  | Fulfilled res => if alive res then "online" else "offline"
  | Rejected _ => "offline"
  end.

Definition result_of_head (on_abort : string) (answer : Settled Response)
  : Completion string :=
  match answer with
  | Fulfilled res => Normal (if ok res then "online" else "offline")%string
  | Rejected x =>
      if (err_name x =? "AbortError")%string then Normal on_abort
      else Abrupt x
  end.

(** A program that is waiting for the answer of a call. *)
Definition suspended {A : Type} (p : Prog A) : bool :=
  match p with
  | Vis _ _ => true
  | _ => false
  end.

(* ================================================================== *)
(** ** Dotted quads, as the specification words them *)

(** The strings a regular expression denotes; [rmatch] is proved to
    compute exactly these. *)
Fixpoint lang (r : regex) (p : string) : Prop :=
  match r with
  | Chr c => p = String c EmptyString
  | Cls items => exists a, p = String a EmptyString /\ in_cls a items = true
  | Cat r1 r2 =>
      exists p1 p2, p = (p1 ++ p2)%string /\ lang r1 p1 /\ lang r2 p2
  | Alt r1 r2 => lang r1 p \/ lang r2 p
  | Opt r1 => lang r1 p \/ p = EmptyString
  end.

Definition is_digit (c : ascii) : bool :=
  (48 <=? code c)%N && (code c <=? 57)%N.

Fixpoint all_digits (s : string) : bool :=
  match s with
  | EmptyString => true
  | String c s' => is_digit c && all_digits s'
  end.

(** The number a string of decimal digits writes, most significant
    digit first. *)
Fixpoint decimal (acc : N) (s : string) : N :=
  match s with
  | EmptyString => acc
  | String c s' => decimal (10 * acc + (code c - 48))%N s'
  end.

(** One to three decimal digits that write a number from 0 to [bound]. *)
Definition octet_text (bound : N) (s : string) : bool :=
  (1 <=? String.length s)%nat && (String.length s <=? 3)%nat
  && all_digits s && (decimal 0 s <=? bound)%N.

(** Four such groups separated by dots, with bound [b1] for the first
    group and [b] for the others. *)
Definition dotted_quad_upto (b1 b : N) (s : string) : Prop :=
  exists o1 o2 o3 o4,
    s = (o1 ++ "." ++ o2 ++ "." ++ o3 ++ "." ++ o4)%string /\
    octet_text b1 o1 = true /\ octet_text b o2 = true /\
    octet_text b o3 = true /\ octet_text b o4 = true.

(** A strict IPv4 dotted quad: each octet in 0-255. *)
Definition dotted_quad (s : string) : Prop := dotted_quad_upto 255 255 s.

(* ================================================================== *)
(** ** Surroundings in which the store fails *)

Module Faulty.
Local Open Scope string_scope.

Definition busy : JsError :=
  mkError "SequelizeTimeoutError" "SQLITE_BUSY: database is locked".

(** Hosts answer; the store rejects every [MonitorLog.create]. *)
Definition no_create : Env :=
  mkEnv (fun _ _ _ => Fulfilled (mkPingResponse true))
        (fun _ _ _ => Fulfilled (mkResponse 200))
        (fun _ c =>
           match c with
           | MonitorLog_create _ _ => Some busy
           | _ => None
           end)
        (fun _ _ => 7).

(** Hosts answer; the store rejects every [monitor.update]. *)
Definition no_update : Env :=
  mkEnv (fun _ _ _ => Fulfilled (mkPingResponse true))
        (fun _ _ _ => Fulfilled (mkResponse 200))
        (fun _ c =>
           match c with
           | monitor_update _ _ _ => Some busy
           | _ => None
           end)
        (fun _ _ => 7).

(** The store rejects [Monitor.findAll]. *)
Definition no_findAll : Env :=
  mkEnv (fun _ _ _ => Fulfilled (mkPingResponse true))
        (fun _ _ _ => Fulfilled (mkResponse 200))
        (fun _ c =>
           match c with
           | Monitor_findAll => Some busy
           | _ => None
           end)
        (fun _ _ => 7).

End Faulty.

(* ================================================================== *)
(** ** Invariants of the two tables *)

(** The monitors of two worlds are the same targets: the same rows in the
    same order as far as key, address and webhook go. *)
Definition same_targets (w w' : World) : Prop :=
  map id (monitors w') = map id (monitors w) /\
  map ipOrUrl (monitors w') = map ipOrUrl (monitors w) /\
  map webhookUrl (monitors w') = map webhookUrl (monitors w).

(* ================================================================== *)
(** ** How long a program can wait *)

(** [finishes_within n p]: on no path does [p] await more than [n]
    calls. *)
Inductive finishes_within {A : Type} : nat -> Prog A -> Prop :=
| within_Ret n a : finishes_within n (Ret a)
| within_Throw n x : finishes_within n (Throw x)
| within_sync n c k :
    is_async c = false ->
    (forall r, finishes_within n (k r)) ->
    finishes_within n (Vis c k)
| within_async n c k :
    is_async c = true ->
    (forall r, finishes_within n (k r)) ->
    finishes_within (S n) (Vis c k).

(** A program that the event loop holds: it has ended, or it is waiting
    for an awaited call. *)
Definition at_await {A : Type} (p : Prog A) : Prop :=
  match p with
  | Vis c _ => is_async c = true
  | _ => True
  end.

(** The pending tasks are pipelines at their awaits that together await
    at most [b] more calls. *)
Inductive within_budget : list Task -> nat -> Prop :=
| budget_nil b : within_budget [] b
| budget_cons n p k ts b :
    suspended p = true -> at_await p -> finishes_within k p ->
    within_budget ts b ->
    within_budget (Pipeline n p :: ts) (k + b).

(* ================================================================== *)
(** ** The HTTP routes that edit the two tables *)

(** What [monitorSchema.validate(req.body)] gives: an error, of which
    the route uses the first message, or the validated value.  The
    schema does not require [ipOrUrl]: a request without a body and a
    body without that key pass validation with a value that has no
    [ipOrUrl]. *)
Inductive Validation : Type :=
| invalid (message : string)
| valid (ipOrUrl : string) (webhookUrl : option string)
| valid_without_ipOrUrl.

(** What a route sends: [{ error }] or [{ success: true, message }],
    with the status code set by [reply.status], 200 when it is not set. *)
Inductive Payload : Type :=
| error_body (error : string)
| success_body (message : string).

Record Reply : Type := mkReply { statusCode : Z; payload : Payload }.

(** The store operations of the routes. *)
Inductive StoreOp : Type :=
| op_Monitor_findOne
| op_Monitor_update
| op_Monitor_create
| op_monitor_update
| op_Monitor_destroy
| op_MonitorLog_destroy.

(** A route handled from its first line to its last: it changes the
    world and ends with a value or by throwing. *)
Definition Route (A : Type) : Type := World -> Completion A * World.

Definition route_ret {A : Type} (a : A) : Route A := fun w => (Normal a, w).

Definition route_throw {A : Type} (x : JsError) : Route A :=
  fun w => (Abrupt x, w).

Definition route_bind {A B : Type} (r : Route A) (f : A -> Route B)
  : Route B :=
  fun w =>
    match r w with
    | (Normal a, w') => f a w'
    | (Abrupt x, w') => (Abrupt x, w')
    end.

Definition route_catch {A : Type} (r : Route A) (h : JsError -> Route A)
  : Route A :=
  fun w =>
    match r w with
    | (Normal a, w') => (Normal a, w')
    | (Abrupt x, w') => h x w'
    end.

Declare Scope route_scope.
Delimit Scope route_scope with route.
Notation "x <- r ;; q" := (route_bind r (fun x => q))
  (at level 61, r at next level, right associativity) : route_scope.
Notation "r ;; q" := (route_bind r (fun _ => q))
  (at level 61, right associativity) : route_scope.

(** The error of a UNIQUE constraint that does not hold. *)
Definition unique_violation : JsError :=
  mkError "SequelizeUniqueConstraintError" "Validation error".

Definition has_address (ip : string) (r : Monitor) : bool :=
  String.eqb (ipOrUrl r) ip.

Definition set_ipOrUrl (key : Z) (ip : string) (r : Monitor) : Monitor :=
  if id r =? key
  then mkMonitor (id r) ip (lastStatus r) (lastChecked r) (webhookUrl r)
  else r.

Definition set_webhookUrl (key : Z) (url : string) (r : Monitor) : Monitor :=
  if id r =? key
  then mkMonitor (id r) (ipOrUrl r) (lastStatus r) (lastChecked r) (Some url)
  else r.

(** The world with one more line in the error log. *)
Definition error_logged (msg : string) (w : World) : World :=
  mkWorld (monitors w) (monitorLogs w) (clock w)
    (trace w ++ [app_log_error msg]).

Section RouteStore.
(** Whether the store rejects an operation of a route. *)
Variable fault : World -> StoreOp -> option JsError.

(** The primary key the database gives the next row of [Monitor]. *)
Variable next_id : World -> Z.

(** What the first statement of a route's [try] raises for a value
    without [ipOrUrl]: the [TypeError] of reading [value.ipOrUrl] when
    there is no body, or the error with which Sequelize refuses a [where]
    value that is [undefined]; no query reaches the store. *)
Variable no_ipOrUrl : JsError.

(** The [defaultValue] of [lastStatus] in the model in use. *)
Variable defaultValue : string.

Definition guarded {A : Type} (op : StoreOp) (r : Route A) : Route A :=
  fun w =>
    match fault w op with
    | Some x => (Abrupt x, w)
    | None => r w
    end.

(** [Monitor.findOne({ where: { ipOrUrl } })] *)
Definition Monitor_findOne (ip : string) : Route (option Monitor) :=
  guarded op_Monitor_findOne
    (fun w => (Normal (find (has_address ip) (monitors w)), w)).

(** [Monitor.update({ ipOrUrl }, { where: { id } })]; [ipOrUrl] is a
    UNIQUE column. *)
Definition Monitor_update (ip : string) (key : Z) : Route unit :=
  guarded op_Monitor_update
    (fun w =>
       if existsb (fun r => has_address ip r && negb (id r =? key))
            (monitors w)
       then (Abrupt unique_violation, w)
       else (Normal tt, with_monitors (map (set_ipOrUrl key ip) (monitors w)) w)).

(** [Monitor.create({ ipOrUrl })] under the UNIQUE constraint. *)
Definition Monitor_create_unique (ip : string) : Route Monitor :=
  guarded op_Monitor_create
    (fun w =>
       if existsb (has_address ip) (monitors w)
       then (Abrupt unique_violation, w)
       else let (row, w') := Monitor_create defaultValue (next_id w) ip w in
            (Normal row, w')).

(** [monitor.update({ webhookUrl })]; a value that is [undefined] is
    left out of the update. *)
Definition monitor_update_webhookUrl (key : Z) (value : option string)
  : Route unit :=
  guarded op_monitor_update
    (fun w =>
       match value with
       | Some url =>
           (Normal tt,
            with_monitors (map (set_webhookUrl key url) (monitors w)) w)
       | None => (Normal tt, w)
       end).

(** [Monitor.destroy({ where: {} })] and [MonitorLog.destroy({ where: {} })] *)
Definition Monitor_destroy : Route unit :=
  guarded op_Monitor_destroy (fun w => (Normal tt, with_monitors [] w)).

Definition MonitorLog_destroy : Route unit :=
  guarded op_MonitorLog_destroy (fun w => (Normal tt, with_monitorLogs [] w)).

(** [app.log.error(msg)] *)
Definition route_log_error (msg : string) : Route unit :=
  fun w => (Normal tt, error_logged msg w).

Local Open Scope string_scope.
Local Open Scope route_scope.

(** [app.post('/add-monitor', ...)] of the first variant. *)
Definition add_monitor_v1 (validation : Validation) : Route Reply :=
  match validation with
  | invalid message => route_ret (mkReply 400 (error_body message))
  | valid ipOrUrl _ =>
      route_catch
        (existingMonitor <- Monitor_findOne ipOrUrl ;;
         match existingMonitor with
         | Some existing =>
             Monitor_update ipOrUrl (id existing) ;;
             route_ret
               (mkReply 200 (success_body ("Monitor updated for " ++ ipOrUrl)))
         | None =>
             Monitor_create_unique ipOrUrl ;;
             route_ret
               (mkReply 200 (success_body ("Monitor added for " ++ ipOrUrl)))
         end)
        (fun err =>
           route_log_error ("Failed to add monitor: " ++ err_message err) ;;
           route_ret (mkReply 500 (error_body "Failed to add monitor.")))
  | valid_without_ipOrUrl =>
      route_catch
        (route_throw no_ipOrUrl)
        (fun err =>
           route_log_error ("Failed to add monitor: " ++ err_message err) ;;
           route_ret (mkReply 500 (error_body "Failed to add monitor.")))
  end.

(** [app.post('/add-monitor', ...)] of the second variant. *)
Definition add_monitor_v2 (validation : Validation) : Route Reply :=
  match validation with
  | invalid message => route_ret (mkReply 400 (error_body message))
  | valid ipOrUrl _ =>
      route_catch
        (existingMonitor <- Monitor_findOne ipOrUrl ;;
         match existingMonitor with
         | Some existing =>
             route_ret (mkReply 400 (error_body "Monitor already exists."))
         | None =>
             Monitor_create_unique ipOrUrl ;;
             route_ret
               (mkReply 200 (success_body ("Monitor added for " ++ ipOrUrl)))
         end)
        (fun err =>
           route_log_error ("Failed to add monitor: " ++ err_message err) ;;
           route_ret (mkReply 500 (error_body "Failed to add monitor.")))
  | valid_without_ipOrUrl =>
      route_catch
        (route_throw no_ipOrUrl)
        (fun err =>
           route_log_error ("Failed to add monitor: " ++ err_message err) ;;
           route_ret (mkReply 500 (error_body "Failed to add monitor.")))
  end.

(** [app.post('/add-webhook', ...)], the same in both variants. *)
Definition add_webhook (validation : Validation) : Route Reply :=
  match validation with
  | invalid message => route_ret (mkReply 400 (error_body message))
  | valid ipOrUrl webhookUrl =>
      route_catch
        (monitor <- Monitor_findOne ipOrUrl ;;
         match monitor with
         | None =>
             route_ret
               (mkReply 404
                  (error_body
                     ("Monitor with IP/URL " ++ ipOrUrl ++ " not found.")))
         | Some found =>
             monitor_update_webhookUrl (id found) webhookUrl ;;
             route_ret
               (mkReply 200
                  (success_body ("Webhook URL updated for " ++ ipOrUrl)))
         end)
        (fun err =>
           route_log_error ("Failed to update webhook URL: " ++ err_message err) ;;
           route_ret (mkReply 500 (error_body "Failed to update webhook URL.")))
  | valid_without_ipOrUrl =>
      route_catch
        (route_throw no_ipOrUrl)
        (fun err =>
           route_log_error ("Failed to update webhook URL: " ++ err_message err) ;;
           route_ret (mkReply 500 (error_body "Failed to update webhook URL.")))
  end.

(** [app.delete('/delete-all-monitors', ...)] of the first variant; it
    has no [try]. *)
Definition delete_all_monitors : Route Reply :=
  Monitor_destroy ;;
  MonitorLog_destroy ;;
  route_ret (mkReply 200 (success_body "All monitors deleted.")).

End RouteStore.

(** A store that rejects nothing the routes ask. *)
Definition no_fault : World -> StoreOp -> option JsError := fun _ _ => None.

(** Keys and addresses are unique in the [Monitor] table. *)
Definition unique_monitors (w : World) : Prop :=
  NoDup (map id (monitors w)) /\ NoDup (map ipOrUrl (monitors w)).


(** A database whose [Monitor] table has held the keys 1 and 2. *)
Definition next_is_3 : World -> Z := fun _ => 3.

(** What reading [value.ipOrUrl] raises when the request has no body. *)
Definition no_body : JsError :=
  mkError "TypeError"
    "Cannot read properties of undefined (reading 'ipOrUrl')".

(** A store that rejects [Monitor.findOne] and nothing else the routes
    ask. *)
Definition no_findOne : World -> StoreOp -> option JsError :=
  fun _ op =>
    match op with
    | op_Monitor_findOne => Some Faulty.busy
    | _ => None
    end.

(** A store that rejects [MonitorLog.destroy] and nothing else the
    routes ask. *)
Definition logs_locked : World -> StoreOp -> option JsError :=
  fun _ op =>
    match op with
    | op_MonitorLog_destroy => Some Faulty.busy
    | _ => None
    end.

(* ================================================================== *)
(** ** Laws of [run] *)

Lemma run_bind {A B : Type} (e : Env) (p : Prog A) (f : A -> Prog B) w :
  run e (bind p f) w =
  match run e p w with
  | (Normal a, w') => run e (f a) w'
  | (Abrupt x, w') => (Abrupt x, w')
  end.
Proof.
  revert w; induction p as [a | x | c k IH]; intros w; cbn; auto.
  destruct (handle e c w) as [r w']. apply IH.
Qed.

Lemma run_try_catch {A : Type} (e : Env) (p : Prog A) h w :
  run e (try_catch p h) w =
  match run e p w with
  | (Normal a, w') => (Normal a, w')
  | (Abrupt x, w') => run e (h x) w'
  end.
Proof.
  revert w; induction p as [a | x | c k IH]; intros w; cbn; auto.
  destruct (handle e c w) as [r w']. apply IH.
Qed.

Lemma avoids_bind {A B : Type} P (p : Prog A) (f : A -> Prog B) :
  avoids P p -> (forall a, avoids P (f a)) -> avoids P (bind p f).
Proof.
  induction 1; intros Hf; cbn; auto; constructor; auto.
Qed.

Lemma avoids_try_catch {A : Type} P (p : Prog A) h :
  avoids P p -> (forall x, avoids P (h x)) -> avoids P (try_catch p h).
Proof.
  induction 1; intros Hh; cbn; auto; constructor; auto.
Qed.

Lemma avoids_settle {A : Type} P (r : Settled A) : avoids P (settle r).
Proof. destruct r; constructor. Qed.

Lemma trace_issued e c w : trace (issued e c w) = trace w ++ [c].
Proof. reflexivity. Qed.

Lemma filter_snoc_false {A : Type} (f : A -> bool) l x :
  f x = false -> filter f (l ++ [x]) = filter f l.
Proof.
  intros H. rewrite filter_app. cbn. rewrite H. apply app_nil_r.
Qed.

Lemma filter_snoc_true {A : Type} (f : A -> bool) l x :
  f x = true -> filter f (l ++ [x]) = filter f l ++ [x].
Proof.
  intros H. rewrite filter_app. cbn. now rewrite H.
Qed.

(** A call that is not a write leaves both tables as they are. *)
Lemma handle_tables e c w :
  is_write c = false ->
  monitors (snd (handle e c w)) = monitors w /\
  monitorLogs (snd (handle e c w)) = monitorLogs w.
Proof.
  destruct c; cbn; intros H; try discriminate; auto.
  unfold store_op. destruct (store_fault e w Monitor_findAll); cbn; auto.
Qed.

(** Whatever a call does, it adds itself, and nothing else, to the trace. *)
Lemma handle_trace e c w : trace (snd (handle e c w)) = trace w ++ [c].
Proof.
  destruct c; cbn; auto; unfold store_op;
    match goal with |- context [store_fault ?e ?w ?c] =>
      destruct (store_fault e w c) end; reflexivity.
Qed.

(** Frame: a program that avoids the calls in [P] leaves the [P]-part of
    the trace as it is. *)
Lemma avoids_filter {A : Type} P e (p : Prog A) w :
  avoids P p ->
  filter P (trace (after e p w)) = filter P (trace w).
Proof.
  intros H; revert w; induction H as [a | x | c k Hc Hk IH]; intros w;
    unfold after in *; cbn; auto.
  destruct (handle e c w) as [r w'] eqn:Hh.
  rewrite IH. replace w' with (snd (handle e c w)) by now rewrite Hh.
  rewrite handle_trace. now apply filter_snoc_false.
Qed.

(** Frame: a program that avoids writes leaves both tables as they are. *)
Lemma avoids_write_tables {A : Type} e (p : Prog A) w :
  avoids is_write p ->
  monitors (after e p w) = monitors w /\
  monitorLogs (after e p w) = monitorLogs w.
Proof.
  intros H; revert w; induction H as [a | x | c k Hc Hk IH]; intros w;
    unfold after in *; cbn; auto.
  destruct (handle e c w) as [r w'] eqn:Hh.
  destruct (IH r w') as [-> ->].
  replace w' with (snd (handle e c w)) by now rewrite Hh.
  now apply handle_tables.
Qed.

Lemma strict_eq_true s l : strict_eq s l = true <-> l = Some s.
Proof.
  destruct l as [t|]; cbn.
  - rewrite String.eqb_eq. split; congruence.
  - split; discriminate.
Qed.

Lemma strict_eq_false s l : strict_eq s l = false <-> l <> Some s.
Proof.
  rewrite <- strict_eq_true. destruct (strict_eq s l); split; congruence.
Qed.

Ltac unfold_awaits :=
  unfold call, await_ping, await_fetch, await_MonitorLog_create,
    await_monitor_update, await_Monitor_findAll in *.

(** Discharges [avoids P p] for a program written with the combinators. *)
Ltac avoid :=
  unfold_awaits;
  repeat first
    [ apply avoids_Ret
    | apply avoids_Throw
    | apply avoids_settle
    | apply avoids_bind
    | apply avoids_try_catch
    | apply avoids_Vis; [reflexivity | ]
    | intro
    | match goal with
      | |- avoids _ (if ?b then _ else _) => destruct b
      | |- avoids _ (match ?b with _ => _ end) => destruct b
      end ].

(** The prober writes nothing and posts nothing, in either variant. *)
Lemma V1_checkStatus_avoids_write cfg m :
  avoids is_write (V1.checkStatus cfg m).
Proof. unfold V1.checkStatus. avoid. Qed.

Lemma V1_checkStatus_avoids_post cfg m :
  avoids is_post (V1.checkStatus cfg m).
Proof. unfold V1.checkStatus. avoid. Qed.

Lemma V2_checkStatus_avoids_write cfg m :
  avoids is_write (V2.checkStatus cfg m).
Proof. unfold V2.checkStatus. avoid. Qed.

Lemma V2_checkStatus_avoids_post cfg m :
  avoids is_post (V2.checkStatus cfg m).
Proof. unfold V2.checkStatus. avoid. Qed.

(** The notifier writes nothing to the store. *)
Lemma V1_sendWebhook_avoids_write m st :
  avoids is_write (V1.sendWebhook m st).
Proof. unfold V1.sendWebhook. avoid. Qed.

Lemma V2_sendWebhook_avoids_write m st :
  avoids is_write (V2.sendWebhook m st).
Proof. unfold V2.sendWebhook. avoid. Qed.

(* ================================================================== *)
(** ** The change detector *)

Lemma store_op_reliable {A : Type} e c w (a : A) w' :
  store_reliable e -> store_op e c w a w' = (Fulfilled a, w').
Proof. intros H. unfold store_op. now rewrite H. Qed.

Section ChangeDetector.
Variable e : Env.
Variable cfg : option Z.
Local Arguments String.append : simpl never.

(** With a reliable store [updateMonitorStatus] appends one row, stamped
    with the time at which [create] was called, and updates the two
    columns of the monitor; [lastChecked] is the time at which the
    INSERT had completed, when [new Date()] is evaluated. *)
Lemma V1_updateMonitorStatus_run m st w :
  store_reliable e ->
  let now := clock (after e (await_MonitorLog_create (ipOrUrl m) st) w) in
  let w' := after e (V1.updateMonitorStatus m st) w in
  outcome e (V1.updateMonitorStatus m st) w = Normal tt /\
  monitorLogs w' = monitorLogs w ++ [mkMonitorLog (ipOrUrl m) st (clock w)] /\
  monitors w' = map (set_status (id m) st now) (monitors w).
Proof.
  intros Hs. unfold after, outcome, V1.updateMonitorStatus. unfold_awaits.
  cbn. repeat (rewrite (store_op_reliable e) by assumption; cbn). auto.
Qed.

(** Whatever the store does, [updateMonitorStatus] adds at most one row,
    and that row carries the status it was given. *)
Lemma V1_updateMonitorStatus_logs m st w :
  let w' := after e (V1.updateMonitorStatus m st) w in
  monitorLogs w' = monitorLogs w \/
  monitorLogs w' = monitorLogs w ++ [mkMonitorLog (ipOrUrl m) st (clock w)].
Proof.
  unfold after, V1.updateMonitorStatus. unfold_awaits. cbn. unfold store_op.
  destruct (store_fault e w (MonitorLog_create (ipOrUrl m) st)); cbn;
    [now left | ].
  unfold store_op.
  match goal with
  | |- context [store_fault e ?w1 ?c] => destruct (store_fault e w1 c)
  end; cbn; now right.
Qed.

Lemma V1_sendWebhook_normal m st w :
  outcome e (V1.sendWebhook m st) w = Normal tt.
Proof.
  unfold outcome, V1.sendWebhook.
  destruct (truthy (webhookUrl m)) as [url|]; auto.
  unfold_awaits. cbn. destruct (net_fetch e _ _ _); reflexivity.
Qed.

(** [handleMonitor] by cases on what the probe and the store do. *)
Lemma V1_handleMonitor_run m w :
  run e (V1.handleMonitor cfg m) w =
  match run e (V1.checkStatus cfg m) w with
  | (Normal st, w1) =>
      if strict_eq st (lastStatus m) then (Normal tt, w1)
      else
        match run e (V1.updateMonitorStatus m st) w1 with
        | (Normal _, w2) => (Normal tt, after e (V1.sendWebhook m st) w2)
        | (Abrupt x, w2) => (Normal tt, issued e (error_checking m x) w2)
        end
  | (Abrupt x, w1) => (Normal tt, issued e (error_checking m x) w1)
  end.
Proof.
  unfold V1.handleMonitor. rewrite run_try_catch, run_bind.
  destruct (run e (V1.checkStatus cfg m) w) as [[st | x] w1]; [ | reflexivity].
  destruct (strict_eq st (lastStatus m)); [reflexivity | ]. cbn [negb].
  rewrite run_bind.
  destruct (run e (V1.updateMonitorStatus m st) w1) as [[[] | x] w2];
    [ | reflexivity].
  pose proof (V1_sendWebhook_normal m st w2) as H. unfold outcome, after in *.
  destruct (run e (V1.sendWebhook m st) w2) as [o w3]. cbn in *. now subst.
Qed.
End ChangeDetector.

Lemma snoc_neq {A : Type} (l : list A) x : l ++ [x] <> l.
Proof.
  intros H. apply (f_equal (@length A)) in H.
  rewrite length_app in H. cbn in H. lia.
Qed.

Lemma set_status_hit key st now r0 :
  id (set_status key st now r0) = key ->
  lastStatus (set_status key st now r0) = Some st /\
  lastChecked (set_status key st now r0) = Some now.
Proof.
  unfold set_status. destruct (id r0 =? key) eqn:E; cbn; auto.
  intros H. apply Z.eqb_neq in E. contradiction.
Qed.

Lemma outcome_after {A : Type} e (p : Prog A) w :
  run e p w = (outcome e p w, after e p w).
Proof. unfold outcome, after. now destruct (run e p w). Qed.

(** The rows [handleMonitor] can add, whatever the store does: none, or
    one row for a status that differs from the stored one. *)
Lemma V1_handleMonitor_logs
  (e : Env) (cfg : option Z) (m : Monitor) (w : World) :
  let probe := V1.checkStatus cfg m in
  let w' := after e (V1.handleMonitor cfg m) w in
  monitorLogs w' = monitorLogs w \/
  exists st,
    outcome e probe w = Normal st /\ lastStatus m <> Some st /\
    monitorLogs w' =
    monitorLogs w ++ [mkMonitorLog (ipOrUrl m) st (clock (after e probe w))].
Proof.
  intros probe w'.
  destruct (avoids_write_tables e probe w (V1_checkStatus_avoids_write cfg m))
    as [_ Hl].
  assert (Hrun := V1_handleMonitor_run e cfg m w).
  rewrite (outcome_after e (V1.checkStatus cfg m) w) in Hrun.
  fold probe in Hrun.
  destruct (outcome e probe w) as [st | x] eqn:Ho.
  - destruct (strict_eq st (lastStatus m)) eqn:Heq.
    + left. unfold w', after. now rewrite Hrun.
    + assert (Hw' : monitorLogs w' =
                    monitorLogs (after e (V1.updateMonitorStatus m st)
                                   (after e probe w))).
      { unfold w'. unfold after at 1. rewrite Hrun.
        rewrite (outcome_after e (V1.updateMonitorStatus m st)).
        destruct (outcome e (V1.updateMonitorStatus m st) (after e probe w));
          cbn [snd]; [ | reflexivity].
        apply (avoids_write_tables e (V1.sendWebhook m st)),
          V1_sendWebhook_avoids_write. }
      rewrite Hw'.
      destruct (V1_updateMonitorStatus_logs e m st (after e probe w))
        as [-> | ->]; [now left | ].
      right. exists st. rewrite Hl. apply strict_eq_false in Heq. auto.
  - left. unfold w', after. now rewrite Hrun.
Qed.

(** C1. One run of [handleMonitor] adds to [MonitorLog] either nothing
    or exactly one row, and a row only for a probed status that differs
    from the [lastStatus] the monitor had when the run started.  With a
    store that performs its operations the converse holds as well: a row
    is added if and only if the probed status differs; the row carries
    the new status and, as [createdAt], the time at which the probe had
    ended and [MonitorLog.create] was called; the row of the monitor gets
    the new [lastStatus] and, as [lastChecked], the time at which
    [new Date()] was evaluated, which is later than [createdAt] by the
    time the INSERT took. *)
Theorem C1_event_iff_status_changed
  (e : Env) (cfg : option Z) (m : Monitor) (w : World) :
  let probe := V1.checkStatus cfg m in
  let w' := after e (V1.handleMonitor cfg m) w in
  (monitorLogs w' = monitorLogs w \/
   exists st,
     outcome e probe w = Normal st /\ lastStatus m <> Some st /\
     monitorLogs w' =
     monitorLogs w ++ [mkMonitorLog (ipOrUrl m) st (clock (after e probe w))]) /\
  (store_reliable e ->
   (monitorLogs w' <> monitorLogs w <->
      exists st, outcome e probe w = Normal st /\ lastStatus m <> Some st) /\
   (forall st,
      outcome e probe w = Normal st -> lastStatus m <> Some st ->
      let created := clock (after e probe w) in
      let now :=
        created + latency e (after e probe w)
                    (MonitorLog_create (ipOrUrl m) st) in
      monitorLogs w' =
        monitorLogs w ++ [mkMonitorLog (ipOrUrl m) st created] /\
      monitors w' = map (set_status (id m) st now) (monitors w) /\
      forall r, In r (monitors w') -> id r = id m ->
                lastStatus r = Some st /\ lastChecked r = Some now)).
Proof.
  intros probe w'. split.
  { destruct (V1_handleMonitor_logs e cfg m w) as [H | (st & Ho & Hne & H)];
      [now left | right; eauto]. }
  intros Hs.
  assert (Hnow : forall st,
    clock (after e (await_MonitorLog_create (ipOrUrl m) st) (after e probe w))
    = clock (after e probe w)
      + latency e (after e probe w) (MonitorLog_create (ipOrUrl m) st)).
  { intros st. unfold after at 1. unfold await_MonitorLog_create. cbn.
    now rewrite (store_op_reliable e) by assumption. }
  destruct (avoids_write_tables e probe w (V1_checkStatus_avoids_write cfg m))
    as [Hm Hl].
  assert (Hrun := V1_handleMonitor_run e cfg m w).
  rewrite (outcome_after e (V1.checkStatus cfg m) w) in Hrun.
  fold probe in Hrun.
  assert (Hchanged : forall st,
    outcome e probe w = Normal st -> lastStatus m <> Some st ->
    let created := clock (after e probe w) in
    let now :=
      created + latency e (after e probe w)
                  (MonitorLog_create (ipOrUrl m) st) in
    monitorLogs w' = monitorLogs w ++ [mkMonitorLog (ipOrUrl m) st created] /\
    monitors w' = map (set_status (id m) st now) (monitors w)).
  { intros st Ho Hne created now. rewrite Ho in Hrun.
    apply strict_eq_false in Hne. rewrite Hne in Hrun.
    destruct (V1_updateMonitorStatus_run e m st (after e probe w) Hs)
      as (Hu & Hul & Hum).
    rewrite (outcome_after e (V1.updateMonitorStatus m st)), Hu in Hrun.
    destruct (avoids_write_tables e (V1.sendWebhook m st)
                (after e (V1.updateMonitorStatus m st) (after e probe w))
                (V1_sendWebhook_avoids_write m st)) as [Hsm Hsl].
    assert (Hw' : w' = after e (V1.sendWebhook m st)
              (after e (V1.updateMonitorStatus m st) (after e probe w))).
    { unfold w'. unfold after at 1. now rewrite Hrun. }
    rewrite Hw', Hsl, Hul, Hl. split; [reflexivity | ].
    rewrite Hsm, Hum, Hm, Hnow. reflexivity. }
  split.
  - split.
    + intros Hneq.
      destruct (V1_handleMonitor_logs e cfg m w) as [H | (st & Ho & Hne & _)];
        [contradiction | eauto].
    + intros (st & Ho & Hne). destruct (Hchanged st Ho Hne) as [-> _].
      apply snoc_neq.
  - intros st Ho Hne created now. destruct (Hchanged st Ho Hne) as [H1 H2].
    split; [exact H1 | split; [exact H2 | ]].
    intros r Hin Hid. rewrite H2 in Hin. apply in_map_iff in Hin.
    destruct Hin as (r0 & <- & _). now apply set_status_hit.
Qed.

Lemma C1_event_iff_status_changed_witness :
  store_reliable Sample.up /\
  monitorLogs (after Sample.up (V1.handleMonitor None Sample.dns) Sample.w0) =
  [mkMonitorLog "8.8.8.8" "online" 1700000000007] /\
  monitors (after Sample.up (V1.handleMonitor None Sample.dns) Sample.w0) =
  [mkMonitor 1 "8.8.8.8" (Some "online"%string) (Some 1700000000014)
     (Some "http://hook.test/up"%string); Sample.site].
Proof.
  split; [intros w c; reflexivity | ].
  destruct (C1_event_iff_status_changed Sample.up None Sample.dns Sample.w0)
    as [_ H].
  destruct (H (fun _ _ => eq_refl)) as [_ H'].
  destruct (H' "online"%string eq_refl ltac:(discriminate)) as (H1 & H2 & _).
  split; [exact H1 | exact H2].
Defined.

(** The run of [handleMonitor] when the probe confirms the stored status:
    it ends where the probe ended. *)
Lemma V1_handleMonitor_same_status
  (e : Env) (cfg : option Z) (m : Monitor) (w : World) (st : string) :
  outcome e (V1.checkStatus cfg m) w = Normal st ->
  lastStatus m = Some st ->
  after e (V1.handleMonitor cfg m) w = after e (V1.checkStatus cfg m) w.
Proof.
  intros Ho Hl. unfold after at 1. rewrite V1_handleMonitor_run.
  rewrite (outcome_after e (V1.checkStatus cfg m) w), Ho.
  apply strict_eq_true in Hl. now rewrite Hl.
Qed.

(** C6. When the probe gives the status the monitor already has,
    [handleMonitor] does nothing beyond the probe: the world it leaves is
    the one the probe left.  No row is added to [MonitorLog], no row of
    [Monitor] changes (so [lastChecked] stays as it was), no write is sent
    to the store and no POST is made. *)
Theorem C6_same_status_no_effect
  (e : Env) (cfg : option Z) (m : Monitor) (w : World) (st : string) :
  outcome e (V1.checkStatus cfg m) w = Normal st ->
  lastStatus m = Some st ->
  let w' := after e (V1.handleMonitor cfg m) w in
  w' = after e (V1.checkStatus cfg m) w /\
  monitorLogs w' = monitorLogs w /\
  monitors w' = monitors w /\
  map lastChecked (monitors w') = map lastChecked (monitors w) /\
  writes w' = writes w /\
  posts w' = posts w.
Proof.
  intros Ho Hl w'.
  assert (Hw' : w' = after e (V1.checkStatus cfg m) w)
    by now apply V1_handleMonitor_same_status with (st := st).
  destruct (avoids_write_tables e _ w (V1_checkStatus_avoids_write cfg m))
    as [Hm Hlog].
  rewrite Hw'. repeat split; try congruence.
  - apply (avoids_filter is_write), V1_checkStatus_avoids_write.
  - apply (avoids_filter is_post), V1_checkStatus_avoids_post.
Qed.

Lemma C6_same_status_no_effect_witness :
  outcome Sample.up (V1.checkStatus None Sample.site) Sample.w0
    = Normal "online"%string /\
  lastStatus Sample.site = Some "online"%string /\
  monitorLogs (after Sample.up (V1.handleMonitor None Sample.site) Sample.w0)
    = [] /\
  posts (after Sample.up (V1.handleMonitor None Sample.site) Sample.w0) = [].
Proof.
  split; [reflexivity | split; [reflexivity | ]].
  destruct (C6_same_status_no_effect Sample.up None Sample.site Sample.w0
              "online"%string eq_refl eq_refl) as (_ & H1 & _ & _ & _ & H2).
  split; [exact H1 | exact H2].
Defined.

(** C10. A monitor created by [Monitor.create({ ipOrUrl })] under the
    model of [src/unnamed/part_000] has [lastStatus] 'offline' and no
    webhook.  Whenever the probe of its first run gives 'offline', the
    run of [handleMonitor] on it adds no row to [MonitorLog], changes no
    monitor and makes no POST; this holds for the row as it was created
    and for the row with whatever webhook it has been given since
    ([hook]), so no webhook is sent even when one is configured. *)
Theorem C10_created_offline_first_run_quiet
  (e : Env) (cfg : option Z) (key : Z) (ip : string) (hook : option string)
  (w w1 : World) :
  let row := fst (Model000.create key ip w) in
  let m := mkMonitor (id row) (ipOrUrl row) (lastStatus row)
             (lastChecked row) hook in
  lastStatus row = Some "offline"%string /\
  webhookUrl row = None /\
  In row (monitors (snd (Model000.create key ip w))) /\
  (outcome e (V1.checkStatus cfg m) w1 = Normal "offline"%string ->
   monitorLogs (after e (V1.handleMonitor cfg m) w1) = monitorLogs w1 /\
   monitors (after e (V1.handleMonitor cfg m) w1) = monitors w1 /\
   posts (after e (V1.handleMonitor cfg m) w1) = posts w1).
Proof.
  intros row m. split; [reflexivity | split; [reflexivity | split]].
  - cbn. apply in_or_app. right. now left.
  - intros Ho.
    rewrite (V1_handleMonitor_same_status e cfg m w1 "offline" Ho eq_refl).
    destruct (avoids_write_tables e _ w1 (V1_checkStatus_avoids_write cfg m))
      as [Hm Hlog].
    split; [exact Hlog | split; [exact Hm | ]].
    apply (avoids_filter is_post), V1_checkStatus_avoids_post.
Qed.

Lemma C10_created_offline_first_run_quiet_witness :
  outcome Sample.down
    (V1.checkStatus None
       (mkMonitor 3 "192.0.2.7" (Some "offline"%string) None
          (Some "http://hook.test/new"%string)))
    (snd (Model000.create 3 "192.0.2.7" Sample.w0)) = Normal "offline"%string /\
  monitorLogs
    (after Sample.down
       (V1.handleMonitor None
          (mkMonitor 3 "192.0.2.7" (Some "offline"%string) None
             (Some "http://hook.test/new"%string)))
       (snd (Model000.create 3 "192.0.2.7" Sample.w0))) = [] /\
  posts
    (after Sample.down
       (V1.handleMonitor None
          (mkMonitor 3 "192.0.2.7" (Some "offline"%string) None
             (Some "http://hook.test/new"%string)))
       (snd (Model000.create 3 "192.0.2.7" Sample.w0))) = [].
Proof.
  split; [reflexivity | ].
  destruct (C10_created_offline_first_run_quiet Sample.down None 3
              "192.0.2.7" (Some "http://hook.test/new"%string) Sample.w0
              (snd (Model000.create 3 "192.0.2.7" Sample.w0)))
    as (_ & _ & _ & H).
  destruct (H eq_refl) as (H1 & _ & H2). split; [exact H1 | exact H2].
Defined.

(* ================================================================== *)
(** ** The notifier *)

Lemma truthy_Some v url : truthy v = Some url -> v = Some url /\ url <> ""%string.
Proof.
  destruct v as [s|]; cbn; [ | discriminate].
  destruct s; cbn; [discriminate | ]. intros [= <-]. split; congruence.
Qed.

Lemma truthy_set url : url <> ""%string -> truthy (Some url) = Some url.
Proof. destruct url; cbn; congruence. Qed.

Section Notifier.
Variable e : Env.
Local Arguments String.append : simpl never.

(** The one path of [sendWebhook] through a configured webhook: read
    the clock, POST, log one line that depends on how the POST settled. *)
Lemma V1_sendWebhook_run m st w url :
  truthy (webhookUrl m) = Some url ->
  let w1 := issued e Date_now w in
  let init := webhook_init st (clock w) in
  run e (V1.sendWebhook m st) w =
  (Normal tt,
   issued e
     match net_fetch e w1 url init with
     | Fulfilled _ => webhook_sent url m
     | Rejected x => webhook_failed url x
     end
     (issued e (fetch url init) w1)).
Proof.
  intros H. unfold V1.sendWebhook. rewrite H. unfold_awaits. cbn.
  unfold webhook_init.
  destruct (net_fetch e _ _ _); reflexivity.
Qed.

Lemma V2_sendWebhook_run m st w url :
  truthy (webhookUrl m) = Some url ->
  let w0 := issued e (console_log [VStr "Webhook:"; VMonitor m]) w in
  let w1 := issued e Date_now w0 in
  let init := webhook_init st (clock w) in
  run e (V2.sendWebhook m st) w =
  (Normal tt,
   issued e
     match net_fetch e w1 url init with
     | Fulfilled _ => webhook_sent url m
     | Rejected x => webhook_failed url x
     end
     (issued e (fetch url init) w1)).
Proof.
  intros H. unfold V2.sendWebhook. rewrite H. unfold_awaits. cbn.
  unfold webhook_init.
  destruct (net_fetch e _ _ _); reflexivity.
Qed.

Lemma V2_sendWebhook_normal m st w :
  outcome e (V2.sendWebhook m st) w = Normal tt.
Proof.
  unfold outcome. destruct (truthy (webhookUrl m)) as [url|] eqn:H.
  - now rewrite (V2_sendWebhook_run m st w url H).
  - unfold V2.sendWebhook. rewrite H. reflexivity.
Qed.
End Notifier.

(** C8. [sendWebhook] does nothing at all when the monitor has no
    [webhookUrl] (the same holds for the empty string, which is falsy);
    with a webhook URL it makes exactly one POST, to that URL, whose body
    is the object with the two fields [monitor_status], the status, and
    [timestamp], the clock in whole seconds. *)
Theorem C8_one_post_iff_webhook_set
  (e : Env) (m : Monitor) (st : string) (w : World) :
  (webhookUrl m = None \/ webhookUrl m = Some ""%string ->
   run e (V1.sendWebhook m st) w = (Normal tt, w)) /\
  (forall url, webhookUrl m = Some url -> url <> ""%string ->
   posts (after e (V1.sendWebhook m st) w) =
   posts w ++
   [fetch url
      (mkFetchInit POST [("Content-Type", "application/json")%string]
         (Some [("monitor_status"%string, JStr st);
                ("timestamp"%string, JNum (clock w / 1000))])
         false)]).
Proof.
  split.
  - intros H. unfold V1.sendWebhook. destruct H as [-> | ->]; reflexivity.
  - intros url Hu Hne. unfold after.
    rewrite (V1_sendWebhook_run e m st w url)
      by (rewrite Hu; now apply truthy_set).
    cbn [snd]. unfold posts. rewrite !trace_issued.
    rewrite filter_snoc_false
      by (destruct (net_fetch e _ _ _); reflexivity).
    rewrite filter_snoc_true by reflexivity.
    rewrite filter_snoc_false by reflexivity. reflexivity.
Qed.

Lemma C8_one_post_iff_webhook_set_witness :
  run Sample.up (V1.sendWebhook Sample.site "offline") Sample.w0
    = (Normal tt, Sample.w0) /\
  posts (after Sample.up (V1.sendWebhook Sample.dns "online") Sample.w0) =
  [fetch "http://hook.test/up"
     (mkFetchInit POST [("Content-Type", "application/json")%string]
        (Some [("monitor_status"%string, JStr "online");
               ("timestamp"%string, JNum 1700000000)])
        false)].
Proof.
  split.
  - apply (C8_one_post_iff_webhook_set Sample.up Sample.site "offline"
             Sample.w0). now left.
  - apply (proj2 (C8_one_post_iff_webhook_set Sample.up Sample.dns "online"
                    Sample.w0) "http://hook.test/up"%string eq_refl).
    discriminate.
Defined.

(** C9, as the code has it.  With a webhook configured, [sendWebhook]
    always completes normally and makes exactly one POST, whatever the
    answer (no retry).  A rejected request is logged with [app.log.error]
    and dropped; a response, 2xx or not, is logged as sent.  The POST is
    awaited: the program is suspended at it until it settles.  The second
    variant differs only by the [console.log] in front. *)
Theorem C9_webhook_failure_swallowed
  (e : Env) (m : Monitor) (st : string) (w : World) (url : string) :
  truthy (webhookUrl m) = Some url ->
  let init := webhook_init st (clock w) in
  let line (answer : Settled Response) :=
    match answer with
    | Fulfilled _ => webhook_sent url m
    | Rejected x => webhook_failed url x
    end in
  (let w1 := issued e Date_now w in
   outcome e (V1.sendWebhook m st) w = Normal tt /\
   posts (after e (V1.sendWebhook m st) w) = posts w ++ [fetch url init] /\
   trace (after e (V1.sendWebhook m st) w) =
     trace w ++ [Date_now; fetch url init; line (net_fetch e w1 url init)] /\
   exists k, advance e (V1.sendWebhook m st) w = (Vis (fetch url init) k, w1))
  /\
  (let hello := console_log [VStr "Webhook:"; VMonitor m] in
   let w1 := issued e Date_now (issued e hello w) in
   outcome e (V2.sendWebhook m st) w = Normal tt /\
   posts (after e (V2.sendWebhook m st) w) = posts w ++ [fetch url init] /\
   trace (after e (V2.sendWebhook m st) w) =
     trace w ++
     [hello; Date_now; fetch url init; line (net_fetch e w1 url init)] /\
   exists k, advance e (V2.sendWebhook m st) w = (Vis (fetch url init) k, w1)).
Proof.
  intros H init line.
  assert (Hline : forall a, is_post (line a) = false)
    by (intros []; reflexivity).
  split.
  - intros w1. unfold outcome, after.
    rewrite (V1_sendWebhook_run e m st w url H). cbn [fst snd].
    fold init w1. fold (line (net_fetch e w1 url init)).
    split; [reflexivity | split; [ | split]].
    + unfold posts, w1. rewrite !trace_issued.
      rewrite filter_snoc_false by apply Hline.
      rewrite filter_snoc_true by reflexivity.
      now rewrite filter_snoc_false by reflexivity.
    + unfold w1. rewrite !trace_issued. now rewrite <- !app_assoc.
    + unfold V1.sendWebhook. rewrite H. unfold_awaits. cbn.
      eexists. reflexivity.
  - intros hello w1. unfold outcome, after.
    rewrite (V2_sendWebhook_run e m st w url H). cbn [fst snd].
    fold init hello w1. fold (line (net_fetch e w1 url init)).
    split; [reflexivity | split; [ | split]].
    + unfold posts, w1. rewrite !trace_issued.
      rewrite filter_snoc_false by apply Hline.
      rewrite filter_snoc_true by reflexivity.
      now rewrite !filter_snoc_false by reflexivity.
    + unfold w1. rewrite !trace_issued. now rewrite <- !app_assoc.
    + unfold V2.sendWebhook. rewrite H. unfold_awaits. cbn.
      eexists. reflexivity.
Qed.

Lemma C9_webhook_failure_swallowed_witness :
  truthy (webhookUrl Sample.dns) = Some "http://hook.test/up"%string /\
  outcome Sample.down (V1.sendWebhook Sample.dns "online") Sample.w0
    = Normal tt /\
  trace (after Sample.down (V1.sendWebhook Sample.dns "online") Sample.w0) =
    [Date_now;
     fetch "http://hook.test/up" (webhook_init "online" 1700000000000);
     webhook_failed "http://hook.test/up" Sample.refused].
Proof.
  split; [reflexivity | ].
  destruct (C9_webhook_failure_swallowed Sample.down Sample.dns "online"
              Sample.w0 "http://hook.test/up" eq_refl) as [(H1 & _ & H2 & _) _].
  split; [exact H1 | exact H2].
Defined.

(** C9, as stated, fails.  A webhook endpoint that answers 500 is a
    delivery failure, yet [sendWebhook] logs no failure: the line it logs
    says the webhook was sent.  And the POST is not fire-and-forget: in
    the schedule below everything else of the tick is done, the pipeline
    of 8.8.8.8 is suspended at the POST, and the tick is not complete. *)
Lemma C9_non_2xx_not_logged_and_post_awaited :
  delivery_failed
    (net_fetch Sample.hook_500 (issued Sample.hook_500 Date_now Sample.w0)
       "http://hook.test/up" (webhook_init "online" 1700000000000)) = true /\
  trace (after Sample.hook_500 (V1.sendWebhook Sample.dns "online") Sample.w0) =
    [Date_now;
     fetch "http://hook.test/up" (webhook_init "online" 1700000000000);
     app_log_info "Webhook sent to http://hook.test/up for 8.8.8.8"] /\
  error_logs
    (after Sample.hook_500 (V1.sendWebhook Sample.dns "online") Sample.w0)
    = [] /\
  (exists k,
     tasks (exec Sample.hook_500 (V1.checkMonitors None)
              [Fire; Resume 0; Resume 0; Resume 0; Resume 0; Resume 0]%nat
              (boot Sample.w0)) =
     [Pipeline 0
        (Vis (fetch "http://hook.test/up"
                (webhook_init "online" 1700000000021)) k)]) /\
  ~ tick_joined 0
      (exec Sample.hook_500 (V1.checkMonitors None)
         [Fire; Resume 0; Resume 0; Resume 0; Resume 0; Resume 0]%nat
         (boot Sample.w0)).
Proof.
  split; [reflexivity | split; [reflexivity | split; [reflexivity | ]]].
  match goal with |- ?A /\ _ => assert (Hk : A) by (eexists; reflexivity) end.
  split; [exact Hk | ]. destruct Hk as [k Hk]. intros [_ Hj].
  eapply (Hj (Pipeline 0 _)); [rewrite Hk; left; reflexivity | reflexivity].
Qed.

(* ================================================================== *)
(** ** The prober *)

Section Prober.
Variable e : Env.
Variable cfg : option Z.
Local Arguments String.append : simpl never.

Lemma V1_checkStatus_ip m w :
  V1.checkIpAddress (ipOrUrl m) = true ->
  let call := ping_promise_probe (ipOrUrl m)
                (Some (mkPingOptions (div_1000 (V1.TIMEOUT_MS cfg)))) in
  run e (V1.checkStatus cfg m) w =
  (Normal (status_of_ping
             (net_ping e w (ipOrUrl m)
                (Some (mkPingOptions (div_1000 (V1.TIMEOUT_MS cfg)))))),
   issued e call w).
Proof.
  intros H. unfold V1.checkStatus. rewrite H. unfold_awaits. cbn.
  destruct (net_ping e _ _ _) as [[[]] | x]; reflexivity.
Qed.

Lemma V1_checkStatus_url m w :
  V1.checkIpAddress (ipOrUrl m) = false ->
  let w1 := issued e (setTimeout_abort (V1.TIMEOUT_MS cfg)) w in
  run e (V1.checkStatus cfg m) w =
  (result_of_head "offline" (net_fetch e w1 (ipOrUrl m) head_init),
   issued e clearTimeout (issued e (fetch (ipOrUrl m) head_init) w1)).
Proof.
  intros H. unfold V1.checkStatus. rewrite H. unfold_awaits. cbn.
  unfold head_init.
  destruct (net_fetch e _ _ _) as [res | x]; cbn; [reflexivity | ].
  destruct (err_name x =? "AbortError")%string; reflexivity.
Qed.

Lemma V2_checkStatus_ip m w :
  test V2.isIpAddress_regex (ipOrUrl m) = true ->
  let w1 := issued e (console_log [VStr "Ping"]) w in
  let w2 := issued e (ping_promise_probe (ipOrUrl m) None) w1 in
  run e (V2.checkStatus cfg m) w =
  (Normal (status_of_ping (net_ping e w1 (ipOrUrl m) None)),
   match net_ping e w1 (ipOrUrl m) None with
   | Fulfilled res => issued e (console_log [VStr "Res:"; VPing res]) w2
   | Rejected _ => w2
   end).
Proof.
  intros H. unfold V2.checkStatus. rewrite H. unfold_awaits. cbn.
  destruct (net_ping e _ _ _) as [[[]] | x]; reflexivity.
Qed.

Lemma V2_checkStatus_url m w :
  test V2.isIpAddress_regex (ipOrUrl m) = false ->
  let w1 := issued e (setTimeout_abort (V2.TIMEOUT_MS cfg)) w in
  run e (V2.checkStatus cfg m) w =
  (result_of_head "timeout" (net_fetch e w1 (ipOrUrl m) head_init),
   issued e clearTimeout (issued e (fetch (ipOrUrl m) head_init) w1)).
Proof.
  intros H. unfold V2.checkStatus. rewrite H. unfold_awaits. cbn.
  unfold head_init.
  destruct (net_fetch e _ _ _) as [res | x]; cbn; [reflexivity | ].
  destruct (err_name x =? "AbortError")%string; reflexivity.
Qed.

Lemma status_of_ping_cases a :
  status_of_ping a = "online"%string \/ status_of_ping a = "offline"%string.
Proof. destruct a as [[[]] | x]; cbn; auto. Qed.

(** What the HEAD branch can end in. *)
Lemma result_of_head_cases on_abort a :
  (exists st, result_of_head on_abort a = Normal st /\
     (st = "online" \/ st = "offline" \/ st = on_abort)%string) \/
  (exists x, result_of_head on_abort a = Abrupt x /\
     a = Rejected x /\ err_name x <> "AbortError"%string).
Proof.
  destruct a as [res | x]; cbn.
  - left. destruct (ok res); eauto.
  - destruct (err_name x =? "AbortError")%string eqn:E.
    + left. eauto.
    + right. exists x. apply String.eqb_neq in E. auto.
Qed.
End Prober.

Section Pipeline.
Variable e : Env.
Variable cfg : option Z.
Local Arguments String.append : simpl never.

(** [updateMonitorStatus] of the second variant makes the calls of the
    first; when it completes, the instance carries the new status and
    the time of the update. *)
Lemma V2_updateMonitorStatus_run m st w :
  run e (V2.updateMonitorStatus m st) w =
  match run e (V1.updateMonitorStatus m st) w with
  | (Normal _, w') =>
      (Normal
         (mkMonitor (id m) (ipOrUrl m) (Some st)
            (Some (clock (after e (await_MonitorLog_create (ipOrUrl m) st) w)))
            (webhookUrl m)),
       w')
  | (Abrupt x, w') => (Abrupt x, w')
  end.
Proof.
  unfold V2.updateMonitorStatus, V1.updateMonitorStatus, after.
  unfold_awaits. cbn. unfold store_op.
  destruct (store_fault e w (MonitorLog_create (ipOrUrl m) st));
    cbn; [reflexivity | ].
  unfold store_op.
  match goal with
  | |- context [store_fault e ?w1 ?c] => destruct (store_fault e w1 c)
  end; reflexivity.
Qed.

(** [handleMonitor] of the second variant by cases. *)
Lemma V2_handleMonitor_run m w :
  run e (V2.handleMonitor cfg m) w =
  match run e (V2.checkStatus cfg m) w with
  | (Normal st, w1) =>
      let w2 :=
        issued e
          (console_log [VStr "Last Status:"; V2.js_string (lastStatus m)])
          (issued e (console_log [VStr "Status:"; VStr st]) w1) in
      if strict_eq st (lastStatus m) then (Normal tt, w2)
      else
        match run e (V2.updateMonitorStatus m st) w2 with
        | (Normal updated, w3) =>
            (Normal tt, after e (V2.sendWebhook updated st) w3)
        | (Abrupt x, w3) => (Normal tt, issued e (error_checking m x) w3)
        end
  | (Abrupt x, w1) => (Normal tt, issued e (error_checking m x) w1)
  end.
Proof.
  unfold V2.handleMonitor. rewrite run_try_catch, run_bind.
  destruct (run e (V2.checkStatus cfg m) w) as [[st | x] w1]; [ | reflexivity].
  rewrite run_bind. cbn [call run handle fst snd].
  rewrite run_bind. cbn [call run handle fst snd].
  destruct (strict_eq st (lastStatus m)); [reflexivity | ]. cbn [negb].
  rewrite run_bind.
  destruct (run e (V2.updateMonitorStatus m st) _) as [[m' | x] w3];
    [ | reflexivity].
  pose proof (V2_sendWebhook_normal e m' st w3) as H. unfold outcome, after in *.
  destruct (run e (V2.sendWebhook m' st) w3) as [o w4]. cbn in *. now subst.
Qed.

(** Nothing escapes [handleMonitor]: its [catch] logs what the [try]
    block throws. *)
Lemma V1_handleMonitor_normal m w :
  outcome e (V1.handleMonitor cfg m) w = Normal tt.
Proof.
  unfold outcome. rewrite V1_handleMonitor_run.
  destruct (run e (V1.checkStatus cfg m) w) as [[st | x] w1]; auto.
  destruct (strict_eq st (lastStatus m)); auto.
  destruct (run e (V1.updateMonitorStatus m st) w1) as [[[] | x] w2]; auto.
Qed.

Lemma V2_handleMonitor_normal m w :
  outcome e (V2.handleMonitor cfg m) w = Normal tt.
Proof.
  unfold outcome. rewrite V2_handleMonitor_run.
  destruct (run e (V2.checkStatus cfg m) w) as [[st | x] w1]; auto.
  cbv zeta. destruct (strict_eq st (lastStatus m)); auto.
  destruct (run e (V2.updateMonitorStatus m st) _) as [[m' | x] w2]; auto.
Qed.
End Pipeline.

(** C3, as the code has it.  In both variants [checkStatus] either
    returns a status ('online' or 'offline'; in the second variant also
    'timeout') or, on the URL branch only, rethrows the error with which
    the HEAD request was rejected when that error is not an [AbortError].
    On the IP branch it never throws.  What it rethrows is caught by
    [handleMonitor], which always completes normally. *)
Theorem C3_probe_returns_status_or_rethrows
  (e : Env) (cfg : option Z) (m : Monitor) (w : World) :
  ((exists st, outcome e (V1.checkStatus cfg m) w = Normal st /\
               (st = "online" \/ st = "offline")%string) \/
   (exists x, outcome e (V1.checkStatus cfg m) w = Abrupt x /\
              V1.checkIpAddress (ipOrUrl m) = false /\
              err_name x <> "AbortError"%string /\
              net_fetch e (issued e (setTimeout_abort (V1.TIMEOUT_MS cfg)) w)
                (ipOrUrl m) head_init = Rejected x)) /\
  ((exists st, outcome e (V2.checkStatus cfg m) w = Normal st /\
               (st = "online" \/ st = "offline" \/ st = "timeout")%string) \/
   (exists x, outcome e (V2.checkStatus cfg m) w = Abrupt x /\
              test V2.isIpAddress_regex (ipOrUrl m) = false /\
              err_name x <> "AbortError"%string /\
              net_fetch e (issued e (setTimeout_abort (V2.TIMEOUT_MS cfg)) w)
                (ipOrUrl m) head_init = Rejected x)) /\
  outcome e (V1.handleMonitor cfg m) w = Normal tt /\
  outcome e (V2.handleMonitor cfg m) w = Normal tt.
Proof.
  split; [ | split; [ | split]].
  - unfold outcome. destruct (V1.checkIpAddress (ipOrUrl m)) eqn:Hip.
    + rewrite (V1_checkStatus_ip e cfg m w Hip). left.
      eexists. split; [reflexivity | apply status_of_ping_cases].
    + rewrite (V1_checkStatus_url e cfg m w Hip). cbn [fst].
      destruct (result_of_head_cases "offline" 
                  (net_fetch e (issued e (setTimeout_abort (V1.TIMEOUT_MS cfg)) w)
                     (ipOrUrl m) head_init))
        as [(st & -> & Hst) | (x & -> & Hx & Hn)].
      * left. exists st. intuition.
      * right. exists x. auto.
  - unfold outcome. destruct (test V2.isIpAddress_regex (ipOrUrl m)) eqn:Hip.
    + rewrite (V2_checkStatus_ip e cfg m w Hip). left.
      eexists. split; [reflexivity | ].
      destruct (status_of_ping_cases
                  (net_ping e (issued e (console_log [VStr "Ping"]) w)
                     (ipOrUrl m) None)); auto.
    + rewrite (V2_checkStatus_url e cfg m w Hip). cbn [fst].
      destruct (result_of_head_cases "timeout" 
                  (net_fetch e (issued e (setTimeout_abort (V2.TIMEOUT_MS cfg)) w)
                     (ipOrUrl m) head_init))
        as [(st & -> & Hst) | (x & -> & Hx & Hn)].
      * left. exists st. auto.
      * right. exists x. auto.
  - apply V1_handleMonitor_normal.
  - apply V2_handleMonitor_normal.
Qed.

(** C3, as stated, fails: when the connection to a URL target is
    refused, [checkStatus] ends by throwing, in both variants. *)
Lemma C3_refused_connection_is_rethrown :
  V1.checkIpAddress (ipOrUrl Sample.site) = false /\
  net_fetch Sample.down
    (issued Sample.down (setTimeout_abort 5000) Sample.w0)
    "https://example.com" head_init = Rejected Sample.refused /\
  outcome Sample.down (V1.checkStatus None Sample.site) Sample.w0
    = Abrupt Sample.refused /\
  outcome Sample.down (V2.checkStatus None Sample.site) Sample.w0
    = Abrupt Sample.refused.
Proof. repeat split. Qed.

Section TransportErrors.
Variable e : Env.
Variable cfg : option Z.
Local Arguments String.append : simpl never.

(** The run of [handleMonitor] when the probe throws: the error is
    logged and nothing else happens. *)
Lemma V1_handleMonitor_probe_throws m w x :
  outcome e (V1.checkStatus cfg m) w = Abrupt x ->
  after e (V1.handleMonitor cfg m) w =
  issued e (error_checking m x) (after e (V1.checkStatus cfg m) w).
Proof.
  intros H. unfold after at 1. rewrite V1_handleMonitor_run.
  now rewrite (outcome_after e (V1.checkStatus cfg m) w), H.
Qed.

Lemma V2_handleMonitor_probe_throws m w x :
  outcome e (V2.checkStatus cfg m) w = Abrupt x ->
  after e (V2.handleMonitor cfg m) w =
  issued e (error_checking m x) (after e (V2.checkStatus cfg m) w).
Proof.
  intros H. unfold after at 1. rewrite V2_handleMonitor_run.
  now rewrite (outcome_after e (V2.checkStatus cfg m) w), H.
Qed.
End TransportErrors.

(** C4, as the code has it.  For a target on the URL branch whose HEAD
    request is rejected with error [x]: an [AbortError] gives 'offline' in
    the first variant and 'timeout' in the second; any other error is
    rethrown by [checkStatus] in both, no status results, and
    [handleMonitor] logs the error and leaves both tables as they are. *)
Theorem C4_abort_status_and_rethrow
  (e : Env) (cfg : option Z) (m : Monitor) (w : World) (x : JsError) :
  net_fetch e (issued e (setTimeout_abort (TIMEOUT_MS_of cfg)) w)
    (ipOrUrl m) head_init = Rejected x ->
  (V1.checkIpAddress (ipOrUrl m) = false ->
   (err_name x = "AbortError"%string ->
    outcome e (V1.checkStatus cfg m) w = Normal "offline"%string) /\
   (err_name x <> "AbortError"%string ->
    outcome e (V1.checkStatus cfg m) w = Abrupt x /\
    monitors (after e (V1.handleMonitor cfg m) w) = monitors w /\
    monitorLogs (after e (V1.handleMonitor cfg m) w) = monitorLogs w /\
    error_logs (after e (V1.handleMonitor cfg m) w) =
      error_logs w ++ [error_checking m x])) /\
  (test V2.isIpAddress_regex (ipOrUrl m) = false ->
   (err_name x = "AbortError"%string ->
    outcome e (V2.checkStatus cfg m) w = Normal "timeout"%string) /\
   (err_name x <> "AbortError"%string ->
    outcome e (V2.checkStatus cfg m) w = Abrupt x /\
    monitors (after e (V2.handleMonitor cfg m) w) = monitors w /\
    monitorLogs (after e (V2.handleMonitor cfg m) w) = monitorLogs w /\
    error_logs (after e (V2.handleMonitor cfg m) w) =
      error_logs w ++ [error_checking m x])).
Proof.
  intros Hx. split; intros Hurl.
  - assert (Hrun := V1_checkStatus_url e cfg m w Hurl). cbv zeta in Hrun.
    change (V1.TIMEOUT_MS cfg) with (TIMEOUT_MS_of cfg) in Hrun.
    rewrite Hx in Hrun. cbn [result_of_head] in Hrun. split; intros Hn.
    + unfold outcome. rewrite Hrun. cbn [fst].
      apply String.eqb_eq in Hn. now rewrite Hn.
    + apply String.eqb_neq in Hn. rewrite Hn in Hrun.
      assert (Ho : outcome e (V1.checkStatus cfg m) w = Abrupt x)
        by (unfold outcome; now rewrite Hrun).
      split; [exact Ho | ].
      rewrite (V1_handleMonitor_probe_throws e cfg m w x Ho).
      unfold after. rewrite Hrun. cbn [snd]. repeat split.
      unfold error_logs. rewrite !trace_issued.
      rewrite filter_snoc_true by reflexivity.
      now rewrite !filter_snoc_false by reflexivity.
  - assert (Hrun := V2_checkStatus_url e cfg m w Hurl). cbv zeta in Hrun.
    change (V2.TIMEOUT_MS cfg) with (TIMEOUT_MS_of cfg) in Hrun.
    rewrite Hx in Hrun. cbn [result_of_head] in Hrun. split; intros Hn.
    + unfold outcome. rewrite Hrun. cbn [fst].
      apply String.eqb_eq in Hn. now rewrite Hn.
    + apply String.eqb_neq in Hn. rewrite Hn in Hrun.
      assert (Ho : outcome e (V2.checkStatus cfg m) w = Abrupt x)
        by (unfold outcome; now rewrite Hrun).
      split; [exact Ho | ].
      rewrite (V2_handleMonitor_probe_throws e cfg m w x Ho).
      unfold after. rewrite Hrun. cbn [snd]. repeat split.
      unfold error_logs. rewrite !trace_issued.
      rewrite filter_snoc_true by reflexivity.
      now rewrite !filter_snoc_false by reflexivity.
Qed.

Lemma C4_abort_status_and_rethrow_witness :
  net_fetch Sample.slow
    (issued Sample.slow (setTimeout_abort (TIMEOUT_MS_of None)) Sample.w0)
    (ipOrUrl Sample.site) head_init = Rejected Sample.aborted /\
  test V2.isIpAddress_regex (ipOrUrl Sample.site) = false /\
  err_name Sample.aborted = "AbortError"%string /\
  outcome Sample.slow (V2.checkStatus None Sample.site) Sample.w0
    = Normal "timeout"%string.
Proof.
  split; [reflexivity | split; [reflexivity | split; [reflexivity | ]]].
  apply (C4_abort_status_and_rethrow Sample.slow None Sample.site Sample.w0
           Sample.aborted eq_refl); reflexivity.
Defined.

(** C4, as stated, fails twice.  A refused connection is not turned into
    'offline': [checkStatus] throws, in the second variant as in the
    first.  And in the first variant a HEAD request cut off by the timer
    gives 'offline', not 'timeout'. *)
Lemma C4_refused_is_thrown_and_abort_is_offline :
  err_name Sample.refused <> "AbortError"%string /\
  outcome Sample.down (V2.checkStatus None Sample.site) Sample.w0
    = Abrupt Sample.refused /\
  outcome Sample.down (V1.checkStatus None Sample.site) Sample.w0
    = Abrupt Sample.refused /\
  net_fetch Sample.slow
    (issued Sample.slow (setTimeout_abort 5000) Sample.w0)
    "https://example.com" head_init = Rejected Sample.aborted /\
  outcome Sample.slow (V1.checkStatus None Sample.site) Sample.w0
    = Normal "offline"%string.
Proof. repeat split. discriminate. Qed.

(** The first variant hands the configured timeout, in seconds, to the
    ping probe; a rejected probe and a host that does not reply are both
    'offline'. *)
Lemma V1_ping_carries_timeout (e : Env) (cfg : option Z) (m : Monitor) w :
  V1.checkIpAddress (ipOrUrl m) = true ->
  trace (after e (V1.checkStatus cfg m) w) =
    trace w ++
    [ping_promise_probe (ipOrUrl m)
       (Some (mkPingOptions (div_1000 (TIMEOUT_MS_of cfg))))] /\
  (forall res,
     net_ping e w (ipOrUrl m)
       (Some (mkPingOptions (div_1000 (TIMEOUT_MS_of cfg)))) = Fulfilled res ->
     alive res = false ->
     outcome e (V1.checkStatus cfg m) w = Normal "offline"%string) /\
  (forall x,
     net_ping e w (ipOrUrl m)
       (Some (mkPingOptions (div_1000 (TIMEOUT_MS_of cfg)))) = Rejected x ->
     outcome e (V1.checkStatus cfg m) w = Normal "offline"%string).
Proof.
  intros H. unfold after, outcome. rewrite (V1_checkStatus_ip e cfg m w H).
  cbn [fst snd]. change (V1.TIMEOUT_MS cfg) with (TIMEOUT_MS_of cfg).
  split; [reflexivity | split].
  - intros res -> Hal. cbn. now rewrite Hal.
  - intros x ->. reflexivity.
Qed.

(** The second variant calls the ping probe without options, whatever
    the configuration; errors and silence are 'offline' there too. *)
Lemma V2_ping_has_no_timeout (e : Env) (cfg : option Z) (m : Monitor) w :
  test V2.isIpAddress_regex (ipOrUrl m) = true ->
  let w1 := issued e (console_log [VStr "Ping"]) w in
  In (ping_promise_probe (ipOrUrl m) None)
     (trace (after e (V2.checkStatus cfg m) w)) /\
  (forall c, In c (trace (after e (V2.checkStatus cfg m) w)) ->
             In c (trace w) \/ forall h t, c <> ping_promise_probe h (Some t)) /\
  (forall res,
     net_ping e w1 (ipOrUrl m) None = Fulfilled res -> alive res = false ->
     outcome e (V2.checkStatus cfg m) w = Normal "offline"%string) /\
  (forall x,
     net_ping e w1 (ipOrUrl m) None = Rejected x ->
     outcome e (V2.checkStatus cfg m) w = Normal "offline"%string).
Proof.
  intros H w1. unfold after, outcome. rewrite (V2_checkStatus_ip e cfg m w H).
  cbn [fst snd]. fold w1. split; [ | split; [ | split]].
  - destruct (net_ping e w1 (ipOrUrl m) None); unfold w1;
      rewrite !trace_issued, ?in_app_iff; cbn; tauto.
  - intros c. destruct (net_ping e w1 (ipOrUrl m) None); unfold w1;
      rewrite !trace_issued, ?in_app_iff; cbn;
      intros Hc; decompose [or] Hc; subst; auto; try tauto;
      right; intros h t; discriminate.
  - intros res -> Hal. cbn. now rewrite Hal.
  - intros x ->. reflexivity.
Qed.

(** C7, the defect.  With [TIMEOUT_MS=3000] configured, the second
    variant probes 8.8.8.8 with no options at all, so the configured bound
    does not reach the probe; the first variant passes 3000/1000 seconds. *)
Theorem C7_v2_ping_ignores_configured_timeout :
  V2.TIMEOUT_MS (Some 3000) = 3000 /\
  test V2.isIpAddress_regex "8.8.8.8" = true /\
  trace (after Sample.up (V2.checkStatus (Some 3000) Sample.dns) Sample.w0) =
    [console_log [VStr "Ping"];
     ping_promise_probe "8.8.8.8" None;
     console_log [VStr "Res:"; VPing (mkPingResponse true)]] /\
  trace (after Sample.up (V1.checkStatus (Some 3000) Sample.dns) Sample.w0) =
    [ping_promise_probe "8.8.8.8" (Some (mkPingOptions (3000 # 1000)))].
Proof. repeat split. Qed.

(* ================================================================== *)
(** ** The scheduler *)

Section SchedulerFacts.
Variable e : Env.
Variable job : Job.

Lemma pipeline_task_tick n p t :
  In t (pipeline_task n p) -> task_tick t = n.
Proof. destruct p; cbn; intros []; subst; auto; contradiction. Qed.

Lemma fan_out_tick n ms : forall w t,
  In t (fst (fan_out e job n ms w)) -> task_tick t = n.
Proof.
  induction ms as [| m ms IH]; intros w t; cbn; [contradiction | ].
  destruct (advance e (pipeline job m) w) as [p w1].
  specialize (IH w1). destruct (fan_out e job n ms w1) as [ts w2].
  cbn in *. rewrite in_app_iff. intros [H | H]; eauto using pipeline_task_tick.
Qed.

Lemma finding_task_tick n p w t :
  In t (fst (finding_task e job n p w)) -> task_tick t = n.
Proof.
  destruct p; cbn.
  - apply fan_out_tick.
  - contradiction.
  - intros [<- | []]. reflexivity.
Qed.

(** A firing waits for nothing and cancels nothing. *)
Lemma step_Fire s :
  fired (step e job Fire s) = S (fired s) /\
  exists ts, tasks (step e job Fire s) = tasks s ++ ts /\
             forall t, In t ts -> task_tick t = fired s.
Proof.
  cbn. destruct (advance e (snapshot job) (world s)) as [p w1].
  pose proof (finding_task_tick (fired s) p w1) as H.
  destruct (finding_task e job (fired s) p w1) as [ts w2]. cbn in *.
  split; [reflexivity | ]. exists ts. auto.
Qed.

(** A completion resumes one task and touches no other. *)
Lemma step_Resume s i t :
  nth_error (tasks s) i = Some t ->
  fired (step e job (Resume i) s) = fired s /\
  exists ts, tasks (step e job (Resume i) s) = remove_nth i (tasks s) ++ ts /\
             forall t', In t' ts -> task_tick t' = task_tick t.
Proof.
  intros H. cbn. rewrite H. destruct t as [n p | n p].
  - destruct (resume e p (world s)) as [p' w1].
    pose proof (finding_task_tick n p' w1) as Ht.
    destruct (finding_task e job n p' w1) as [ts w2]. cbn in *.
    split; [reflexivity | ]. exists ts. auto.
  - destruct (resume e p (world s)) as [p' w1]. cbn.
    split; [reflexivity | ]. exists (pipeline_task n p').
    split; [reflexivity | ]. apply pipeline_task_tick.
Qed.
End SchedulerFacts.

Section Overlap.
Variable e : Env.
Variable cfg : option Z.

Lemma pipeline_task_suspended n (p : Prog unit) :
  suspended p = true -> pipeline_task n p = [Pipeline n p].
Proof. destruct p; cbn; congruence. Qed.

(** Every pipeline of the first variant starts by awaiting its probe. *)
Lemma V1_handleMonitor_suspends m w :
  suspended (fst (advance e (V1.handleMonitor cfg m) w)) = true.
Proof.
  unfold V1.handleMonitor, V1.checkStatus.
  destruct (V1.checkIpAddress (ipOrUrl m)); reflexivity.
Qed.

(** The fan-out of a tick over [ms] leaves one pending pipeline for each
    monitor. *)
Lemma V1_fan_out_pipelines n ms : forall w,
  let ts := fst (fan_out e (V1.checkMonitors cfg) n ms w) in
  length ts = length ms /\
  filter is_pipeline ts = ts /\
  map task_tick ts = repeat n (length ms).
Proof.
  induction ms as [| m ms IH]; intros w; cbn; [auto | ].
  pose proof (V1_handleMonitor_suspends m w) as Hs.
  destruct (advance e (V1.handleMonitor cfg m) w) as [p w1]. cbn in Hs.
  rewrite (pipeline_task_suspended n p Hs).
  specialize (IH w1).
  destruct (fan_out e (V1.checkMonitors cfg) n ms w1) as [ts w2].
  cbn in *. destruct IH as (H1 & H2 & H3). now rewrite H1, H2, H3.
Qed.
End Overlap.

Section FanOutFrame.
Variable e : Env.
Variable job : Job.

(** Running up to the next await writes nothing to the store. *)
Lemma advance_monitors {A : Type} (p : Prog A) : forall w,
  monitors (snd (advance e p w)) = monitors w.
Proof.
  induction p as [a | x | c k IH]; intros w; cbn; auto.
  destruct (is_async c) eqn:Hc; [reflexivity | ].
  destruct (handle e c w) as [r w1] eqn:Hh.
  rewrite IH. replace w1 with (snd (handle e c w)) by now rewrite Hh.
  apply handle_tables. destruct c; cbn in *; congruence.
Qed.

Lemma fan_out_monitors n ms : forall w,
  monitors (snd (fan_out e job n ms w)) = monitors w.
Proof.
  induction ms as [| m ms IH]; intros w; cbn; [reflexivity | ].
  pose proof (advance_monitors (pipeline job m) w) as Ha.
  destruct (advance e (pipeline job m) w) as [p w1].
  specialize (IH w1). destruct (fan_out e job n ms w1) as [ts w2].
  cbn in *. congruence.
Qed.
End FanOutFrame.

Lemma remove_nth_last {A : Type} (l : list A) x :
  remove_nth (length l) (l ++ [x]) = l.
Proof.
  unfold remove_nth. induction l as [| a l IH]; cbn; [reflexivity | ].
  cbn in IH. now rewrite IH.
Qed.

Lemma nth_error_last {A : Type} (l : list A) x :
  nth_error (l ++ [x]) (length l) = Some x.
Proof. rewrite nth_error_app2, Nat.sub_diag by lia. reflexivity. Qed.

Section Overlap2.
Variable e : Env.
Variable cfg : option Z.
Hypothesis Hs : store_reliable e.

Lemma V1_step_Fire s :
  step e (V1.checkMonitors cfg) Fire s =
  mkSys (world s) (tasks s ++ [Finding (fired s) await_Monitor_findAll])
        (S (fired s)).
Proof. reflexivity. Qed.

Lemma V1_step_Resume_finding s i n :
  nth_error (tasks s) i = Some (Finding n await_Monitor_findAll) ->
  step e (V1.checkMonitors cfg) (Resume i) s =
  mkSys
    (snd (fan_out e (V1.checkMonitors cfg) n (monitors (world s))
            (issued e Monitor_findAll (world s))))
    (remove_nth i (tasks s) ++
     fst (fan_out e (V1.checkMonitors cfg) n (monitors (world s))
            (issued e Monitor_findAll (world s))))
    (fired s).
Proof.
  intros H. cbn [step]. rewrite H.
  cbn [resume await_Monitor_findAll handle].
  rewrite (store_op_reliable e) by assumption.
  cbn [advance settle finding_task].
  now destruct (fan_out e (V1.checkMonitors cfg) n (monitors (world s))
                  (issued e Monitor_findAll (world s))).
Qed.

(** Two firings in a row, each followed by its snapshot. *)
Lemma V1_two_ticks_in_flight w :
  pipeline_ticks
    (exec e (V1.checkMonitors cfg)
       [Fire; Resume 0; Fire; Resume (length (monitors w))] (boot w))
  = repeat 0%nat (length (monitors w)) ++ repeat 1%nat (length (monitors w)).
Proof.
  set (job := V1.checkMonitors cfg).
  set (find := Finding 0 await_Monitor_findAll).
  destruct (fan_out e job 0 (monitors w) (issued e Monitor_findAll w))
    as [ts0 w2] eqn:E0.
  destruct (fan_out e job 1 (monitors w) (issued e Monitor_findAll w2))
    as [ts1 w4] eqn:E1.
  pose proof (V1_fan_out_pipelines e cfg 0 (monitors w)
                (issued e Monitor_findAll w)) as H0.
  pose proof (fan_out_monitors e job 0 (monitors w)
                (issued e Monitor_findAll w)) as Hm0.
  pose proof (V1_fan_out_pipelines e cfg 1 (monitors w)
                (issued e Monitor_findAll w2)) as H1.
  fold job in H0, H1. rewrite E0 in H0, Hm0. rewrite E1 in H1.
  cbn [fst snd] in H0, H1, Hm0.
  destruct H0 as (L0 & F0 & T0). destruct H1 as (L1 & F1 & T1).
  change (monitors (issued e Monitor_findAll w)) with (monitors w) in Hm0.
  assert (S1 : step e job Fire (boot w) = mkSys w [find] 1) by reflexivity.
  assert (S2 : step e job (Resume 0) (mkSys w [find] 1) = mkSys w2 ts0 1).
  { unfold job. rewrite (V1_step_Resume_finding _ 0 0) by reflexivity.
    cbn [world tasks fired]. fold job. now rewrite E0. }
  assert (S3 : step e job Fire (mkSys w2 ts0 1)
               = mkSys w2 (ts0 ++ [Finding 1 await_Monitor_findAll]) 2)
    by reflexivity.
  assert (S4 : step e job (Resume (length ts0))
                 (mkSys w2 (ts0 ++ [Finding 1 await_Monitor_findAll]) 2)
               = mkSys w4 (ts0 ++ ts1) 2).
  { unfold job. rewrite (V1_step_Resume_finding _ (length ts0) 1)
      by apply nth_error_last.
    cbn [world tasks fired]. fold job.
    now rewrite remove_nth_last, Hm0, E1. }
  unfold exec. cbn [fold_left]. rewrite <- L0, S1, S2, S3, S4.
  unfold pipeline_ticks. cbn [tasks].
  now rewrite filter_app, map_app, F0, F1, T0, T1, L0.
Qed.
End Overlap2.

Lemma In_remove_nth {A : Type} (l : list A) : forall i j t,
  j <> i -> nth_error l j = Some t -> In t (remove_nth i l).
Proof.
  unfold remove_nth.
  induction l as [| a l IH]; intros [| i] [| j] t Hne H; cbn in *;
    try discriminate; try congruence.
  - eapply nth_error_In; eassumption.
  - left. congruence.
  - right. apply (IH i j); auto.
Qed.

(** Fan-in: a completion can complete a tick only if the task it resumes
    was the last pending task of that tick. *)
Lemma join_waits_for_all (e : Env) (job : Job) (s : Sys) (i n : nat) :
  tick_joined n (step e job (Resume i) s) ->
  forall j t, j <> i -> nth_error (tasks s) j = Some t -> task_tick t <> n.
Proof.
  intros [_ Hj] j t Hne Ht. apply Hj.
  destruct (nth_error (tasks s) i) as [ti |] eqn:Hi.
  - destruct (step_Resume e job s i ti Hi) as (_ & ts & -> & _).
    apply in_or_app. left. now apply (In_remove_nth _ i j).
  - cbn. rewrite Hi. eapply nth_error_In; eassumption.
Qed.

(** C2, as the code has it.  A cron firing starts a tick at once: it
    adds the tasks of the new tick and leaves every pending task of
    earlier ticks pending.  A completion resumes one task and touches no
    other, so a tick is complete only when the last of its pipelines has
    ended (the fan-in of [Promise.all]).  Nothing makes a firing wait for
    that: whenever the store answers, firing a second time while the
    probes of the first tick are in flight leaves the pipelines of both
    ticks in flight together, one of each tick for every monitor. *)
Theorem C2_cron_fires_without_waiting
  (e : Env) (cfg : option Z) (w : World) :
  (forall s,
     fired (step e (V1.checkMonitors cfg) Fire s) = S (fired s) /\
     exists ts,
       tasks (step e (V1.checkMonitors cfg) Fire s) = tasks s ++ ts /\
       forall t, In t ts -> task_tick t = fired s) /\
  (forall s i t,
     nth_error (tasks s) i = Some t ->
     fired (step e (V1.checkMonitors cfg) (Resume i) s) = fired s /\
     exists ts,
       tasks (step e (V1.checkMonitors cfg) (Resume i) s)
         = remove_nth i (tasks s) ++ ts /\
       forall t', In t' ts -> task_tick t' = task_tick t) /\
  (forall s i n,
     tick_joined n (step e (V1.checkMonitors cfg) (Resume i) s) ->
     forall j t, j <> i -> nth_error (tasks s) j = Some t ->
                 task_tick t <> n) /\
  (store_reliable e ->
   pipeline_ticks
     (exec e (V1.checkMonitors cfg)
        [Fire; Resume 0; Fire; Resume (length (monitors w))] (boot w))
   = repeat 0%nat (length (monitors w)) ++ repeat 1%nat (length (monitors w))).
Proof.
  split; [ | split; [ | split]].
  - intros s. apply step_Fire.
  - intros s i t. apply step_Resume.
  - intros s i n. apply join_waits_for_all.
  - intros Hs. now apply V1_two_ticks_in_flight.
Qed.

Lemma C2_cron_fires_without_waiting_witness :
  store_reliable Sample.up /\
  pipeline_ticks
    (exec Sample.up (V1.checkMonitors None)
       [Fire; Resume 0; Fire; Resume 2] (boot Sample.w0))
  = [0; 0; 1; 1]%nat.
Proof.
  split; [intros w c; reflexivity | ].
  exact (proj2 (proj2 (proj2
           (C2_cron_fires_without_waiting Sample.up None Sample.w0)))
           (fun _ _ => eq_refl)).
Defined.

(** C2, as stated, fails.  Tick 0 has probed both targets, logged the
    change of 8.8.8.8 and updated it; its pipeline is waiting for the
    webhook POST, which has no timeout, when cron fires again.  Tick 1
    fans out over both targets while that pipeline of tick 0 is still in
    flight. *)
Lemma C2_tick_fans_out_before_previous_joined :
  pipeline_ticks
    (exec Sample.up (V1.checkMonitors None)
       [Fire; Resume 0; Resume 0; Resume 0; Resume 0; Resume 0;
        Fire; Resume 1]%nat
       (boot Sample.w0))
  = [0; 1; 1]%nat /\
  ~ serialized
      (exec Sample.up (V1.checkMonitors None)
         [Fire; Resume 0; Resume 0; Resume 0; Resume 0; Resume 0;
          Fire; Resume 1]%nat
         (boot Sample.w0)).
Proof.
  assert (H : pipeline_ticks
    (exec Sample.up (V1.checkMonitors None)
       [Fire; Resume 0; Resume 0; Resume 0; Resume 0; Resume 0;
        Fire; Resume 1]%nat
       (boot Sample.w0)) = [0; 1; 1]%nat) by reflexivity.
  split; [exact H | ]. intros Hser. red in Hser. rewrite H in Hser.
  specialize (Hser 0%nat 1%nat (or_introl eq_refl) (or_intror (or_introl eq_refl))).
  discriminate.
Qed.

(** What the overlap costs.  With a probe bound of two minutes, two
    ticks can probe 8.8.8.8 together; both read 'offline' from their own
    snapshot, both find it 'online', and the one transition is logged
    twice. *)
Lemma overlapping_ticks_log_the_change_twice :
  map log_status
    (monitorLogs
       (world
          (exec Sample.up (V1.checkMonitors (Some 120000))
             ([Fire; Resume 0; Fire; Resume 2] ++ repeat (Resume 0) 24)%nat
             (boot Sample.w0))))
  = ["online"; "online"]%string /\
  tasks
    (exec Sample.up (V1.checkMonitors (Some 120000))
       ([Fire; Resume 0; Fire; Resume 2] ++ repeat (Resume 0) 24)%nat
       (boot Sample.w0)) = [].
Proof. split; reflexivity. Qed.

(* ================================================================== *)
(** ** The classifier *)

Section RegexSemantics.
Local Open Scope string_scope.

Lemma append_assoc (a b c : string) : (a ++ b) ++ c = a ++ (b ++ c).
Proof. induction a as [| x a IH]; cbn; [reflexivity | now rewrite IH]. Qed.

Lemma append_nil_r (a : string) : a ++ "" = a.
Proof. induction a as [| x a IH]; cbn; [reflexivity | now rewrite IH]. Qed.

(** The matcher is sound and complete for [lang]: the remainders it
    lists are those left by the prefixes in the language. *)
Lemma rmatch_spec (r : regex) : forall s rest,
  In rest (rmatch r s) <-> exists p, s = p ++ rest /\ lang r p.
Proof.
  induction r as [c | items | r1 IH1 r2 IH2 | r1 IH1 r2 IH2 | r1 IH1];
    intros s rest; cbn [rmatch lang].
  - destruct s as [| a s']; cbn.
    + split; [contradiction | ]. intros (p & Hs & ->). discriminate.
    + destruct (Ascii.eqb_spec a c) as [-> | Hne]; cbn.
      * split.
        -- intros [<- | []]. exists (String c ""). auto.
        -- intros (p & Hs & ->). cbn in Hs. injection Hs as <-. now left.
      * split; [contradiction | ]. intros (p & Hs & ->). cbn in Hs.
        injection Hs as Ha _. contradiction.
  - destruct s as [| a s']; cbn.
    + split; [contradiction | ]. intros (p & Hs & b & -> & _). discriminate.
    + destruct (in_cls a items) eqn:Hin; cbn.
      * split.
        -- intros [<- | []]. exists (String a ""). split; [reflexivity | eauto].
        -- intros (p & Hs & b & -> & _). cbn in Hs. injection Hs as _ <-.
           now left.
      * split; [contradiction | ]. intros (p & Hs & b & -> & Hb). cbn in Hs.
        injection Hs as <- _. congruence.
  - rewrite in_flat_map. split.
    + intros (mid & H1 & H2). apply IH1 in H1. apply IH2 in H2.
      destruct H1 as (p1 & -> & L1). destruct H2 as (p2 & -> & L2).
      exists (p1 ++ p2). split; [now rewrite append_assoc | eauto].
    + intros (p & -> & p1 & p2 & -> & L1 & L2). exists (p2 ++ rest). split.
      * apply IH1. exists p1. split; [apply append_assoc | assumption].
      * apply IH2. eauto.
  - rewrite in_app_iff, IH1, IH2. split.
    + intros [(p & Hs & L) | (p & Hs & L)]; eauto.
    + intros (p & Hs & [L | L]); eauto.
  - rewrite in_app_iff, IH1. cbn. split.
    + intros [(p & Hs & L) | [<- | []]]; eauto. exists "". auto.
    + intros (p & Hs & [L | ->]); eauto.
Qed.

(** [/^r$/.test(s)] holds exactly for the strings of the language. *)
Lemma test_spec (r : regex) (s : string) : test r s = true <-> lang r s.
Proof.
  unfold test. rewrite existsb_exists. split.
  - intros (rest & Hin & He). destruct rest; [ | discriminate].
    apply rmatch_spec in Hin. destruct Hin as (p & -> & L).
    now rewrite append_nil_r.
  - intros L. exists "". split; [ | reflexivity].
    apply rmatch_spec. exists s. now rewrite append_nil_r.
Qed.
End RegexSemantics.

Section Octets.
Local Open Scope string_scope.
Local Open Scope N_scope.

Lemma code_inj (a b : ascii) : code a = code b -> a = b.
Proof.
  unfold code. intros H.
  rewrite <- (ascii_N_embedding a), <- (ascii_N_embedding b). now rewrite H.
Qed.

Lemma in_range (a lo hi : ascii) :
  in_cls a [Range lo hi] = true <-> code lo <= code a /\ code a <= code hi.
Proof.
  cbn. rewrite orb_false_r, andb_true_iff, !N.leb_le. reflexivity.
Qed.

Lemma in_01 (a : ascii) :
  in_cls a [One "0"; One "1"] = true <-> code a = 48 \/ code a = 49.
Proof.
  cbn. rewrite orb_false_r, orb_true_iff, !Ascii.eqb_eq. split.
  - intros [-> | ->]; auto.
  - intros [H | H]; [left | right]; apply code_inj; exact H.
Qed.

Lemma lang_chr (a c : ascii) : lang (Chr c) (String a "") <-> code a = code c.
Proof.
  cbn. split; [intros [= ->]; reflexivity | intros H; f_equal; now apply code_inj].
Qed.

Lemma lang_cls1 (items : list cls_item) (p : string) :
  lang (Cls items) p <-> exists a, p = String a "" /\ in_cls a items = true.
Proof. reflexivity. Qed.

Lemma lang_cat_cons r1 r2 a rest :
  lang r1 (String a "") -> lang r2 rest -> lang (Cat r1 r2) (String a rest).
Proof. intros H1 H2. exists (String a ""), rest. auto. Qed.

Lemma lang_cat_nil r1 r2 rest :
  lang r1 "" -> lang r2 rest -> lang (Cat r1 r2) rest.
Proof. intros H1 H2. exists "", rest. auto. Qed.

Lemma lang_range a lo hi :
  code lo <= code a <= code hi -> lang (Cls [Range lo hi]) (String a "").
Proof. intros H. exists a. split; [reflexivity | now apply in_range]. Qed.

Lemma lang_digit_01 a :
  code a = 48 \/ code a = 49 -> lang digit_01 (String a "").
Proof. intros H. exists a. split; [reflexivity | now apply in_01]. Qed.

(** Replaces the code of every literal character by its number. *)
Ltac codes :=
  repeat match goal with
  | |- context [code (Ascii ?a ?b ?c ?d ?e ?f ?g ?h)] =>
      let v := eval vm_compute in (code (Ascii a b c d e f g h)) in
      change (code (Ascii a b c d e f g h)) with v
  | H : context [code (Ascii ?a ?b ?c ?d ?e ?f ?g ?h)] |- _ =>
      let v := eval vm_compute in (code (Ascii a b c d e f g h)) in
      change (code (Ascii a b c d e f g h)) with v in H
  end.

(** Takes a membership in a language of the classifier apart. *)
Ltac open_lang :=
  repeat match goal with
  | H : lang (Cat _ _) _ |- _ => destruct H as (? & ? & ? & ? & ?)
  | H : lang (Alt _ _) _ |- _ => destruct H as [? | ?]
  | H : lang (Opt _) _ |- _ => destruct H as [? | ?]
  | H : lang (Chr _) _ |- _ => cbn in H
  | H : lang (Cls _) _ |- _ => destruct H as (? & ? & ?)
  | H : in_cls _ [Range _ _] = true |- _ => apply in_range in H
  | H : in_cls _ [One _; One _] = true |- _ => apply in_01 in H
  end; subst.

Ltac octet_arith :=
  unfold octet_text; cbn [String.length all_digits decimal append];
  unfold is_digit; codes;
  rewrite ?andb_true_iff, ?N.leb_le, ?Nat.leb_le;
  repeat split; try lia.

Lemma lang_octet_sound p : lang octet p -> octet_text 255 p = true.
Proof.
  unfold octet, digit_0_5, digit_0_4, digit_0_9, digit_01.
  intros H. open_lang; octet_arith.
Qed.

Lemma lang_octet_v2_sound p : lang octet_v2 p -> octet_text 199 p = true.
Proof.
  unfold octet_v2, digit_0_5, digit_0_4, digit_0_9, digit_01.
  intros H. open_lang; octet_arith.
Qed.

(** What [octet_text] says about a string, digit by digit. *)
Lemma octet_text_inv bound p :
  octet_text bound p = true ->
  (exists a, p = String a "" /\ 48 <= code a <= 57 /\
             code a - 48 <= bound) \/
  (exists a b, p = String a (String b "") /\
               48 <= code a <= 57 /\ 48 <= code b <= 57 /\
               10 * (code a - 48) + (code b - 48) <= bound) \/
  (exists a b c, p = String a (String b (String c "")) /\
                 48 <= code a <= 57 /\ 48 <= code b <= 57 /\
                 48 <= code c <= 57 /\
                 100 * (code a - 48) + 10 * (code b - 48) + (code c - 48)
                 <= bound).
Proof.
  destruct p as [| a [| b [| c [| d p]]]]; unfold octet_text;
    cbn [String.length all_digits decimal]; unfold is_digit;
    rewrite ?andb_true_iff, ?N.leb_le, ?Nat.leb_le; intros H.
  - cbn in H. lia.
  - left. exists a. repeat split; try lia.
  - right; left. exists a, b. repeat split; try lia.
  - right; right. exists a, b, c. repeat split; try lia.
  - cbn in H. lia.
Qed.

Lemma lang_octet_complete p : octet_text 255 p = true -> lang octet p.
Proof.
  intros H. apply octet_text_inv in H.
  assert (D : forall a, 48 <= code a <= 57 -> lang digit_0_9 (String a ""))
    by (intros a Ha; apply lang_range; codes; lia).
  unfold octet.
  destruct H as [(a & -> & Ha & _) | [(a & b & -> & Ha & Hb & _)
                                    | (a & b & c & -> & Ha & Hb & Hc & Hv)]].
  - right; right. apply lang_cat_nil; [now right | ].
    apply lang_cat_cons; [now apply D | now right].
  - right; right. apply lang_cat_nil; [now right | ].
    apply lang_cat_cons; [now apply D | left; now apply D].
  - assert (C : (code a = 50 /\ code b = 53 /\ code c <= 53) \/
                (code a = 50 /\ code b <= 52) \/
                (code a = 48 \/ code a = 49)) by lia.
    destruct C as [(Ea & Eb & Ec) | [(Ea & Eb) | Ea]].
    + left. apply lang_cat_cons; [apply lang_chr; now codes | ].
      apply lang_cat_cons; [apply lang_chr; now codes | ].
      apply lang_range; codes; lia.
    + right; left. apply lang_cat_cons; [apply lang_chr; now codes | ].
      apply lang_cat_cons; [apply lang_range; codes; lia | now apply D].
    + right; right. apply lang_cat_cons; [left; now apply lang_digit_01 | ].
      apply lang_cat_cons; [now apply D | left; now apply D].
Qed.

Lemma lang_octet_v2_complete p : octet_text 199 p = true -> lang octet_v2 p.
Proof.
  intros H. apply octet_text_inv in H.
  assert (D : forall a, 48 <= code a <= 57 -> lang digit_0_9 (String a ""))
    by (intros a Ha; apply lang_range; codes; lia).
  unfold octet_v2.
  destruct H as [(a & -> & Ha & _) | [(a & b & -> & Ha & Hb & _)
                                    | (a & b & c & -> & Ha & Hb & Hc & Hv)]].
  - right. apply lang_cat_nil; [now right | ].
    apply lang_cat_cons; [now apply D | now right].
  - right. apply lang_cat_nil; [now right | ].
    apply lang_cat_cons; [now apply D | left; now apply D].
  - right. apply lang_cat_cons; [left; apply lang_digit_01; lia | ].
    apply lang_cat_cons; [now apply D | left; now apply D].
Qed.

Lemma lang_octet p : lang octet p <-> octet_text 255 p = true.
Proof. split; [apply lang_octet_sound | apply lang_octet_complete]. Qed.

Lemma lang_octet_v2 p : lang octet_v2 p <-> octet_text 199 p = true.
Proof. split; [apply lang_octet_v2_sound | apply lang_octet_v2_complete]. Qed.

(** Four groups with dots between them. *)
Lemma lang_dotted a b c d s :
  lang (dotted a b c d) s <->
  exists o1 o2 o3 o4,
    s = o1 ++ "." ++ o2 ++ "." ++ o3 ++ "." ++ o4 /\
    lang a o1 /\ lang b o2 /\ lang c o3 /\ lang d o4.
Proof.
  unfold dotted, dot. cbn [lang]. split.
  - intros (o1 & r1 & -> & H1 & d1 & r2 & -> & -> & o2 & r3 & -> & H2 &
            d2 & r4 & -> & -> & o3 & r5 & -> & H3 & d3 & o4 & -> & -> & H4).
    exists o1, o2, o3, o4. auto.
  - intros (o1 & o2 & o3 & o4 & -> & H1 & H2 & H3 & H4).
    exists o1, ("." ++ o2 ++ "." ++ o3 ++ "." ++ o4).
    split; [reflexivity | split; [assumption | ]].
    exists ".", (o2 ++ "." ++ o3 ++ "." ++ o4).
    split; [reflexivity | split; [reflexivity | ]].
    exists o2, ("." ++ o3 ++ "." ++ o4).
    split; [reflexivity | split; [assumption | ]].
    exists ".", (o3 ++ "." ++ o4).
    split; [reflexivity | split; [reflexivity | ]].
    exists o3, ("." ++ o4).
    split; [reflexivity | split; [assumption | ]].
    exists ".", o4. auto.
Qed.
End Octets.

(** X1. [checkIpAddress] of the first variant accepts exactly the dotted
    quads: four groups of one to three decimal digits, each writing a
    number from 0 to 255 (leading zeros allowed), separated by dots, and
    nothing before or after. *)
Lemma V1_checkIpAddress_dotted_quad (s : string) :
  V1.checkIpAddress s = true <-> dotted_quad s.
Proof.
  unfold V1.checkIpAddress, dotted_quad, dotted_quad_upto.
  rewrite test_spec, lang_dotted.
  split; intros (o1 & o2 & o3 & o4 & Hs & H1 & H2 & H3 & H4);
    exists o1, o2, o3, o4; rewrite !lang_octet in *; auto.
Qed.

(** X2. The inline expression of the second variant accepts a dotted quad
    only if its second, third and fourth octet are at most 199. *)
Lemma V2_isIpAddress_regex_upto_199 (s : string) :
  test V2.isIpAddress_regex s = true <-> dotted_quad_upto 255 199 s.
Proof.
  unfold V2.isIpAddress_regex, dotted_quad_upto.
  rewrite test_spec, lang_dotted.
  split; intros (o1 & o2 & o3 & o4 & Hs & H1 & H2 & H3 & H4);
    exists o1, o2, o3, o4; rewrite !lang_octet, !lang_octet_v2 in *; auto.
Qed.

(** C5, the defect.  The inline expression of the second variant bounds
    only the first octet by 255; the other three use [[0-5]?[0-9]] where
    the first has [25[0-5]|2[0-4][0-9]], so an address with an octet from
    200 to 255 in one of the last three places is not taken for an IP
    address, '255.255.255.255' among them.  [checkIpAddress] of the first
    variant classifies the four addresses of the boundary test as
    stated. *)
Theorem C5_v2_regex_rejects_octets_from_200 :
  test V2.isIpAddress_regex "255.255.255.255" = false /\
  test V2.isIpAddress_regex "192.168.1.200" = false /\
  test V2.isIpAddress_regex "0.0.0.0" = true /\
  test V2.isIpAddress_regex "255.199.59.0" = true /\
  V1.checkIpAddress "0.0.0.0" = true /\
  V1.checkIpAddress "255.255.255.255" = true /\
  V1.checkIpAddress "256.1.1.1" = false /\
  V1.checkIpAddress "http://example.com" = false.
Proof. repeat split. Qed.

(* ================================================================== *)
(** ** The pipeline as a whole *)

Lemma V1_sendWebhook_posts
  (e : Env) (m : Monitor) (st : string) (w : World) (url : string) :
  truthy (webhookUrl m) = Some url ->
  posts (after e (V1.sendWebhook m st) w) =
  posts w ++ [fetch url (webhook_init st (clock w))].
Proof.
  intros H. unfold after. rewrite (V1_sendWebhook_run e m st w url H).
  cbn [snd]. unfold posts. rewrite !trace_issued.
  rewrite filter_snoc_false by (destruct (net_fetch e _ _ _); reflexivity).
  rewrite filter_snoc_true by reflexivity.
  now rewrite filter_snoc_false by reflexivity.
Qed.

(** X9. Once per transition: with a store that performs its operations, a run
    of [handleMonitor] that finds a new status makes the one POST of
    [sendWebhook] when a webhook is configured, and none otherwise. *)
Lemma V1_transition_posts_once
  (e : Env) (cfg : option Z) (m : Monitor) (w : World) (st : string) :
  store_reliable e ->
  outcome e (V1.checkStatus cfg m) w = Normal st ->
  lastStatus m <> Some st ->
  let w2 := after e (V1.updateMonitorStatus m st)
              (after e (V1.checkStatus cfg m) w) in
  posts (after e (V1.handleMonitor cfg m) w) =
  posts w ++
  match truthy (webhookUrl m) with
  | Some url => [fetch url (webhook_init st (clock w2))]
  | None => []
  end.
Proof.
  intros Hs Ho Hne w2.
  assert (Hrun := V1_handleMonitor_run e cfg m w).
  rewrite (outcome_after e (V1.checkStatus cfg m) w), Ho in Hrun.
  apply strict_eq_false in Hne. rewrite Hne in Hrun.
  destruct (V1_updateMonitorStatus_run e m st
              (after e (V1.checkStatus cfg m) w) Hs) as (Hu & _).
  rewrite (outcome_after e (V1.updateMonitorStatus m st)), Hu in Hrun.
  fold w2 in Hrun.
  assert (Hp2 : posts w2 = posts w).
  { unfold w2, posts. rewrite (avoids_filter is_post).
    - apply (avoids_filter is_post), V1_checkStatus_avoids_post.
    - unfold V1.updateMonitorStatus. avoid. }
  unfold after at 1. rewrite Hrun. cbn [snd].
  destruct (truthy (webhookUrl m)) as [url |] eqn:Hu'.
  - now rewrite (V1_sendWebhook_posts e m st w2 url Hu'), Hp2.
  - unfold after, V1.sendWebhook. rewrite Hu'. cbn. now rewrite Hp2, app_nil_r.
Qed.

(** X25. The second variant, when the probe confirms the stored status: two
    lines on the console, and nothing else beyond the probe. *)
Lemma V2_handleMonitor_same_status
  (e : Env) (cfg : option Z) (m : Monitor) (w : World) (st : string) :
  outcome e (V2.checkStatus cfg m) w = Normal st ->
  lastStatus m = Some st ->
  let w' := after e (V2.handleMonitor cfg m) w in
  w' = issued e
         (console_log [VStr "Last Status:"; V2.js_string (lastStatus m)])
         (issued e (console_log [VStr "Status:"; VStr st])
            (after e (V2.checkStatus cfg m) w)) /\
  monitorLogs w' = monitorLogs w /\
  monitors w' = monitors w /\
  writes w' = writes w /\
  posts w' = posts w.
Proof.
  intros Ho Hl w'.
  assert (Hw' : w' = issued e
         (console_log [VStr "Last Status:"; V2.js_string (lastStatus m)])
         (issued e (console_log [VStr "Status:"; VStr st])
            (after e (V2.checkStatus cfg m) w))).
  { unfold w'. unfold after at 1. rewrite V2_handleMonitor_run.
    rewrite (outcome_after e (V2.checkStatus cfg m) w), Ho. cbv zeta.
    apply strict_eq_true in Hl. now rewrite Hl. }
  destruct (avoids_write_tables e _ w (V2_checkStatus_avoids_write cfg m))
    as [Hm Hlog].
  split; [exact Hw' | ]. rewrite Hw'. cbn [monitorLogs monitors issued].
  split; [exact Hlog | split; [exact Hm | split]].
  - unfold writes. rewrite !trace_issued.
    rewrite !filter_snoc_false by reflexivity.
    apply (avoids_filter is_write), V2_checkStatus_avoids_write.
  - unfold posts. rewrite !trace_issued.
    rewrite !filter_snoc_false by reflexivity.
    apply (avoids_filter is_post), V2_checkStatus_avoids_post.
Qed.

(** The other copy of the model, [src/unnamed/part_001], creates monitors
    with [lastStatus] 'online'; there a first probe that gives 'offline'
    is a transition and is logged. *)
Lemma Model001_created_online_first_offline_logged :
  (forall key ip w,
     lastStatus (fst (Model001.create key ip w)) = Some "online"%string) /\
  map log_status
    (monitorLogs
       (after Sample.down
          (V1.handleMonitor None
             (fst (Model001.create 3 "192.0.2.7" Sample.w0)))
          (snd (Model001.create 3 "192.0.2.7" Sample.w0))))
  = ["offline"%string].
Proof. split; reflexivity. Qed.

(* ================================================================== *)
(** ** More on the prober *)

(** X3. [checkStatus] of the first variant touches neither table.  Its
    IP branch makes the one ping call and arms no timer; its URL branch
    arms one abort timer, makes the one HEAD request and then clears the
    timer, whether the request is answered, aborted or fails. *)
Theorem V1_checkStatus_calls
  (e : Env) (cfg : option Z) (m : Monitor) (w : World) :
  let w' := after e (V1.checkStatus cfg m) w in
  monitors w' = monitors w /\
  monitorLogs w' = monitorLogs w /\
  trace w' =
    trace w ++
    (if V1.checkIpAddress (ipOrUrl m)
     then [ping_promise_probe (ipOrUrl m)
             (Some (mkPingOptions (div_1000 (TIMEOUT_MS_of cfg))))]
     else [setTimeout_abort (TIMEOUT_MS_of cfg);
           fetch (ipOrUrl m) head_init;
           clearTimeout]).
Proof.
  intros w'.
  destruct (avoids_write_tables e _ w (V1_checkStatus_avoids_write cfg m))
    as [Hm Hl].
  split; [exact Hm | split; [exact Hl | ]].
  unfold w', after. destruct (V1.checkIpAddress (ipOrUrl m)) eqn:Hip.
  - now rewrite (V1_checkStatus_ip e cfg m w Hip).
  - rewrite (V1_checkStatus_url e cfg m w Hip). cbn [snd].
    rewrite !trace_issued, <- !app_assoc. reflexivity.
Qed.

(** X4. The second variant likewise touches neither table and clears the
    timer it arms on the URL branch; on the IP branch it pings without
    options between two lines on the console, the second of which is
    printed only when the probe answers. *)
Theorem V2_checkStatus_calls
  (e : Env) (cfg : option Z) (m : Monitor) (w : World) :
  let w' := after e (V2.checkStatus cfg m) w in
  monitors w' = monitors w /\
  monitorLogs w' = monitorLogs w /\
  trace w' =
    trace w ++
    (if test V2.isIpAddress_regex (ipOrUrl m)
     then [console_log [VStr "Ping"]; ping_promise_probe (ipOrUrl m) None] ++
          match net_ping e (issued e (console_log [VStr "Ping"]) w)
                  (ipOrUrl m) None with
          | Fulfilled res => [console_log [VStr "Res:"; VPing res]]
          | Rejected _ => []
          end
     else [setTimeout_abort (TIMEOUT_MS_of cfg);
           fetch (ipOrUrl m) head_init;
           clearTimeout]).
Proof.
  intros w'.
  destruct (avoids_write_tables e _ w (V2_checkStatus_avoids_write cfg m))
    as [Hm Hl].
  split; [exact Hm | split; [exact Hl | ]].
  unfold w', after. destruct (test V2.isIpAddress_regex (ipOrUrl m)) eqn:Hip.
  - rewrite (V2_checkStatus_ip e cfg m w Hip). cbn [snd].
    destruct (net_ping e _ _ _); rewrite !trace_issued, <- !app_assoc;
      reflexivity.
  - rewrite (V2_checkStatus_url e cfg m w Hip). cbn [snd].
    rewrite !trace_issued, <- !app_assoc. reflexivity.
Qed.

(** X5. On the URL branch a HEAD request that is answered gives 'online'
    exactly when the status of the response is in the range 200-299, and
    'offline' for every other status, redirects and errors alike; this
    holds in both variants. *)
Theorem checkStatus_online_iff_2xx
  (e : Env) (cfg : option Z) (m : Monitor) (w : World) (res : Response) :
  net_fetch e (issued e (setTimeout_abort (TIMEOUT_MS_of cfg)) w)
    (ipOrUrl m) head_init = Fulfilled res ->
  (V1.checkIpAddress (ipOrUrl m) = false ->
   (outcome e (V1.checkStatus cfg m) w = Normal "online"%string <->
    200 <= status res <= 299) /\
   (outcome e (V1.checkStatus cfg m) w = Normal "offline"%string <->
    ~ 200 <= status res <= 299)) /\
  (test V2.isIpAddress_regex (ipOrUrl m) = false ->
   (outcome e (V2.checkStatus cfg m) w = Normal "online"%string <->
    200 <= status res <= 299) /\
   (outcome e (V2.checkStatus cfg m) w = Normal "offline"%string <->
    ~ 200 <= status res <= 299)).
Proof.
  intros Hres.
  assert (Hok : ok res = true <-> 200 <= status res <= 299).
  { unfold ok. rewrite andb_true_iff, !Z.leb_le. reflexivity. }
  split; intros Hurl; unfold outcome.
  - rewrite (V1_checkStatus_url e cfg m w Hurl). cbn [fst].
    change (V1.TIMEOUT_MS cfg) with (TIMEOUT_MS_of cfg). rewrite Hres.
    cbn [result_of_head]. destruct (ok res) eqn:E.
    + assert (R : 200 <= status res <= 299) by now apply Hok.
      split; split; intros H; auto; try discriminate; contradiction.
    + assert (R : ~ 200 <= status res <= 299)
        by (intros R; apply Hok in R; congruence).
      split; split; intros H; auto; try discriminate; contradiction.
  - rewrite (V2_checkStatus_url e cfg m w Hurl). cbn [fst].
    change (V2.TIMEOUT_MS cfg) with (TIMEOUT_MS_of cfg). rewrite Hres.
    cbn [result_of_head]. destruct (ok res) eqn:E.
    + assert (R : 200 <= status res <= 299) by now apply Hok.
      split; split; intros H; auto; try discriminate; contradiction.
    + assert (R : ~ 200 <= status res <= 299)
        by (intros R; apply Hok in R; congruence).
      split; split; intros H; auto; try discriminate; contradiction.
Qed.

(* ================================================================== *)
(** ** The change detector when the store fails *)

Section StoreFaults.
Variable e : Env.
Variable cfg : option Z.
Local Arguments String.append : simpl never.

(** The run of [handleMonitor] once the probe has found a new status. *)
Lemma V1_handleMonitor_changed_run m w st :
  outcome e (V1.checkStatus cfg m) w = Normal st ->
  lastStatus m <> Some st ->
  run e (V1.handleMonitor cfg m) w =
  match run e (V1.updateMonitorStatus m st) (after e (V1.checkStatus cfg m) w)
  with
  | (Normal _, w2) => (Normal tt, after e (V1.sendWebhook m st) w2)
  | (Abrupt x, w2) => (Normal tt, issued e (error_checking m x) w2)
  end.
Proof.
  intros Ho Hne. rewrite V1_handleMonitor_run.
  rewrite (outcome_after e (V1.checkStatus cfg m) w), Ho.
  apply strict_eq_false in Hne. now rewrite Hne.
Qed.

Lemma V1_updateMonitorStatus_create_rejected m st w x :
  store_fault e w (MonitorLog_create (ipOrUrl m) st) = Some x ->
  run e (V1.updateMonitorStatus m st) w =
  (Abrupt x, issued e (MonitorLog_create (ipOrUrl m) st) w).
Proof.
  intros H. unfold V1.updateMonitorStatus. unfold_awaits. cbn.
  unfold store_op. now rewrite H.
Qed.

Lemma V1_updateMonitorStatus_update_rejected m st w x :
  let created := after e (await_MonitorLog_create (ipOrUrl m) st) w in
  let update := monitor_update (id m) st (clock created) in
  store_fault e w (MonitorLog_create (ipOrUrl m) st) = None ->
  store_fault e (issued e Date_now created) update = Some x ->
  run e (V1.updateMonitorStatus m st) w =
  (Abrupt x, issued e update (issued e Date_now created)).
Proof.
  intros created update Hc Hu. unfold V1.updateMonitorStatus.
  unfold_awaits. subst created update. unfold after in *. cbn in *.
  unfold store_op in *. rewrite Hc in *. cbn in *. unfold store_op.
  now rewrite Hu.
Qed.
End StoreFaults.

(** X6. When the store rejects [MonitorLog.create], the run stops there:
    [monitor.update] is never called and no webhook is sent; both tables
    stay as they were, the error is logged by [handleMonitor] and the run
    completes normally. *)
Theorem V1_create_rejected_stops_the_run
  (e : Env) (cfg : option Z) (m : Monitor) (w : World)
  (st : string) (x : JsError) :
  outcome e (V1.checkStatus cfg m) w = Normal st ->
  lastStatus m <> Some st ->
  store_fault e (after e (V1.checkStatus cfg m) w)
    (MonitorLog_create (ipOrUrl m) st) = Some x ->
  let w' := after e (V1.handleMonitor cfg m) w in
  outcome e (V1.handleMonitor cfg m) w = Normal tt /\
  monitors w' = monitors w /\
  monitorLogs w' = monitorLogs w /\
  trace w' =
    trace (after e (V1.checkStatus cfg m) w) ++
    [MonitorLog_create (ipOrUrl m) st; error_checking m x].
Proof.
  intros Ho Hne Hf w'.
  assert (Hrun := V1_handleMonitor_changed_run e cfg m w st Ho Hne).
  rewrite (V1_updateMonitorStatus_create_rejected e m st _ x Hf) in Hrun.
  destruct (avoids_write_tables e _ w (V1_checkStatus_avoids_write cfg m))
    as [Hm Hl].
  unfold w', outcome, after at 1 2 3. rewrite Hrun. cbn [fst snd].
  split; [reflexivity | split; [exact Hm | split; [exact Hl | ]]].
  rewrite !trace_issued, <- app_assoc. reflexivity.
Qed.

(** X7. The two writes of [updateMonitorStatus] are not atomic.  When
    [MonitorLog.create] succeeds and [monitor.update] is rejected, the
    event row, stamped with the time at which [create] was called, stays
    in [MonitorLog] while the monitor keeps its old [lastStatus] and
    [lastChecked]; no webhook is sent and the error is logged. *)
Theorem V1_update_rejected_keeps_the_event
  (e : Env) (cfg : option Z) (m : Monitor) (w : World)
  (st : string) (x : JsError) :
  let w1 := after e (V1.checkStatus cfg m) w in
  let created := after e (await_MonitorLog_create (ipOrUrl m) st) w1 in
  outcome e (V1.checkStatus cfg m) w = Normal st ->
  lastStatus m <> Some st ->
  store_fault e w1 (MonitorLog_create (ipOrUrl m) st) = None ->
  store_fault e (issued e Date_now created)
    (monitor_update (id m) st (clock created)) = Some x ->
  let w' := after e (V1.handleMonitor cfg m) w in
  monitorLogs w' =
    monitorLogs w ++ [mkMonitorLog (ipOrUrl m) st (clock w1)] /\
  monitors w' = monitors w /\
  posts w' = posts w /\
  error_logs w' = error_logs w ++ [error_checking m x].
Proof.
  intros w1 created Ho Hne Hc Hu w'.
  assert (Hrun := V1_handleMonitor_changed_run e cfg m w st Ho Hne).
  fold w1 in Hrun.
  rewrite (V1_updateMonitorStatus_update_rejected e m st w1 x Hc Hu) in Hrun.
  fold created in Hrun.
  destruct (avoids_write_tables e _ w (V1_checkStatus_avoids_write cfg m))
    as [Hm Hl]. fold w1 in Hm, Hl.
  assert (Hp : posts w1 = posts w)
    by apply (avoids_filter is_post), V1_checkStatus_avoids_post.
  assert (He : error_logs w1 = error_logs w)
    by (apply (avoids_filter is_error_log); unfold V1.checkStatus; avoid).
  assert (Hcr : created =
                with_monitorLogs
                  (monitorLogs w1 ++ [mkMonitorLog (ipOrUrl m) st (clock w1)])
                  (issued e (MonitorLog_create (ipOrUrl m) st) w1)).
  { unfold created, after, await_MonitorLog_create. cbn. unfold store_op.
    now rewrite Hc. }
  assert (Hcl : monitorLogs created =
                monitorLogs w1 ++ [mkMonitorLog (ipOrUrl m) st (clock w1)])
    by (rewrite Hcr; reflexivity).
  assert (Hcm : monitors created = monitors w1) by (rewrite Hcr; reflexivity).
  assert (Hct : trace created =
                trace w1 ++ [MonitorLog_create (ipOrUrl m) st])
    by (rewrite Hcr; reflexivity).
  assert (Hw' : w' = issued e (error_checking m x)
                       (issued e (monitor_update (id m) st (clock created))
                          (issued e Date_now created)))
    by (unfold w', after; now rewrite Hrun).
  rewrite Hw'. cbn [issued monitorLogs monitors].
  split; [now rewrite Hcl, Hl | split; [now rewrite Hcm | split]].
  - unfold posts. rewrite !trace_issued, !filter_snoc_false by reflexivity.
    rewrite Hct, filter_snoc_false by reflexivity. exact Hp.
  - unfold error_logs. rewrite !trace_issued.
    rewrite filter_snoc_true by reflexivity.
    rewrite !filter_snoc_false by reflexivity.
    rewrite Hct, filter_snoc_false by reflexivity.
    unfold error_logs in He. now rewrite He.
Qed.

Lemma checkStatus_online_iff_2xx_witness :
  net_fetch Sample.up
    (issued Sample.up (setTimeout_abort (TIMEOUT_MS_of None)) Sample.w0)
    (ipOrUrl Sample.site) head_init = Fulfilled (mkResponse 200) /\
  V1.checkIpAddress (ipOrUrl Sample.site) = false /\
  200 <= status (mkResponse 200) <= 299 /\
  outcome Sample.up (V1.checkStatus None Sample.site) Sample.w0
    = Normal "online"%string.
Proof.
  split; [reflexivity | split; [reflexivity | ]].
  assert (R : 200 <= status (mkResponse 200) <= 299) by (cbn; lia).
  split; [exact R | ].
  apply (proj1 (checkStatus_online_iff_2xx Sample.up None Sample.site
                  Sample.w0 (mkResponse 200) eq_refl) eq_refl).
  exact R.
Defined.

Lemma V1_create_rejected_stops_the_run_witness :
  outcome Faulty.no_create (V1.checkStatus None Sample.dns) Sample.w0
    = Normal "online"%string /\
  lastStatus Sample.dns <> Some "online"%string /\
  store_fault Faulty.no_create
    (after Faulty.no_create (V1.checkStatus None Sample.dns) Sample.w0)
    (MonitorLog_create (ipOrUrl Sample.dns) "online") = Some Faulty.busy /\
  monitorLogs
    (after Faulty.no_create (V1.handleMonitor None Sample.dns) Sample.w0)
    = [] /\
  trace (after Faulty.no_create (V1.handleMonitor None Sample.dns) Sample.w0) =
    [ping_promise_probe "8.8.8.8" (Some (mkPingOptions (5000 # 1000)));
     MonitorLog_create "8.8.8.8" "online";
     error_checking Sample.dns Faulty.busy].
Proof.
  assert (Hne : lastStatus Sample.dns <> Some "online"%string)
    by discriminate.
  split; [reflexivity | split; [exact Hne | split; [reflexivity | ]]].
  destruct (V1_create_rejected_stops_the_run Faulty.no_create None Sample.dns
              Sample.w0 "online" Faulty.busy eq_refl Hne eq_refl)
    as (_ & _ & H1 & H2).
  split; [exact H1 | exact H2].
Defined.

Lemma V1_update_rejected_keeps_the_event_witness :
  outcome Faulty.no_update (V1.checkStatus None Sample.dns) Sample.w0
    = Normal "online"%string /\
  lastStatus Sample.dns <> Some "online"%string /\
  monitorLogs
    (after Faulty.no_update (V1.handleMonitor None Sample.dns) Sample.w0)
    = [mkMonitorLog "8.8.8.8" "online" 1700000000007] /\
  monitors
    (after Faulty.no_update (V1.handleMonitor None Sample.dns) Sample.w0)
    = [Sample.dns; Sample.site] /\
  posts (after Faulty.no_update (V1.handleMonitor None Sample.dns) Sample.w0)
    = [].
Proof.
  assert (Hne : lastStatus Sample.dns <> Some "online"%string)
    by discriminate.
  split; [reflexivity | split; [exact Hne | ]].
  destruct (V1_update_rejected_keeps_the_event Faulty.no_update None
              Sample.dns Sample.w0 "online" Faulty.busy eq_refl Hne eq_refl
              eq_refl) as (H1 & H2 & H3 & _).
  split; [exact H1 | split; [exact H2 | exact H3]].
Defined.

(* ================================================================== *)
(** ** Runs in sequence *)

(** What a run that finds a new status leaves in the two tables when
    the store performs its operations. *)
Lemma V1_handleMonitor_transition
  (e : Env) (cfg : option Z) (m : Monitor) (w : World) (st : string) :
  store_reliable e ->
  outcome e (V1.checkStatus cfg m) w = Normal st ->
  lastStatus m <> Some st ->
  let created := clock (after e (V1.checkStatus cfg m) w) in
  let now := clock (after e (await_MonitorLog_create (ipOrUrl m) st)
                      (after e (V1.checkStatus cfg m) w)) in
  let w' := after e (V1.handleMonitor cfg m) w in
  monitorLogs w' = monitorLogs w ++ [mkMonitorLog (ipOrUrl m) st created] /\
  monitors w' = map (set_status (id m) st now) (monitors w).
Proof.
  intros Hs Ho Hne created now w'.
  assert (Hrun := V1_handleMonitor_changed_run e cfg m w st Ho Hne).
  destruct (V1_updateMonitorStatus_run e m st
              (after e (V1.checkStatus cfg m) w) Hs) as (Hu & Hul & Hum).
  rewrite (outcome_after e (V1.updateMonitorStatus m st)), Hu in Hrun.
  destruct (avoids_write_tables e _ w (V1_checkStatus_avoids_write cfg m))
    as [Hm Hl].
  destruct (avoids_write_tables e (V1.sendWebhook m st)
              (after e (V1.updateMonitorStatus m st)
                 (after e (V1.checkStatus cfg m) w))
              (V1_sendWebhook_avoids_write m st)) as [Hsm Hsl].
  assert (Hw' : w' = after e (V1.sendWebhook m st)
            (after e (V1.updateMonitorStatus m st)
               (after e (V1.checkStatus cfg m) w))).
  { unfold w'. unfold after at 1. now rewrite Hrun. }
  rewrite Hw', Hsl, Hul, Hl, Hsm, Hum, Hm. auto.
Qed.

(** X8. Idempotence.  After a run that recorded a transition to [st],
    a further run on the row of that monitor as the table now holds it,
    whose probe gives [st] again, records nothing: no event row, no
    change to any monitor (so [lastChecked] is not advanced), no
    webhook. *)
Theorem V1_second_run_same_status_adds_nothing
  (e : Env) (cfg : option Z) (m : Monitor) (w : World) (st : string)
  (r : Monitor) :
  store_reliable e ->
  outcome e (V1.checkStatus cfg m) w = Normal st ->
  lastStatus m <> Some st ->
  let w1 := after e (V1.handleMonitor cfg m) w in
  In r (monitors w1) -> id r = id m ->
  outcome e (V1.checkStatus cfg r) w1 = Normal st ->
  let w2 := after e (V1.handleMonitor cfg r) w1 in
  monitorLogs w2 = monitorLogs w1 /\
  monitors w2 = monitors w1 /\
  posts w2 = posts w1.
Proof.
  intros Hs Ho Hne w1 Hin Hid Ho2 w2.
  destruct (V1_handleMonitor_transition e cfg m w st Hs Ho Hne) as [_ Hm].
  fold w1 in Hm. rewrite Hm in Hin. apply in_map_iff in Hin.
  destruct Hin as (r0 & <- & _).
  destruct (set_status_hit _ _ _ _ Hid) as [Hst _].
  unfold w2. rewrite (V1_handleMonitor_same_status e cfg _ w1 st Ho2 Hst).
  destruct (avoids_write_tables e _ w1
              (V1_checkStatus_avoids_write cfg
                 (set_status (id m) st
                    (clock (after e (await_MonitorLog_create (ipOrUrl m) st)
                              (after e (V1.checkStatus cfg m) w))) r0)))
    as [H1 H2].
  split; [exact H2 | split; [exact H1 | ]].
  apply (avoids_filter is_post), V1_checkStatus_avoids_post.
Qed.

Lemma V1_second_run_same_status_adds_nothing_witness :
  store_reliable Sample.up /\
  outcome Sample.up (V1.checkStatus None Sample.dns) Sample.w0
    = Normal "online"%string /\
  length
    (monitorLogs
       (after Sample.up
          (V1.handleMonitor None
             (mkMonitor 1 "8.8.8.8" (Some "online"%string)
                (Some 1700000000014) (Some "http://hook.test/up"%string)))
          (after Sample.up (V1.handleMonitor None Sample.dns) Sample.w0)))
  = 1%nat /\
  length
    (posts
       (after Sample.up
          (V1.handleMonitor None
             (mkMonitor 1 "8.8.8.8" (Some "online"%string)
                (Some 1700000000014) (Some "http://hook.test/up"%string)))
          (after Sample.up (V1.handleMonitor None Sample.dns) Sample.w0)))
  = 1%nat.
Proof.
  assert (Hs : store_reliable Sample.up) by (intros w c; reflexivity).
  split; [exact Hs | split; [reflexivity | ]].
  destruct (V1_second_run_same_status_adds_nothing Sample.up None Sample.dns
              Sample.w0 "online"
              (mkMonitor 1 "8.8.8.8" (Some "online"%string)
                 (Some 1700000000014) (Some "http://hook.test/up"%string))
              Hs eq_refl ltac:(discriminate) (or_introl eq_refl) eq_refl
              eq_refl) as (H1 & _ & H2).
  split; [now rewrite H1 | now rewrite H2].
Defined.

Lemma V1_transition_posts_once_witness :
  store_reliable Sample.up /\
  outcome Sample.up (V1.checkStatus None Sample.dns) Sample.w0
    = Normal "online"%string /\
  posts (after Sample.up (V1.handleMonitor None Sample.dns) Sample.w0) =
  [fetch "http://hook.test/up" (webhook_init "online" 1700000000021)].
Proof.
  assert (Hs : store_reliable Sample.up) by (intros w c; reflexivity).
  split; [exact Hs | split; [reflexivity | ]].
  exact (V1_transition_posts_once Sample.up None Sample.dns Sample.w0
           "online" Hs eq_refl ltac:(discriminate)).
Defined.

Lemma V2_handleMonitor_same_status_witness :
  outcome Sample.up (V2.checkStatus None Sample.site) Sample.w0
    = Normal "online"%string /\
  monitorLogs (after Sample.up (V2.handleMonitor None Sample.site) Sample.w0)
    = [] /\
  posts (after Sample.up (V2.handleMonitor None Sample.site) Sample.w0) = [].
Proof.
  split; [reflexivity | ].
  destruct (V2_handleMonitor_same_status Sample.up None Sample.site Sample.w0
              "online" eq_refl eq_refl) as (_ & H1 & _ & _ & H2).
  split; [exact H1 | exact H2].
Defined.

(* ================================================================== *)
(** ** The second variant of the change detector and of the notifier *)

(** The tables after [updateMonitorStatus] of the second variant are
    those after the first variant's. *)
Lemma V2_updateMonitorStatus_after e m st w :
  after e (V2.updateMonitorStatus m st) w =
  after e (V1.updateMonitorStatus m st) w.
Proof.
  unfold after at 1. rewrite V2_updateMonitorStatus_run.
  rewrite (outcome_after e (V1.updateMonitorStatus m st)).
  now destruct (outcome e (V1.updateMonitorStatus m st) w).
Qed.

(** The world in which the second variant compares the statuses: the
    probe has ended and the two lines are on the console. *)
Lemma V2_compared_world e cfg m w st :
  let w2 :=
    issued e (console_log [VStr "Last Status:"; V2.js_string (lastStatus m)])
      (issued e (console_log [VStr "Status:"; VStr st])
         (after e (V2.checkStatus cfg m) w)) in
  monitors w2 = monitors w /\ monitorLogs w2 = monitorLogs w /\
  clock w2 = clock (after e (V2.checkStatus cfg m) w).
Proof.
  destruct (avoids_write_tables e _ w (V2_checkStatus_avoids_write cfg m))
    as [Hm Hl].
  cbn. auto.
Qed.

(** The tables after a run of the second variant that found a new
    status are those [updateMonitorStatus] left. *)
Lemma V2_handleMonitor_changed_tables e cfg m w st :
  outcome e (V2.checkStatus cfg m) w = Normal st ->
  lastStatus m <> Some st ->
  let w2 :=
    issued e (console_log [VStr "Last Status:"; V2.js_string (lastStatus m)])
      (issued e (console_log [VStr "Status:"; VStr st])
         (after e (V2.checkStatus cfg m) w)) in
  let w3 := after e (V1.updateMonitorStatus m st) w2 in
  let w' := after e (V2.handleMonitor cfg m) w in
  monitorLogs w' = monitorLogs w3 /\ monitors w' = monitors w3.
Proof.
  intros Ho Hne w2 w3 w'.
  assert (Hrun := V2_handleMonitor_run e cfg m w).
  rewrite (outcome_after e (V2.checkStatus cfg m) w), Ho in Hrun.
  cbv zeta in Hrun. apply strict_eq_false in Hne. rewrite Hne in Hrun.
  fold w2 in Hrun.
  rewrite (outcome_after e (V2.updateMonitorStatus m st)) in Hrun.
  rewrite V2_updateMonitorStatus_after in Hrun. fold w3 in Hrun.
  unfold w', after at 1 2. rewrite Hrun.
  destruct (outcome e (V2.updateMonitorStatus m st) w2) as [m' | x];
    cbn [snd]; [ | auto].
  destruct (avoids_write_tables e (V2.sendWebhook m' st) w3
              (V2_sendWebhook_avoids_write m' st)) as [Hsm Hsl].
  auto.
Qed.

(** X10. The second variant of [handleMonitor] detects changes like the
    first.  Whatever the store does, a run adds to [MonitorLog] nothing
    or exactly one row, and a row only for a probed status that differs
    from the stored [lastStatus]; the row is stamped with the time at
    which the probe had ended.  With a store that performs its
    operations a row is added if and only if the probed status differs,
    and the row of the monitor gets the new [lastStatus] and, as
    [lastChecked], the time at which the INSERT had completed. *)
Theorem V2_event_iff_status_changed
  (e : Env) (cfg : option Z) (m : Monitor) (w : World) :
  let probe := V2.checkStatus cfg m in
  let w' := after e (V2.handleMonitor cfg m) w in
  (monitorLogs w' = monitorLogs w \/
   exists st,
     outcome e probe w = Normal st /\ lastStatus m <> Some st /\
     monitorLogs w' =
     monitorLogs w ++ [mkMonitorLog (ipOrUrl m) st (clock (after e probe w))]) /\
  (store_reliable e ->
   (monitorLogs w' <> monitorLogs w <->
      exists st, outcome e probe w = Normal st /\ lastStatus m <> Some st) /\
   (forall st,
      outcome e probe w = Normal st -> lastStatus m <> Some st ->
      let w2 :=
        issued e
          (console_log [VStr "Last Status:"; V2.js_string (lastStatus m)])
          (issued e (console_log [VStr "Status:"; VStr st])
             (after e probe w)) in
      let created := clock (after e probe w) in
      let now :=
        created + latency e w2 (MonitorLog_create (ipOrUrl m) st) in
      monitorLogs w' =
        monitorLogs w ++ [mkMonitorLog (ipOrUrl m) st created] /\
      monitors w' = map (set_status (id m) st now) (monitors w) /\
      forall r, In r (monitors w') -> id r = id m ->
                lastStatus r = Some st /\ lastChecked r = Some now)).
Proof.
  intros probe w'.
  destruct (avoids_write_tables e probe w (V2_checkStatus_avoids_write cfg m))
    as [Hm Hl].
  assert (Hrun := V2_handleMonitor_run e cfg m w).
  rewrite (outcome_after e (V2.checkStatus cfg m) w) in Hrun.
  fold probe in Hrun.
  assert (Hsame : forall st,
    outcome e probe w = Normal st -> lastStatus m = Some st ->
    monitorLogs w' = monitorLogs w).
  { intros st Ho Heq. rewrite Ho in Hrun. cbv zeta in Hrun.
    apply strict_eq_true in Heq. rewrite Heq in Hrun.
    unfold w', after. rewrite Hrun. exact Hl. }
  assert (Hlogs :
    monitorLogs w' = monitorLogs w \/
    exists st,
      outcome e probe w = Normal st /\ lastStatus m <> Some st /\
      monitorLogs w' =
      monitorLogs w ++ [mkMonitorLog (ipOrUrl m) st (clock (after e probe w))]).
  { destruct (outcome e probe w) as [st | x] eqn:Ho.
    - destruct (strict_eq st (lastStatus m)) eqn:Heq.
      + left. apply (Hsame st eq_refl). now apply strict_eq_true.
      + apply strict_eq_false in Heq.
        destruct (V2_handleMonitor_changed_tables e cfg m w st Ho Heq)
          as [Hl' _].
        destruct (V2_compared_world e cfg m w st) as (_ & Hl2 & Hc2).
        fold w' in Hl'. rewrite Hl'.
        destruct (V1_updateMonitorStatus_logs e m st
                    (issued e
                       (console_log
                          [VStr "Last Status:"; V2.js_string (lastStatus m)])
                       (issued e (console_log [VStr "Status:"; VStr st])
                          (after e (V2.checkStatus cfg m) w))))
          as [-> | ->].
        * left. exact Hl2.
        * right. exists st. rewrite Hl2, Hc2. auto.
    - left. unfold w', after. now rewrite Hrun. }
  split; [exact Hlogs | ]. intros Hs.
  assert (Hchanged : forall st,
    outcome e probe w = Normal st -> lastStatus m <> Some st ->
    let w2 :=
      issued e
        (console_log [VStr "Last Status:"; V2.js_string (lastStatus m)])
        (issued e (console_log [VStr "Status:"; VStr st])
           (after e probe w)) in
    let created := clock (after e probe w) in
    let now := created + latency e w2 (MonitorLog_create (ipOrUrl m) st) in
    monitorLogs w' = monitorLogs w ++ [mkMonitorLog (ipOrUrl m) st created] /\
    monitors w' = map (set_status (id m) st now) (monitors w)).
  { intros st Ho Hne w2 created now.
    destruct (V2_handleMonitor_changed_tables e cfg m w st Ho Hne)
      as [Hl' Hm'].
    destruct (V2_compared_world e cfg m w st) as (Hm2 & Hl2 & Hc2).
    fold w' in Hl', Hm'. fold probe w2 in Hl', Hm', Hm2, Hl2, Hc2.
    destruct (V1_updateMonitorStatus_run e m st w2 Hs) as (_ & Hul & Hum).
    assert (Hnow : clock (after e (await_MonitorLog_create (ipOrUrl m) st) w2)
                   = now).
    { unfold after, await_MonitorLog_create. cbn.
      rewrite (store_op_reliable e) by assumption. reflexivity. }
    rewrite Hl', Hm', Hul, Hum, Hl2, Hm2, Hc2, Hnow. auto. }
  split.
  - split.
    + intros Hneq. destruct Hlogs as [H | (st & Ho & Hne & _)];
        [contradiction | eauto].
    + intros (st & Ho & Hne). destruct (Hchanged st Ho Hne) as [-> _].
      apply snoc_neq.
  - intros st Ho Hne w2 created now.
    destruct (Hchanged st Ho Hne) as [H1 H2].
    split; [exact H1 | split; [exact H2 | ]].
    intros r Hin Hid. rewrite H2 in Hin. apply in_map_iff in Hin.
    destruct Hin as (r0 & <- & _). now apply set_status_hit.
Qed.

Lemma V2_event_iff_status_changed_witness :
  store_reliable Sample.up /\
  monitorLogs (after Sample.up (V2.handleMonitor None Sample.dns) Sample.w0) =
  [mkMonitorLog "8.8.8.8" "online" 1700000000007] /\
  monitors (after Sample.up (V2.handleMonitor None Sample.dns) Sample.w0) =
  [mkMonitor 1 "8.8.8.8" (Some "online"%string) (Some 1700000000014)
     (Some "http://hook.test/up"%string); Sample.site].
Proof.
  assert (Hs : store_reliable Sample.up) by (intros w c; reflexivity).
  split; [exact Hs | ].
  destruct (V2_event_iff_status_changed Sample.up None Sample.dns Sample.w0)
    as [_ H].
  destruct (H Hs) as [_ H'].
  destruct (H' "online"%string eq_refl ltac:(discriminate)) as (H1 & H2 & _).
  split; [exact H1 | exact H2].
Defined.

(** X11. [sendWebhook] of the second variant first prints the monitor on
    the console.  Without a webhook URL that line is all it does; with
    one it then makes exactly one POST, to that URL, with the status and
    the clock in whole seconds as body. *)
Theorem V2_one_post_iff_webhook_set
  (e : Env) (m : Monitor) (st : string) (w : World) :
  (webhookUrl m = None \/ webhookUrl m = Some ""%string ->
   run e (V2.sendWebhook m st) w =
   (Normal tt, issued e (console_log [VStr "Webhook:"; VMonitor m]) w)) /\
  (forall url, webhookUrl m = Some url -> url <> ""%string ->
   outcome e (V2.sendWebhook m st) w = Normal tt /\
   posts (after e (V2.sendWebhook m st) w) =
   posts w ++
   [fetch url
      (mkFetchInit POST [("Content-Type", "application/json")%string]
         (Some [("monitor_status"%string, JStr st);
                ("timestamp"%string, JNum (clock w / 1000))])
         false)]).
Proof.
  split.
  - intros H. unfold V2.sendWebhook. destruct H as [-> | ->]; reflexivity.
  - intros url Hu Hne. split; [apply V2_sendWebhook_normal | ].
    unfold after.
    rewrite (V2_sendWebhook_run e m st w url)
      by (rewrite Hu; now apply truthy_set).
    cbn [snd]. unfold posts. rewrite !trace_issued.
    rewrite filter_snoc_false
      by (destruct (net_fetch e _ _ _); reflexivity).
    rewrite filter_snoc_true by reflexivity.
    rewrite !filter_snoc_false by reflexivity. reflexivity.
Qed.

Lemma V2_one_post_iff_webhook_set_witness :
  posts (after Sample.up (V2.sendWebhook Sample.site "offline") Sample.w0)
    = [] /\
  posts (after Sample.down (V2.sendWebhook Sample.dns "online") Sample.w0) =
  [fetch "http://hook.test/up" (webhook_init "online" 1700000000000)].
Proof.
  split.
  - unfold after.
    now rewrite (proj1 (V2_one_post_iff_webhook_set Sample.up Sample.site
                          "offline" Sample.w0) (or_introl eq_refl)).
  - apply (proj2 (V2_one_post_iff_webhook_set Sample.down Sample.dns "online"
                    Sample.w0) "http://hook.test/up"%string eq_refl).
    discriminate.
Defined.

(* ================================================================== *)
(** ** Invariants kept by every schedule *)

Section Invariants.
Variable e : Env.
Variable job : Job.
Variable Inv : World -> Prop.
Hypothesis handle_Inv : forall c w, Inv w -> Inv (snd (handle e c w)).

Lemma advance_Inv {A : Type} (p : Prog A) : forall w,
  Inv w -> Inv (snd (advance e p w)).
Proof.
  induction p as [a | x | c k IH]; intros w Hw; cbn; auto.
  destruct (is_async c); [exact Hw | ].
  pose proof (handle_Inv c w Hw) as Hh.
  destruct (handle e c w) as [r w1]. now apply IH.
Qed.

Lemma resume_Inv {A : Type} (p : Prog A) w :
  Inv w -> Inv (snd (resume e p w)).
Proof.
  destruct p as [a | x | c k]; intros Hw; cbn; auto.
  pose proof (handle_Inv c w Hw) as Hh.
  destruct (handle e c w) as [r w1]. now apply advance_Inv.
Qed.

Lemma fan_out_Inv n ms : forall w,
  Inv w -> Inv (snd (fan_out e job n ms w)).
Proof.
  induction ms as [| m ms IH]; intros w Hw; cbn; [exact Hw | ].
  pose proof (advance_Inv (pipeline job m) w Hw) as H1.
  destruct (advance e (pipeline job m) w) as [p w1].
  specialize (IH w1 H1). now destruct (fan_out e job n ms w1).
Qed.

Lemma finding_task_Inv n p w :
  Inv w -> Inv (snd (finding_task e job n p w)).
Proof. destruct p; cbn; auto. apply fan_out_Inv. Qed.

Lemma step_Inv a s : Inv (world s) -> Inv (world (step e job a s)).
Proof.
  intros Hs. destruct a as [| i]; cbn.
  - pose proof (advance_Inv (snapshot job) (world s) Hs) as H1.
    destruct (advance e (snapshot job) (world s)) as [p w1].
    pose proof (finding_task_Inv (fired s) p w1 H1) as H2.
    now destruct (finding_task e job (fired s) p w1).
  - destruct (nth_error (tasks s) i) as [[n p | n p] |]; [ | | exact Hs].
    + pose proof (resume_Inv p (world s) Hs) as H1.
      destruct (resume e p (world s)) as [p' w1].
      pose proof (finding_task_Inv n p' w1 H1) as H2.
      now destruct (finding_task e job n p' w1).
    + pose proof (resume_Inv p (world s) Hs) as H1.
      now destruct (resume e p (world s)).
Qed.

Lemma exec_Inv schedule : forall s,
  Inv (world s) -> Inv (world (exec e job schedule s)).
Proof.
  unfold exec. induction schedule as [| a rest IH]; intros s Hs; cbn; auto.
  apply IH, step_Inv, Hs.
Qed.

Lemma run_Inv {A : Type} (p : Prog A) : forall w,
  Inv w -> Inv (after e p w).
Proof.
  unfold after. induction p as [a | x | c k IH]; intros w Hw; cbn; auto.
  pose proof (handle_Inv c w Hw) as Hh.
  destruct (handle e c w) as [r w1]. now apply IH.
Qed.
End Invariants.

Lemma map_set_status_targets key st now ms :
  map id (map (set_status key st now) ms) = map id ms /\
  map ipOrUrl (map (set_status key st now) ms) = map ipOrUrl ms /\
  map webhookUrl (map (set_status key st now) ms) = map webhookUrl ms.
Proof.
  rewrite !map_map. repeat split; apply map_ext; intros r;
    unfold set_status; destruct (id r =? key); reflexivity.
Qed.

Lemma handle_same_targets e w0 c w :
  same_targets w0 w -> same_targets w0 (snd (handle e c w)).
Proof.
  intros H. destruct c; cbn; auto; unfold store_op;
    match goal with |- context [store_fault ?e ?w ?c] =>
      destruct (store_fault e w c) end; cbn; auto.
  destruct H as (H1 & H2 & H3).
  destruct (map_set_status_targets key st checked (monitors w))
    as (E1 & E2 & E3).
  unfold same_targets; cbn. rewrite E1, E2, E3. auto.
Qed.

(** X12. The engine never adds or removes a monitor and never changes a
    key, an address or a webhook URL: whatever the network and the store
    do, and however the ticks of the scheduler overlap, the monitors
    after any schedule are the same targets as before.  The same holds
    for a single run of [handleMonitor], in both variants. *)
Theorem engine_keeps_targets
  (e : Env) (cfg : option Z) (schedule : list Action) (s : Sys) (m : Monitor) :
  same_targets (world s)
    (world (exec e (V1.checkMonitors cfg) schedule s)) /\
  same_targets (world s)
    (world (exec e (V2.checkMonitors cfg) schedule s)) /\
  same_targets (world s) (after e (V1.handleMonitor cfg m) (world s)) /\
  same_targets (world s) (after e (V2.handleMonitor cfg m) (world s)).
Proof.
  assert (H0 : same_targets (world s) (world s)) by (repeat split).
  repeat split;
    first [ apply (exec_Inv e _ (same_targets (world s))
                     (handle_same_targets e (world s)) schedule s H0)
          | apply (run_Inv e (same_targets (world s))
                     (handle_same_targets e (world s)) _ _ H0) ].
Qed.

(* ================================================================== *)
(** ** Ticks with nothing to do *)

(** X14. A tick over an empty [Monitor] table, and a tick whose
    [Monitor.findAll] is rejected, start no pipeline: once the snapshot
    has settled nothing is pending, and the only call made is the
    [findAll] itself.  No probe is sent and neither table changes. *)
Theorem V1_tick_without_snapshot
  (e : Env) (cfg : option Z) (w : World) :
  (store_fault e w Monitor_findAll = None /\ monitors w = [] \/
   exists x, store_fault e w Monitor_findAll = Some x) ->
  exec e (V1.checkMonitors cfg) [Fire; Resume 0] (boot w) =
  mkSys (issued e Monitor_findAll w) [] 1 /\
  tick_joined 0 (exec e (V1.checkMonitors cfg) [Fire; Resume 0] (boot w)).
Proof.
  intros H.
  assert (E : exec e (V1.checkMonitors cfg) [Fire; Resume 0] (boot w) =
              mkSys (issued e Monitor_findAll w) [] 1).
  { unfold exec, boot. cbn. unfold store_op.
    destruct H as [[Hf Hm] | [x Hf]]; rewrite Hf; cbn; [ | reflexivity].
    now rewrite Hm. }
  split; [exact E | ]. rewrite E. split; [cbn; lia | intros t []].
Qed.

Lemma V1_tick_without_snapshot_witness :
  store_fault Faulty.no_findAll Sample.w0 Monitor_findAll = Some Faulty.busy /\
  tasks (exec Faulty.no_findAll (V1.checkMonitors None) [Fire; Resume 0]
           (boot Sample.w0)) = [] /\
  trace (world (exec Faulty.no_findAll (V1.checkMonitors None)
                  [Fire; Resume 0] (boot Sample.w0))) = [Monitor_findAll].
Proof.
  split; [reflexivity | ].
  destruct (V1_tick_without_snapshot Faulty.no_findAll None Sample.w0
              (or_intror (ex_intro _ Faulty.busy eq_refl))) as [E _].
  rewrite E. split; reflexivity.
Defined.

(* ================================================================== *)
(** ** Every tick ends *)

Section Termination.
Variable e : Env.

Lemma finishes_within_le {A : Type} (p : Prog A) n n' :
  (n <= n')%nat -> finishes_within n p -> finishes_within n' p.
Proof.
  intros Hle H. revert n' Hle.
  induction H as [n a | n x | n c k Hc Hk IH | n c k Hc Hk IH];
    intros n' Hle.
  - constructor.
  - constructor.
  - apply within_sync; auto.
  - destruct n' as [| n']; [lia | ].
    apply within_async; auto. intros r. apply IH. lia.
Qed.

Lemma finishes_within_bind {A B : Type} (p : Prog A) (f : A -> Prog B) a b :
  finishes_within a p -> (forall x, finishes_within b (f x)) ->
  finishes_within (a + b) (bind p f).
Proof.
  intros H Hf.
  induction H as [n x | n x | n c k Hc Hk IH | n c k Hc Hk IH]; cbn.
  - apply finishes_within_le with (n := b); [lia | apply Hf].
  - constructor.
  - apply within_sync; auto.
  - apply within_async; auto.
Qed.

Lemma finishes_within_try_catch {A : Type} (p : Prog A) h a b :
  finishes_within a p -> (forall x, finishes_within b (h x)) ->
  finishes_within (a + b) (try_catch p h).
Proof.
  intros H Hh.
  induction H as [n x | n x | n c k Hc Hk IH | n c k Hc Hk IH]; cbn.
  - constructor.
  - apply finishes_within_le with (n := b); [lia | apply Hh].
  - apply within_sync; auto.
  - apply within_async; auto.
Qed.

Lemma finishes_within_settle {A : Type} (r : Settled A) n :
  finishes_within n (settle r).
Proof. destruct r; constructor. Qed.

(** One await each: the probe, the create, the update, the POST. *)
Lemma V1_checkStatus_within cfg m : finishes_within 1 (V1.checkStatus cfg m).
Proof.
  unfold V1.checkStatus. unfold_awaits.
  destruct (V1.checkIpAddress (ipOrUrl m)); cbn.
  - apply within_async; [reflexivity | ].
    intros [res | x]; cbn; constructor.
  - apply within_sync; [reflexivity | ]. intros ?.
    apply within_async; [reflexivity | ]. intros [res | x]; cbn.
    + apply within_sync; [reflexivity | ]. intros ?. constructor.
    + apply within_sync; [reflexivity | ]. intros ?.
      destruct (err_name x =? "AbortError")%string; constructor.
Qed.

Lemma V1_updateMonitorStatus_within m st :
  finishes_within 2 (V1.updateMonitorStatus m st).
Proof.
  unfold V1.updateMonitorStatus. unfold_awaits. cbn.
  apply within_async; [reflexivity | ]. intros [[] | x]; cbn; [ | constructor].
  apply within_sync; [reflexivity | ]. intros now.
  apply within_async; [reflexivity | ]. intros [[] | x]; cbn; [ | constructor].
  apply within_sync; [reflexivity | ]. intros ?. constructor.
Qed.

Lemma V1_sendWebhook_within m st : finishes_within 1 (V1.sendWebhook m st).
Proof.
  unfold V1.sendWebhook. unfold_awaits.
  destruct (truthy (webhookUrl m)) as [url |]; cbn; [ | constructor].
  apply within_sync; [reflexivity | ]. intros now.
  apply within_async; [reflexivity | ]. intros [res | x]; cbn;
    (apply within_sync; [reflexivity | ]; intros ?; constructor).
Qed.

Lemma V1_handleMonitor_within cfg m :
  finishes_within 4 (V1.handleMonitor cfg m).
Proof.
  unfold V1.handleMonitor.
  apply (finishes_within_try_catch _ _ 4 0).
  - apply (finishes_within_bind _ _ 1 3); [apply V1_checkStatus_within | ].
    intros st. destruct (negb (strict_eq st (lastStatus m))); [ | constructor].
    apply (finishes_within_bind _ _ 2 1);
      [apply V1_updateMonitorStatus_within | ].
    intros ?. apply V1_sendWebhook_within.
  - intros x. apply within_sync; [reflexivity | ]. intros ?. constructor.
Qed.

(** Running on to the next await uses up none of the bound. *)
Lemma advance_within {A : Type} (p : Prog A) n : forall w,
  finishes_within n p ->
  finishes_within n (fst (advance e p w)) /\ at_await (fst (advance e p w)).
Proof.
  intros w H. revert w.
  induction H as [n a | n x | n c k Hc Hk IH | n c k Hc Hk IH]; intros w; cbn.
  - split; [constructor | exact I].
  - split; [constructor | exact I].
  - rewrite Hc. destruct (handle e c w) as [r w1]. apply IH.
  - rewrite Hc. cbn. split; [now apply within_async | exact Hc].
Qed.

(** Answering the awaited call uses up one. *)
Lemma resume_within {A : Type} (p : Prog A) n w :
  at_await p -> finishes_within n p ->
  suspended p = true ->
  exists k, n = S k /\
            finishes_within k (fst (resume e p w)) /\
            at_await (fst (resume e p w)).
Proof.
  intros Ha H Hs. destruct H as [n a | n x | n c k Hc Hk | n c k Hc Hk];
    cbn in Hs; try discriminate.
  - cbn in Ha. congruence.
  - exists n. split; [reflexivity | ]. cbn.
    destruct (handle e c w) as [r w1]. now apply advance_within.
Qed.
End Termination.

Section Drain.
Variable e : Env.
Variable job : Job.

Lemma within_budget_le ts b b' :
  (b <= b')%nat -> within_budget ts b -> within_budget ts b'.
Proof.
  intros Hle H. revert b' Hle.
  induction H as [b | n p k ts b Hs Ha Hk Hts IH]; intros b' Hle.
  - constructor.
  - replace b' with (k + (b' - k))%nat by lia.
    apply budget_cons; auto. apply IH. lia.
Qed.

Lemma within_budget_task ts b n (p : Prog unit) k :
  within_budget ts b -> at_await p -> finishes_within k p ->
  within_budget (ts ++ pipeline_task n p) (b + k).
Proof.
  intros Hts Ha Hk.
  induction Hts as [b | n0 p0 k0 ts b Hs0 Ha0 Hk0 Hts IH]; cbn.
  - destruct p as [a | x | c k1]; cbn; [constructor | constructor | ].
    replace (b + k)%nat with (k + b)%nat by lia.
    apply budget_cons; auto. constructor.
  - replace (k0 + b + k)%nat with (k0 + (b + k))%nat by lia.
    constructor; auto.
Qed.

(** Completions alone, one for each call still awaited, end every
    pending pipeline, and they start no tick. *)
Lemma drain b : forall ts w f,
  within_budget ts b ->
  tasks (exec e job (repeat (Resume 0) b) (mkSys w ts f)) = [] /\
  fired (exec e job (repeat (Resume 0) b) (mkSys w ts f)) = f.
Proof.
  unfold exec. induction b as [| b IH]; intros ts w f H; cbn [repeat fold_left].
  - inversion H as [b0 | n p k ts' b0 Hs Ha Hk Hts Hn Hb]; subst; [auto | ].
    assert (k = 0%nat) by lia. subst k.
    inversion Hk; subst; cbn in Hs, Ha; try discriminate; congruence.
  - inversion H as [b0 | n p k ts' b0 Hs Ha Hk Hts Hn Hb]; subst.
    + cbn [step nth_error tasks]. apply IH. constructor.
    + cbn [step nth_error tasks world fired].
      destruct (resume_within e p k w Ha Hk Hs) as (k' & -> & Hk' & Ha').
      destruct (resume e p w) as [p' w1]. cbn [fst] in *.
      change (remove_nth 0 (Pipeline n p :: ts')) with ts'.
      apply IH.
      apply within_budget_le with (b := (b0 + k')%nat); [lia | ].
      now apply within_budget_task.
Qed.
End Drain.

Lemma fan_out_budget e job k n ms :
  (forall m, finishes_within k (pipeline job m)) ->
  forall w, within_budget (fst (fan_out e job n ms w)) (k * length ms).
Proof.
  intros Hjob.
  induction ms as [| m ms IH]; intros w; cbn [fan_out]; [constructor | ].
  destruct (advance_within e (pipeline job m) k w (Hjob m)) as [Hk Ha].
  destruct (advance e (pipeline job m) w) as [p w1]. cbn [fst] in *.
  specialize (IH w1).
  destruct (fan_out e job n ms w1) as [ts w2].
  cbn [fst] in *.
  destruct p as [a | x | c k0]; cbn [pipeline_task app].
  - apply within_budget_le with (b := (k * length ms)%nat);
      [cbn [length]; nia | auto].
  - apply within_budget_le with (b := (k * length ms)%nat);
      [cbn [length]; nia | auto].
  - replace (k * length (m :: ms))%nat with (k + k * length ms)%nat
      by (cbn [length]; nia).
    apply budget_cons; auto.
Qed.

(** X15. Every tick ends.  A run of [handleMonitor] awaits at most four
    calls (the probe, the create, the update, the POST), so a tick over
    [n] monitors is complete after the snapshot and at most [4 * n]
    further completions, whatever the network and the store answer: no
    answer makes a pipeline wait for a fifth call or loop. *)
Theorem V1_tick_completes
  (e : Env) (cfg : option Z) (w : World) :
  let s := exec e (V1.checkMonitors cfg)
             (Fire :: repeat (Resume 0) (1 + 4 * length (monitors w)))
             (boot w) in
  tasks s = [] /\ tick_joined 0 s.
Proof.
  intros s.
  assert (H : tasks s = [] /\ fired s = 1%nat).
  { unfold s, exec, boot. cbn [repeat Nat.add fold_left].
    change (step e (V1.checkMonitors cfg) Fire (mkSys w [] 0))
      with (mkSys w [Finding 0 await_Monitor_findAll] 1).
    cbn [step nth_error tasks world fired resume await_Monitor_findAll].
    destruct (handle e Monitor_findAll w) as [[ms | x] w1] eqn:Hh.
    - assert (Hms : ms = monitors w).
      { cbn in Hh. unfold store_op in Hh.
        destruct (store_fault e w Monitor_findAll); congruence. }
      subst ms. cbn [advance settle finding_task].
      pose proof (fan_out_budget e (V1.checkMonitors cfg) 4 0 (monitors w)
                    (V1_handleMonitor_within cfg) w1) as Hb.
      destruct (fan_out e (V1.checkMonitors cfg) 0 (monitors w) w1)
        as [ts w2]. cbn [fst] in Hb.
      change (remove_nth 0 [Finding 0 (Vis Monitor_findAll settle)] ++ ts)
        with ts.
      apply (drain e (V1.checkMonitors cfg) _ ts w2 1 Hb).
    - cbn [advance settle finding_task].
      change (remove_nth 0 [Finding 0 (Vis Monitor_findAll settle)] ++ [])
        with (@nil Task).
      apply (drain e (V1.checkMonitors cfg) _ [] w1 1). constructor. }
  destruct H as [Ht Hf]. split; [exact Ht | ].
  split; [rewrite Hf; lia | rewrite Ht; intros t []].
Qed.

(* ================================================================== *)
(** ** The routes *)

Section Tables.

Lemma with_monitors_same w : with_monitors (monitors w) w = w.
Proof. now destruct w. Qed.

Lemma has_address_true ip r : has_address ip r = true <-> ipOrUrl r = ip.
Proof. unfold has_address. apply String.eqb_eq. Qed.

Lemma find_address_Some ip ms m :
  find (has_address ip) ms = Some m -> In m ms /\ ipOrUrl m = ip.
Proof.
  intros H. apply find_some in H. now rewrite has_address_true in H.
Qed.

Lemma find_address_None ip ms :
  find (has_address ip) ms = None <-> ~ In ip (map ipOrUrl ms).
Proof.
  split.
  - intros H Hin. apply in_map_iff in Hin. destruct Hin as (r & Hr & Hin).
    apply (find_none _ _ H) in Hin. apply has_address_true in Hr. congruence.
  - intros H. destruct (find (has_address ip) ms) as [m |] eqn:E; auto.
    apply find_address_Some in E. destruct E as [Hin <-].
    exfalso. apply H. now apply in_map.
Qed.

Lemma exists_address_false ip ms :
  existsb (has_address ip) ms = false <-> ~ In ip (map ipOrUrl ms).
Proof.
  rewrite <- find_address_None. induction ms as [| r ms IH]; cbn.
  - tauto.
  - destruct (has_address ip r); cbn; [split; discriminate | exact IH].
Qed.

(** A primary key names one row. *)
Lemma unique_id ms a b :
  NoDup (map id ms) -> In a ms -> In b ms -> id a = id b -> a = b.
Proof.
  induction ms as [| r ms IH]; cbn; [contradiction | ].
  intros Hnd [-> | Ha] [-> | Hb] Heq; auto.
  - inversion Hnd as [| ? ? Hnot _]; subst. exfalso. apply Hnot.
    rewrite Heq. now apply in_map.
  - inversion Hnd as [| ? ? Hnot _]; subst. exfalso. apply Hnot.
    rewrite <- Heq. now apply in_map.
  - inversion Hnd; subst. now apply IH.
Qed.

Lemma unique_address ms a b :
  NoDup (map ipOrUrl ms) -> In a ms -> In b ms ->
  ipOrUrl a = ipOrUrl b -> a = b.
Proof.
  induction ms as [| r ms IH]; cbn; [contradiction | ].
  intros Hnd [-> | Ha] [-> | Hb] Heq; auto.
  - inversion Hnd as [| ? ? Hnot _]; subst. exfalso. apply Hnot.
    rewrite Heq. now apply in_map.
  - inversion Hnd as [| ? ? Hnot _]; subst. exfalso. apply Hnot.
    rewrite <- Heq. now apply in_map.
  - inversion Hnd; subst. now apply IH.
Qed.

Lemma NoDup_snoc {A : Type} (l : list A) x :
  NoDup l -> ~ In x l -> NoDup (l ++ [x]).
Proof.
  intros Hl Hx. induction Hl as [| a l Ha Hl IH]; cbn.
  - constructor; [tauto | constructor].
  - constructor.
    + rewrite in_app_iff. cbn. intros [H | [H | []]]; [tauto | ].
      subst. apply Hx. now left.
    + apply IH. intros H. apply Hx. now right.
Qed.

(** Writing to a row the address it has changes nothing. *)
Lemma set_own_address ms m :
  NoDup (map id ms) -> In m ms ->
  map (set_ipOrUrl (id m) (ipOrUrl m)) ms = ms.
Proof.
  intros Hnd Hm. rewrite <- (map_id ms) at 2. apply map_ext_in.
  intros r Hr. unfold set_ipOrUrl. destruct (id r =? id m) eqn:E; auto.
  apply Z.eqb_eq in E. rewrite (unique_id ms r m Hnd Hr Hm E).
  now destruct m.
Qed.

Lemma no_other_with_address ms m :
  NoDup (map ipOrUrl ms) -> In m ms ->
  existsb (fun r => has_address (ipOrUrl m) r && negb (id r =? id m)) ms
  = false.
Proof.
  intros Hnd Hm. apply not_true_is_false. intros H.
  apply existsb_exists in H. destruct H as (r & Hr & H).
  apply andb_true_iff in H. destruct H as [Ha Hi].
  apply has_address_true in Ha.
  rewrite (unique_address ms r m Hnd Hr Hm Ha), Z.eqb_refl in Hi.
  discriminate.
Qed.

Lemma map_set_webhookUrl key url ms :
  map id (map (set_webhookUrl key url) ms) = map id ms /\
  map ipOrUrl (map (set_webhookUrl key url) ms) = map ipOrUrl ms /\
  map lastStatus (map (set_webhookUrl key url) ms) = map lastStatus ms /\
  map lastChecked (map (set_webhookUrl key url) ms) = map lastChecked ms.
Proof.
  rewrite !map_map. repeat split; apply map_ext; intros r;
    unfold set_webhookUrl; destruct (id r =? key); reflexivity.
Qed.
End Tables.

Ltac route_unfold :=
  unfold add_monitor_v1, add_monitor_v2, add_webhook, delete_all_monitors,
    route_catch, route_bind, route_ret, route_throw, route_log_error,
    Monitor_findOne, Monitor_update, Monitor_create_unique,
    monitor_update_webhookUrl, Monitor_destroy, MonitorLog_destroy, guarded.

Section Routes.
Variable fault : World -> StoreOp -> option JsError.
Variable next_id : World -> Z.
Variable no_ipOrUrl : JsError.
Variable defaultValue : string.
Local Open Scope string_scope.
Local Arguments String.append : simpl never.

(** X16. Adding an address that is already monitored changes nothing in
    the table, so the monitor keeps its status, its last check and its
    webhook.  The first variant answers 200 'Monitor updated for ...',
    the second 400 'Monitor already exists.'. *)
Theorem add_monitor_existing (ip : string) (hook : option string) (w : World) :
  In ip (map ipOrUrl (monitors w)) ->
  fault w op_Monitor_findOne = None ->
  add_monitor_v2 fault next_id no_ipOrUrl defaultValue (valid ip hook) w =
    (Normal (mkReply 400 (error_body "Monitor already exists.")), w) /\
  (unique_monitors w ->
   fault w op_Monitor_update = None ->
   add_monitor_v1 fault next_id no_ipOrUrl defaultValue (valid ip hook) w =
     (Normal (mkReply 200 (success_body ("Monitor updated for " ++ ip))), w)).
Proof.
  intros Hin Hf.
  destruct (find (has_address ip) (monitors w)) as [m |] eqn:E;
    [ | apply find_address_None in E; contradiction].
  split.
  - route_unfold. now rewrite Hf, E.
  - intros [Hid Haddr] Hu. apply find_address_Some in E.
    destruct E as [Hm <-]. route_unfold. rewrite Hf.
    assert (E : find (has_address (ipOrUrl m)) (monitors w) = Some m).
    { destruct (find (has_address (ipOrUrl m)) (monitors w)) as [m' |] eqn:E.
      - apply find_address_Some in E. destruct E as [Hm' Ha].
        now rewrite (unique_address _ m' m Haddr Hm' Hm Ha).
      - apply find_address_None in E. exfalso. apply E. now apply in_map. }
    rewrite E, Hu, (no_other_with_address _ m Haddr Hm).
    now rewrite (set_own_address _ m Hid Hm), with_monitors_same.
Qed.

(** X17. Adding an address that is not monitored yet appends one row: it
    has the key the database gives it, the default [lastStatus] of the
    model, no [lastChecked] and no webhook, so a [webhookUrl] sent along
    with the request is dropped.  Both variants answer 200 'Monitor
    added for ...' and leave the rows already there, the event log and
    the error log as they were. *)
Theorem add_monitor_new (ip : string) (hook : option string) (w : World) :
  ~ In ip (map ipOrUrl (monitors w)) ->
  fault w op_Monitor_findOne = None ->
  fault w op_Monitor_create = None ->
  let row := mkMonitor (next_id w) ip (Some defaultValue) None None in
  let added := (Normal (mkReply 200 (success_body ("Monitor added for " ++ ip))),
                with_monitors (monitors w ++ [row]) w) in
  add_monitor_v1 fault next_id no_ipOrUrl defaultValue (valid ip hook) w
    = added /\
  add_monitor_v2 fault next_id no_ipOrUrl defaultValue (valid ip hook) w
    = added.
Proof.
  intros Hnew Hf Hc row added.
  assert (E := proj2 (find_address_None ip (monitors w)) Hnew).
  assert (X := proj2 (exists_address_false ip (monitors w)) Hnew).
  split; route_unfold; now rewrite Hf, E, Hc, X.
Qed.

Lemma unique_after_create (ip : string) (w : World) :
  unique_monitors w ->
  ~ In (next_id w) (map id (monitors w)) ->
  ~ In ip (map ipOrUrl (monitors w)) ->
  unique_monitors (snd (Monitor_create defaultValue (next_id w) ip w)).
Proof.
  intros [Hid Haddr] Hkey Hnew. unfold unique_monitors. cbn.
  rewrite !map_app. cbn. split; apply NoDup_snoc; auto.
Qed.

(** X18. The routes keep keys and addresses unique.  Whatever the
    request and whichever store operations are rejected, if no two rows of
    [Monitor] share a key or an address before '/add-monitor' (either
    variant) or '/add-webhook' is handled, and the key the database would
    give a new row is not in the table, none do afterwards. *)
Theorem routes_keep_monitors_unique (v : Validation) (w : World) :
  unique_monitors w ->
  ~ In (next_id w) (map id (monitors w)) ->
  unique_monitors
    (snd (add_monitor_v1 fault next_id no_ipOrUrl defaultValue v w)) /\
  unique_monitors
    (snd (add_monitor_v2 fault next_id no_ipOrUrl defaultValue v w)) /\
  unique_monitors (snd (add_webhook fault no_ipOrUrl v w)).
Proof.
  intros Hu Hkey.
  destruct v as [msg | ip hook | ];
    [split; [ | split]; exact Hu | | split; [ | split]; exact Hu].
  assert (Hw : forall ms, map id ms = map id (monitors w) ->
                          map ipOrUrl ms = map ipOrUrl (monitors w) ->
                          unique_monitors (with_monitors ms w)).
  { intros ms H1 H2. unfold unique_monitors. cbn. rewrite H1, H2. exact Hu. }
  assert (Hnew : existsb (has_address ip) (monitors w) = false ->
                 unique_monitors
                   (snd (Monitor_create defaultValue (next_id w) ip w))).
  { intros X. apply unique_after_create; [exact Hu | exact Hkey | ].
    now apply exists_address_false. }
  split; [ | split]; route_unfold.
  - destruct (fault w op_Monitor_findOne); [exact Hu | ].
    destruct (find (has_address ip) (monitors w)) as [m |] eqn:E.
    + destruct (fault w op_Monitor_update); [exact Hu | ].
      destruct (existsb (fun r => has_address ip r && negb (id r =? id m)%Z)
                  (monitors w)) eqn:X; [exact Hu | ]. cbn [snd].
      apply find_address_Some in E. destruct E as [Hm <-].
      destruct Hu as [Hid Haddr].
      rewrite (set_own_address _ m Hid Hm), with_monitors_same. now split.
    + destruct (fault w op_Monitor_create); [exact Hu | ].
      destruct (existsb (has_address ip) (monitors w)) eqn:X; [exact Hu | ].
      specialize (Hnew eq_refl).
      now destruct (Monitor_create defaultValue (next_id w) ip w).
  - destruct (fault w op_Monitor_findOne); [exact Hu | ].
    destruct (find (has_address ip) (monitors w)) as [m |] eqn:E;
      [exact Hu | ].
    destruct (fault w op_Monitor_create); [exact Hu | ].
    destruct (existsb (has_address ip) (monitors w)) eqn:X; [exact Hu | ].
    specialize (Hnew eq_refl).
    now destruct (Monitor_create defaultValue (next_id w) ip w).
  - destruct (fault w op_Monitor_findOne); [exact Hu | ].
    destruct (find (has_address ip) (monitors w)) as [m |] eqn:E;
      [ | exact Hu].
    destruct (fault w op_monitor_update); [exact Hu | ].
    destruct hook as [url |]; [ | exact Hu]. cbn [snd].
    destruct (map_set_webhookUrl (id m) url (monitors w)) as (H1 & H2 & _).
    now apply Hw.
Qed.

(** X19. '/add-monitor' always answers, in both variants.
    - A body that does not validate gets 400 with the message of the
      validator, and nothing is touched.
    - A value without [ipOrUrl] gets 500 'Failed to add monitor.' and one
      line in the error log, though no store operation is rejected.
    - A rejected [Monitor.findOne], a rejected [Monitor.create] and, in
      the first variant, a rejected [Monitor.update] get the same 500:
      the error is logged and both tables stay as they were.
    - For every request and every store the handler completes normally
      with 200, 400 or 500; the event log never changes, a 200 writes
      nothing to the error log, a 400 changes nothing at all, and a 500
      is the answer described above. *)
Theorem add_monitor_always_replies :
  let failed (x : JsError) (w : World) : Completion Reply * World :=
    (Normal (mkReply 500 (error_body "Failed to add monitor.")),
     error_logged ("Failed to add monitor: " ++ err_message x) w) in
  let replies (route : Validation -> Route Reply) : Prop :=
    (forall msg w,
       route (invalid msg) w = (Normal (mkReply 400 (error_body msg)), w)) /\
    (forall w, route valid_without_ipOrUrl w = failed no_ipOrUrl w) /\
    (forall ip hook w x,
       fault w op_Monitor_findOne = Some x ->
       route (valid ip hook) w = failed x w) /\
    (forall ip hook w x,
       fault w op_Monitor_findOne = None ->
       ~ In ip (map ipOrUrl (monitors w)) ->
       fault w op_Monitor_create = Some x ->
       route (valid ip hook) w = failed x w) /\
    (forall v w,
       exists reply,
         fst (route v w) = Normal reply /\
         monitorLogs (snd (route v w)) = monitorLogs w /\
         (statusCode reply = 200 /\ trace (snd (route v w)) = trace w \/
          statusCode reply = 400 /\ snd (route v w) = w \/
          exists x, route v w = failed x w)) in
  replies (add_monitor_v1 fault next_id no_ipOrUrl defaultValue) /\
  replies (add_monitor_v2 fault next_id no_ipOrUrl defaultValue) /\
  (forall ip hook w x,
     fault w op_Monitor_findOne = None ->
     In ip (map ipOrUrl (monitors w)) ->
     fault w op_Monitor_update = Some x ->
     add_monitor_v1 fault next_id no_ipOrUrl defaultValue (valid ip hook) w
     = failed x w).
Proof.
  intros failed replies.
  assert (H400 : forall msg w r,
    r = (Normal (mkReply 400 (error_body msg)), w) ->
    exists reply,
      fst r = Normal reply /\ monitorLogs (snd r) = monitorLogs w /\
      (statusCode reply = 200 /\ trace (snd r) = trace w \/
       statusCode reply = 400 /\ snd r = w \/
       exists x, r = failed x w)).
  { intros msg w r ->. eexists. split; [reflexivity | split; [reflexivity | ]].
    right; left. now split. }
  assert (H500 : forall x w r,
    r = failed x w ->
    exists reply,
      fst r = Normal reply /\ monitorLogs (snd r) = monitorLogs w /\
      (statusCode reply = 200 /\ trace (snd r) = trace w \/
       statusCode reply = 400 /\ snd r = w \/
       exists x, r = failed x w)).
  { intros x w r ->. eexists. split; [reflexivity | split; [reflexivity | ]].
    right; right. now exists x. }
  assert (H200 : forall msg ms w r,
    r = (Normal (mkReply 200 (success_body msg)), with_monitors ms w) ->
    exists reply,
      fst r = Normal reply /\ monitorLogs (snd r) = monitorLogs w /\
      (statusCode reply = 200 /\ trace (snd r) = trace w \/
       statusCode reply = 400 /\ snd r = w \/
       exists x, r = failed x w)).
  { intros msg ms w r ->. eexists.
    split; [reflexivity | split; [reflexivity | ]]. left. now split. }
  split; [ | split].
  - split; [reflexivity | split; [reflexivity | split; [ | split]]].
    + intros ip hook w x Hf. route_unfold. now rewrite Hf.
    + intros ip hook w x Hf Hnew Hc.
      apply find_address_None in Hnew. route_unfold.
      now rewrite Hf, Hnew, Hc.
    + intros [msg | ip hook | ] w;
        [now apply (H400 msg) | | now apply (H500 no_ipOrUrl)].
      route_unfold.
      destruct (fault w op_Monitor_findOne) as [x |];
        [now apply (H500 x) | ].
      destruct (find (has_address ip) (monitors w)) as [m |].
      * destruct (fault w op_Monitor_update) as [x |];
          [now apply (H500 x) | ].
        destruct (existsb (fun r => has_address ip r && negb (id r =? id m)%Z)
                    (monitors w));
          [now apply (H500 unique_violation) | now eapply H200].
      * destruct (fault w op_Monitor_create) as [x |];
          [now apply (H500 x) | ].
        destruct (existsb (has_address ip) (monitors w));
          [now apply (H500 unique_violation) | now eapply H200].
  - split; [reflexivity | split; [reflexivity | split; [ | split]]].
    + intros ip hook w x Hf. route_unfold. now rewrite Hf.
    + intros ip hook w x Hf Hnew Hc.
      apply find_address_None in Hnew. route_unfold.
      now rewrite Hf, Hnew, Hc.
    + intros [msg | ip hook | ] w;
        [now apply (H400 msg) | | now apply (H500 no_ipOrUrl)].
      route_unfold.
      destruct (fault w op_Monitor_findOne) as [x |];
        [now apply (H500 x) | ].
      destruct (find (has_address ip) (monitors w)) as [m |];
        [now eapply H400 | ].
      destruct (fault w op_Monitor_create) as [x |];
        [now apply (H500 x) | ].
      destruct (existsb (has_address ip) (monitors w));
        [now apply (H500 unique_violation) | now eapply H200].
  - intros ip hook w x Hf Hin Hu.
    destruct (find (has_address ip) (monitors w)) as [m |] eqn:E;
      [ | apply find_address_None in E; contradiction].
    route_unfold. now rewrite Hf, E, Hu.
Qed.

Lemma find_the_row ms m :
  NoDup (map ipOrUrl ms) -> In m ms ->
  find (has_address (ipOrUrl m)) ms = Some m.
Proof.
  intros Hnd Hm.
  destruct (find (has_address (ipOrUrl m)) ms) as [m' |] eqn:E.
  - apply find_address_Some in E. destruct E as [Hm' Ha].
    now rewrite (unique_address _ m' m Hnd Hm' Hm Ha).
  - apply find_address_None in E. exfalso. apply E. now apply in_map.
Qed.

Lemma set_webhookUrl_others key url ms r :
  In r ms -> id r <> key -> In r (map (set_webhookUrl key url) ms).
Proof.
  intros Hr Hne. apply in_map_iff. exists r. split; [ | exact Hr].
  unfold set_webhookUrl. apply Z.eqb_neq in Hne. now rewrite Hne.
Qed.

(** X20. '/add-webhook' answers 404 and touches nothing when the address
    is not monitored.  When it is, and the request carries a webhook URL,
    the route sets the [webhookUrl] of that monitor and nothing else: the
    status and the last check of every monitor, every other row and the
    event log stay as they were. *)
Theorem add_webhook_sets_only_the_webhook
  (ip : string) (hook : option string) (w : World) :
  fault w op_Monitor_findOne = None ->
  (~ In ip (map ipOrUrl (monitors w)) ->
   add_webhook fault no_ipOrUrl (valid ip hook) w =
   (Normal (mkReply 404
              (error_body ("Monitor with IP/URL " ++ ip ++ " not found."))),
    w)) /\
  (forall m url,
     In m (monitors w) -> ipOrUrl m = ip -> hook = Some url ->
     unique_monitors w -> fault w op_monitor_update = None ->
     fst (add_webhook fault no_ipOrUrl (valid ip hook) w) =
       Normal (mkReply 200 (success_body ("Webhook URL updated for " ++ ip))) /\
     let w' := snd (add_webhook fault no_ipOrUrl (valid ip hook) w) in
     monitors w' = map (set_webhookUrl (id m) url) (monitors w) /\
     map lastStatus (monitors w') = map lastStatus (monitors w) /\
     map lastChecked (monitors w') = map lastChecked (monitors w) /\
     monitorLogs w' = monitorLogs w /\
     In (mkMonitor (id m) ip (lastStatus m) (lastChecked m) (Some url))
        (monitors w') /\
     forall r, In r (monitors w) -> r <> m -> In r (monitors w')).
Proof.
  intros Hf. split.
  - intros Hnew. apply find_address_None in Hnew.
    route_unfold. now rewrite Hf, Hnew.
  - intros m url Hm <- -> [Hid Haddr] Hu.
    assert (E := find_the_row _ m Haddr Hm).
    assert (R : add_webhook fault no_ipOrUrl
                  (valid (ipOrUrl m) (Some url)) w =
                (Normal (mkReply 200
                           (success_body
                              ("Webhook URL updated for " ++ ipOrUrl m))),
                 with_monitors (map (set_webhookUrl (id m) url) (monitors w))
                   w)).
    { route_unfold. now rewrite Hf, E, Hu. }
    rewrite R. cbn [fst snd with_monitors monitors monitorLogs].
    destruct (map_set_webhookUrl (id m) url (monitors w))
      as (_ & _ & H3 & H4).
    repeat split; auto.
    + apply in_map_iff. exists m. split; [ | exact Hm].
      unfold set_webhookUrl. now rewrite Z.eqb_refl.
    + intros r Hr Hne. apply set_webhookUrl_others; [exact Hr | ].
      intros Heq. apply Hne. now apply (unique_id (monitors w)).
Qed.

(** X21. '/delete-all-monitors' empties both tables and answers 200.  It
    has no error handling of its own and its two deletions are separate:
    when [Monitor.destroy] is rejected nothing is deleted, and when
    [MonitorLog.destroy] is rejected the monitors are gone while the event
    log is kept; in both cases the error leaves the handler. *)
Theorem delete_all_monitors_cases (w : World) :
  (fault w op_Monitor_destroy = None ->
   fault (with_monitors [] w) op_MonitorLog_destroy = None ->
   delete_all_monitors fault w =
   (Normal (mkReply 200 (success_body "All monitors deleted.")),
    with_monitorLogs [] (with_monitors [] w))) /\
  (forall x, fault w op_Monitor_destroy = Some x ->
             delete_all_monitors fault w = (Abrupt x, w)) /\
  (forall x, fault w op_Monitor_destroy = None ->
             fault (with_monitors [] w) op_MonitorLog_destroy = Some x ->
             delete_all_monitors fault w = (Abrupt x, with_monitors [] w)).
Proof.
  repeat split.
  - intros H1 H2. route_unfold. now rewrite H1, H2.
  - intros x H1. route_unfold. now rewrite H1.
  - intros x H1 H2. route_unfold. now rewrite H1, H2.
Qed.
End Routes.

(* ================================================================== *)
(** ** From the routes to the engine *)

Lemma find_app_None {A : Type} (f : A -> bool) l l' :
  find f l = None -> find f (l ++ l') = find f l'.
Proof.
  induction l as [| a l IH]; cbn; [reflexivity | ].
  destruct (f a); [discriminate | exact IH].
Qed.

Lemma map_set_webhookUrl_new key url ms :
  ~ In key (map id ms) -> map (set_webhookUrl key url) ms = ms.
Proof.
  intros Hkey. rewrite <- (map_id ms) at 2. apply map_ext_in. intros r Hr.
  unfold set_webhookUrl. destruct (id r =? key) eqn:E; [ | reflexivity].
  apply Z.eqb_eq in E. exfalso. apply Hkey. rewrite <- E. now apply in_map.
Qed.

Lemma map_set_status_new key st now ms :
  ~ In key (map id ms) -> map (set_status key st now) ms = ms.
Proof.
  intros Hkey. rewrite <- (map_id ms) at 2. apply map_ext_in. intros r Hr.
  unfold set_status. destruct (id r =? key) eqn:E; [ | reflexivity].
  apply Z.eqb_eq in E. exfalso. apply Hkey. rewrite <- E. now apply in_map.
Qed.

(** The world a run of [handleMonitor] leaves when it finds a new status
    and the store performs its operations: the three steps in a row. *)
Lemma V1_handleMonitor_transition_world
  (e : Env) (cfg : option Z) (m : Monitor) (w : World) (st : string) :
  store_reliable e ->
  outcome e (V1.checkStatus cfg m) w = Normal st ->
  lastStatus m <> Some st ->
  after e (V1.handleMonitor cfg m) w =
  after e (V1.sendWebhook m st)
    (after e (V1.updateMonitorStatus m st)
       (after e (V1.checkStatus cfg m) w)).
Proof.
  intros Hs Ho Hne.
  assert (Hrun := V1_handleMonitor_changed_run e cfg m w st Ho Hne).
  destruct (V1_updateMonitorStatus_run e m st
              (after e (V1.checkStatus cfg m) w) Hs) as (Hu & _).
  rewrite (outcome_after e (V1.updateMonitorStatus m st)), Hu in Hrun.
  unfold after at 1. now rewrite Hrun.
Qed.

Section RoutesAndEngine.
Variable next_id : World -> Z.
Variable no_ipOrUrl : JsError.
Variable defaultValue : string.
Local Open Scope string_scope.
Local Arguments String.append : simpl never.

Lemma add_monitor_v1_new_world ip hook w :
  ~ In ip (map ipOrUrl (monitors w)) ->
  snd (add_monitor_v1 no_fault next_id no_ipOrUrl defaultValue
         (valid ip hook) w) =
  with_monitors
    (monitors w ++
     [mkMonitor (next_id w) ip (Some defaultValue) None None]) w.
Proof.
  intros Hnew.
  assert (E := proj2 (find_address_None ip (monitors w)) Hnew).
  assert (X := proj2 (exists_address_false ip (monitors w)) Hnew).
  route_unfold. unfold no_fault. now rewrite E, X.
Qed.

(** X22. From the routes to the notification.  A monitor added through
    '/add-monitor' under a key new to the table and given a webhook
    through '/add-webhook' is the last row of the table, with the default
    status of the model and that webhook.  A run of [handleMonitor] on
    this row whose probe gives another status records one event for the
    address, stamped with the time at which the probe had ended; it
    gives the row the new status and, as [lastChecked], the later time
    at which the INSERT had completed, keeps its webhook, leaves every
    older row as it was, and sends one POST, to that webhook. *)
Theorem added_monitor_with_webhook_is_notified
  (ip url : string) (w : World) :
  ~ In ip (map ipOrUrl (monitors w)) ->
  ~ In (next_id w) (map id (monitors w)) ->
  let w1 := snd (add_monitor_v1 no_fault next_id no_ipOrUrl defaultValue
                   (valid ip None) w) in
  let w2 := snd (add_webhook no_fault no_ipOrUrl (valid ip (Some url)) w1) in
  let m := mkMonitor (next_id w) ip (Some defaultValue) None (Some url) in
  monitors w2 = (monitors w ++ [m])%list /\
  monitorLogs w2 = monitorLogs w /\
  forall (e : Env) (cfg : option Z) (st : string),
    store_reliable e -> url <> "" ->
    outcome e (V1.checkStatus cfg m) w2 = Normal st ->
    st <> defaultValue ->
    let w3 := after e (V1.handleMonitor cfg m) w2 in
    let created := clock (after e (V1.checkStatus cfg m) w2) in
    let now :=
      created + latency e (after e (V1.checkStatus cfg m) w2)
                  (MonitorLog_create ip st) in
    monitors w3 =
      (monitors w ++
       [mkMonitor (next_id w) ip (Some st) (Some now) (Some url)])%list /\
    monitorLogs w3 = (monitorLogs w ++ [mkMonitorLog ip st created])%list /\
    exists sent,
      posts w3 = (posts w ++ [fetch url (webhook_init st sent)])%list.
Proof.
  intros Hnew Hkey w1 w2 m.
  assert (H1 : w1 = with_monitors
                      (monitors w ++
                       [mkMonitor (next_id w) ip
                          (Some defaultValue) None None]) w)
    by (apply add_monitor_v1_new_world; exact Hnew).
  assert (E := proj2 (find_address_None ip (monitors w)) Hnew).
  assert (H2 : w2 = with_monitors (monitors w ++ [m]) w).
  { unfold w2. rewrite H1. route_unfold. unfold no_fault.
    cbn [monitors with_monitors]. rewrite (find_app_None _ _ _ E).
    cbn [find]. unfold has_address at 1. cbn [ipOrUrl].
    rewrite String.eqb_refl. cbn [id snd with_monitors monitors monitorLogs
      clock trace]. rewrite map_app, (map_set_webhookUrl_new _ _ _ Hkey).
    cbn [map]. unfold set_webhookUrl. cbn [id]. rewrite Z.eqb_refl.
    reflexivity. }
  split; [now rewrite H2 | split; [now rewrite H2 | ]].
  intros e cfg st Hs Hurl Ho Hst w3 created now.
  assert (Hne : lastStatus m <> Some st) by (cbn; congruence).
  assert (Ht := V1_handleMonitor_transition e cfg m w2 st Hs Ho Hne).
  cbv zeta in Ht. destruct Ht as [Hl Hm].
  change (after e (V1.handleMonitor cfg m) w2) with w3 in Hl, Hm.
  assert (Hnow : clock (after e (await_MonitorLog_create (ipOrUrl m) st)
                          (after e (V1.checkStatus cfg m) w2)) = now).
  { unfold after at 1. unfold await_MonitorLog_create. cbn.
    rewrite (store_op_reliable e) by assumption. reflexivity. }
  rewrite Hnow in Hm.
  split; [ | split].
  - rewrite Hm, H2. cbn [monitors with_monitors id m].
    rewrite map_app, (map_set_status_new _ _ _ _ Hkey). cbn [map].
    unfold set_status. cbn [id]. now rewrite Z.eqb_refl.
  - rewrite Hl.
    replace (monitorLogs w2) with (monitorLogs w) by now rewrite H2.
    reflexivity.
  - exists (clock (after e (V1.updateMonitorStatus m st)
                     (after e (V1.checkStatus cfg m) w2))).
    unfold w3.
    rewrite (V1_handleMonitor_transition_world e cfg m w2 st Hs Ho Hne).
    rewrite (V1_sendWebhook_posts e m st _ url (truthy_set url Hurl)).
    f_equal. unfold posts. rewrite (avoids_filter is_post).
    + rewrite (avoids_filter is_post) by apply V1_checkStatus_avoids_post.
      now rewrite H2.
    + unfold V1.updateMonitorStatus. avoid.
Qed.

(** X23. A pipeline that outlives '/delete-all-monitors'.  The engine
    works on the rows of its snapshot; when both tables are emptied
    before a pipeline records the change it has found, the event is
    still written: afterwards the event log holds that one row, for an
    address no monitor has, and the [Monitor] table stays empty. *)
Theorem V1_stale_pipeline_logs_after_delete_all
  (e : Env) (cfg : option Z) (m : Monitor) (w : World) (st : string) :
  store_reliable e ->
  let w1 := snd (delete_all_monitors no_fault w) in
  outcome e (V1.checkStatus cfg m) w1 = Normal st ->
  lastStatus m <> Some st ->
  let w2 := after e (V1.handleMonitor cfg m) w1 in
  monitors w1 = [] /\ monitorLogs w1 = [] /\
  monitors w2 = [] /\
  exists now, monitorLogs w2 = [mkMonitorLog (ipOrUrl m) st now].
Proof.
  intros Hs w1 Ho Hne w2.
  assert (H1 : monitors w1 = []) by reflexivity.
  assert (H2 : monitorLogs w1 = []) by reflexivity.
  assert (Ht := V1_handleMonitor_transition e cfg m w1 st Hs Ho Hne).
  cbv zeta in Ht. destruct Ht as [Hl Hm].
  change (after e (V1.handleMonitor cfg m) w1) with w2 in Hl, Hm.
  rewrite H1 in Hm. rewrite H2 in Hl.
  split; [exact H1 | split; [exact H2 | split; [exact Hm | ]]].
  eexists. exact Hl.
Qed.
End RoutesAndEngine.

(* ================================================================== *)
(** ** The routes on the sample table *)

Lemma Sample_w0_unique : unique_monitors Sample.w0.
Proof.
  split; cbn; repeat constructor; cbn; intuition (try discriminate; try lia).
Qed.

Lemma Sample_w0_new_address :
  ~ In "1.1.1.1"%string (map ipOrUrl (monitors Sample.w0)).
Proof. cbn. intuition discriminate. Qed.

Lemma Sample_w0_new_key :
  ~ In (next_is_3 Sample.w0) (map id (monitors Sample.w0)).
Proof. cbn. intuition discriminate. Qed.

Lemma add_monitor_existing_witness :
  In "8.8.8.8"%string (map ipOrUrl (monitors Sample.w0)) /\
  unique_monitors Sample.w0 /\
  add_monitor_v2 no_fault next_is_3 no_body Model000.lastStatus_defaultValue
    (valid "8.8.8.8" None) Sample.w0 =
    (Normal (mkReply 400 (error_body "Monitor already exists.")),
     Sample.w0) /\
  add_monitor_v1 no_fault next_is_3 no_body Model000.lastStatus_defaultValue
    (valid "8.8.8.8" None) Sample.w0 =
    (Normal (mkReply 200 (success_body "Monitor updated for 8.8.8.8")),
     Sample.w0).
Proof.
  assert (Hin : In "8.8.8.8"%string (map ipOrUrl (monitors Sample.w0)))
    by (cbn; auto).
  split; [exact Hin | split; [exact Sample_w0_unique | ]].
  destruct (add_monitor_existing no_fault next_is_3 no_body
              Model000.lastStatus_defaultValue
              "8.8.8.8" None Sample.w0 Hin eq_refl) as [H2 H1].
  split; [exact H2 | exact (H1 Sample_w0_unique eq_refl)].
Defined.

Lemma add_monitor_new_witness :
  ~ In "1.1.1.1"%string (map ipOrUrl (monitors Sample.w0)) /\
  monitors
    (snd (add_monitor_v1 no_fault next_is_3 no_body
            Model000.lastStatus_defaultValue
            (valid "1.1.1.1" (Some "http://hook.test/new"%string))
            Sample.w0)) =
  [Sample.dns; Sample.site;
   mkMonitor 3 "1.1.1.1" (Some "offline"%string) None None] /\
  monitors
    (snd (add_monitor_v2 no_fault next_is_3 no_body
            Model001.lastStatus_defaultValue
            (valid "1.1.1.1" (Some "http://hook.test/new"%string))
            Sample.w0)) =
  [Sample.dns; Sample.site;
   mkMonitor 3 "1.1.1.1" (Some "online"%string) None None].
Proof.
  split; [exact Sample_w0_new_address | ].
  destruct (add_monitor_new no_fault next_is_3 no_body
              Model000.lastStatus_defaultValue
              "1.1.1.1" (Some "http://hook.test/new"%string) Sample.w0
              Sample_w0_new_address eq_refl eq_refl) as [H1 _].
  destruct (add_monitor_new no_fault next_is_3 no_body
              Model001.lastStatus_defaultValue
              "1.1.1.1" (Some "http://hook.test/new"%string) Sample.w0
              Sample_w0_new_address eq_refl eq_refl) as [_ H2].
  split; [now rewrite H1 | now rewrite H2].
Defined.

Lemma routes_keep_monitors_unique_witness :
  unique_monitors Sample.w0 /\
  ~ In (next_is_3 Sample.w0) (map id (monitors Sample.w0)) /\
  unique_monitors
    (snd (add_monitor_v1 no_fault next_is_3 no_body
            Model000.lastStatus_defaultValue
            (valid "1.1.1.1" None) Sample.w0)) /\
  unique_monitors
    (snd (add_webhook no_fault no_body
            (valid "https://example.com"
               (Some "http://hook.test/site"%string)) Sample.w0)).
Proof.
  split; [exact Sample_w0_unique | split; [exact Sample_w0_new_key | split]].
  - exact (proj1 (routes_keep_monitors_unique no_fault next_is_3 no_body
                    Model000.lastStatus_defaultValue (valid "1.1.1.1" None)
                    Sample.w0 Sample_w0_unique Sample_w0_new_key)).
  - exact (proj2 (proj2 (routes_keep_monitors_unique no_fault next_is_3
                    no_body Model000.lastStatus_defaultValue
                    (valid "https://example.com"
                       (Some "http://hook.test/site"%string))
                    Sample.w0 Sample_w0_unique Sample_w0_new_key))).
Defined.

Lemma add_monitor_always_replies_witness :
  add_monitor_v1 no_fault next_is_3 no_body Model000.lastStatus_defaultValue
    (invalid "ipOrUrl must be a valid uri") Sample.w0 =
  (Normal (mkReply 400 (error_body "ipOrUrl must be a valid uri")),
   Sample.w0) /\
  add_monitor_v2 no_fault next_is_3 no_body Model000.lastStatus_defaultValue
    valid_without_ipOrUrl Sample.w0 =
  (Normal (mkReply 500 (error_body "Failed to add monitor.")),
   mkWorld [Sample.dns; Sample.site] [] 1700000000000
     [app_log_error
        "Failed to add monitor: Cannot read properties of undefined (reading 'ipOrUrl')"]) /\
  add_monitor_v1 no_findOne next_is_3 no_body Model000.lastStatus_defaultValue
    (valid "1.1.1.1" None) Sample.w0 =
  (Normal (mkReply 500 (error_body "Failed to add monitor.")),
   mkWorld [Sample.dns; Sample.site] [] 1700000000000
     [app_log_error
        "Failed to add monitor: SQLITE_BUSY: database is locked"]).
Proof.
  destruct (add_monitor_always_replies no_fault next_is_3 no_body
              Model000.lastStatus_defaultValue) as ((H400 & _) & H2 & _).
  destruct H2 as (_ & H500 & _).
  destruct (add_monitor_always_replies no_findOne next_is_3 no_body
              Model000.lastStatus_defaultValue) as ((_ & _ & Hf & _) & _).
  split; [apply H400 | split; [apply H500 | ]].
  exact (Hf "1.1.1.1"%string None Sample.w0 Faulty.busy eq_refl).
Defined.

Lemma add_webhook_sets_only_the_webhook_witness :
  no_fault Sample.w0 op_Monitor_findOne = None /\
  In Sample.site (monitors Sample.w0) /\
  unique_monitors Sample.w0 /\
  monitors
    (snd (add_webhook no_fault no_body
            (valid "https://example.com"
               (Some "http://hook.test/site"%string)) Sample.w0)) =
  [Sample.dns;
   mkMonitor 2 "https://example.com" (Some "online"%string) None
     (Some "http://hook.test/site"%string)] /\
  add_webhook no_fault no_body (valid "1.1.1.1" None) Sample.w0 =
  (Normal (mkReply 404
             (error_body "Monitor with IP/URL 1.1.1.1 not found.")),
   Sample.w0).
Proof.
  assert (Hin : In Sample.site (monitors Sample.w0)) by (cbn; auto).
  split; [reflexivity | split; [exact Hin | ]].
  split; [exact Sample_w0_unique | split].
  - destruct (add_webhook_sets_only_the_webhook no_fault no_body
                "https://example.com" (Some "http://hook.test/site"%string)
                Sample.w0 eq_refl) as [_ H].
    destruct (H Sample.site "http://hook.test/site"%string Hin eq_refl
                eq_refl Sample_w0_unique eq_refl) as (_ & Hm & _).
    now rewrite Hm.
  - exact (proj1 (add_webhook_sets_only_the_webhook no_fault no_body
                    "1.1.1.1" None Sample.w0 eq_refl)
             Sample_w0_new_address).
Defined.

Lemma delete_all_monitors_cases_witness :
  delete_all_monitors no_fault Sample.w0 =
    (Normal (mkReply 200 (success_body "All monitors deleted.")),
     mkWorld [] [] 1700000000000 []) /\
  delete_all_monitors logs_locked Sample.w0 =
    (Abrupt Faulty.busy, mkWorld [] [] 1700000000000 []).
Proof.
  split.
  - exact (proj1 (delete_all_monitors_cases no_fault Sample.w0)
             eq_refl eq_refl).
  - exact (proj2 (proj2 (delete_all_monitors_cases logs_locked Sample.w0))
             Faulty.busy eq_refl eq_refl).
Defined.

Lemma added_monitor_with_webhook_is_notified_witness :
  ~ In "1.1.1.1"%string (map ipOrUrl (monitors Sample.w0)) /\
  ~ In (next_is_3 Sample.w0) (map id (monitors Sample.w0)) /\
  store_reliable Sample.up /\
  monitors
    (after Sample.up
       (V1.handleMonitor None
          (mkMonitor 3 "1.1.1.1" (Some "offline"%string) None
             (Some "http://hook.test/new"%string)))
       (snd (add_webhook no_fault no_body
               (valid "1.1.1.1" (Some "http://hook.test/new"%string))
               (snd (add_monitor_v1 no_fault next_is_3 no_body "offline"
                       (valid "1.1.1.1" None) Sample.w0))))) =
  [Sample.dns; Sample.site;
   mkMonitor 3 "1.1.1.1" (Some "online"%string) (Some 1700000000014)
     (Some "http://hook.test/new"%string)] /\
  monitorLogs
    (after Sample.up
       (V1.handleMonitor None
          (mkMonitor 3 "1.1.1.1" (Some "offline"%string) None
             (Some "http://hook.test/new"%string)))
       (snd (add_webhook no_fault no_body
               (valid "1.1.1.1" (Some "http://hook.test/new"%string))
               (snd (add_monitor_v1 no_fault next_is_3 no_body "offline"
                       (valid "1.1.1.1" None) Sample.w0))))) =
  [mkMonitorLog "1.1.1.1" "online" 1700000000007].
Proof.
  assert (Hs : store_reliable Sample.up) by (intros w c; reflexivity).
  split; [exact Sample_w0_new_address | ].
  split; [exact Sample_w0_new_key | split; [exact Hs | ]].
  destruct (added_monitor_with_webhook_is_notified next_is_3 no_body
              "offline" "1.1.1.1" "http://hook.test/new" Sample.w0
              Sample_w0_new_address Sample_w0_new_key)
    as (_ & _ & H).
  assert (Hurl : "http://hook.test/new"%string <> ""%string) by discriminate.
  assert (Hst : "online"%string <> "offline"%string) by discriminate.
  destruct (H Sample.up None "online"%string Hs Hurl eq_refl Hst)
    as (Hm & Hl & _).
  split; [exact Hm | exact Hl].
Defined.

Lemma V1_stale_pipeline_logs_after_delete_all_witness :
  store_reliable Sample.up /\
  lastStatus Sample.dns <> Some "online"%string /\
  monitors
    (after Sample.up (V1.handleMonitor None Sample.dns)
       (snd (delete_all_monitors no_fault Sample.w0))) = [] /\
  map log_ipOrUrl
    (monitorLogs
       (after Sample.up (V1.handleMonitor None Sample.dns)
          (snd (delete_all_monitors no_fault Sample.w0)))) =
  ["8.8.8.8"%string].
Proof.
  assert (Hs : store_reliable Sample.up) by (intros w c; reflexivity).
  assert (Hne : lastStatus Sample.dns <> Some "online"%string)
    by discriminate.
  split; [exact Hs | split; [exact Hne | ]].
  destruct (V1_stale_pipeline_logs_after_delete_all Sample.up None Sample.dns
              Sample.w0 "online" Hs eq_refl Hne)
    as (_ & _ & Hm & now & Hl).
  split; [exact Hm | now rewrite Hl].
Defined.

(* ================================================================== *)
(** ** The ticks of the second variant *)

Lemma V2_checkStatus_within cfg m : finishes_within 1 (V2.checkStatus cfg m).
Proof.
  unfold V2.checkStatus. unfold_awaits.
  destruct (test V2.isIpAddress_regex (ipOrUrl m)); cbn.
  - apply within_sync; [reflexivity | ]. intros ?.
    apply within_async; [reflexivity | ].
    intros [res | x]; cbn; [ | constructor].
    apply within_sync; [reflexivity | ]. intros ?. constructor.
  - apply within_sync; [reflexivity | ]. intros ?.
    apply within_async; [reflexivity | ]. intros [res | x]; cbn.
    + apply within_sync; [reflexivity | ]. intros ?. constructor.
    + apply within_sync; [reflexivity | ]. intros ?.
      destruct (err_name x =? "AbortError")%string; constructor.
Qed.

Lemma V2_sendWebhook_within m st : finishes_within 1 (V2.sendWebhook m st).
Proof.
  unfold V2.sendWebhook. unfold_awaits. cbn.
  apply within_sync; [reflexivity | ]. intros ?.
  destruct (truthy (webhookUrl m)) as [url |]; cbn; [ | constructor].
  apply within_sync; [reflexivity | ]. intros now.
  apply within_async; [reflexivity | ]. intros [res | x]; cbn;
    (apply within_sync; [reflexivity | ]; intros ?; constructor).
Qed.

Lemma V2_updateMonitorStatus_within m st :
  finishes_within 2 (V2.updateMonitorStatus m st).
Proof.
  unfold V2.updateMonitorStatus. unfold_awaits. cbn.
  apply within_async; [reflexivity | ]. intros [[] | x]; cbn; [ | constructor].
  apply within_sync; [reflexivity | ]. intros now.
  apply within_async; [reflexivity | ]. intros [[] | x]; cbn; [ | constructor].
  apply within_sync; [reflexivity | ]. intros ?. constructor.
Qed.

Lemma V2_handleMonitor_within cfg m :
  finishes_within 4 (V2.handleMonitor cfg m).
Proof.
  unfold V2.handleMonitor.
  apply (finishes_within_try_catch _ _ 4 0).
  - apply (finishes_within_bind _ _ 1 3); [apply V2_checkStatus_within | ].
    intros st. cbn [bind call].
    apply within_sync; [reflexivity | ]. intros ?. cbn [bind call].
    apply within_sync; [reflexivity | ]. intros ?. cbn [bind call].
    destruct (negb (strict_eq st (lastStatus m))); [ | constructor].
    apply (finishes_within_bind _ _ 2 1).
    + apply V2_updateMonitorStatus_within.
    + intros ?. apply V2_sendWebhook_within.
  - intros x. apply within_sync; [reflexivity | ]. intros ?. constructor.
Qed.

(** X24. The ticks of the second variant end as well: after the firing,
    which logs 'Checking' and asks for the snapshot, the answer of the
    store and at most four completions per monitor leave no task
    pending, whatever the network and the store answer. *)
Theorem V2_tick_completes
  (e : Env) (cfg : option Z) (w : World) :
  let s := exec e (V2.checkMonitors cfg)
             (Fire :: repeat (Resume 0) (1 + 4 * length (monitors w)))
             (boot w) in
  tasks s = [] /\ tick_joined 0 s /\
  exists rest, trace (world s) = trace w ++ console_log [VStr "Checking"] :: rest.
Proof.
  intros s.
  set (w0 := issued e (console_log [VStr "Checking"]) w).
  assert (H : tasks s = [] /\ fired s = 1%nat).
  { unfold s, exec, boot. cbn [repeat Nat.add fold_left].
    change (step e (V2.checkMonitors cfg) Fire (mkSys w [] 0))
      with (mkSys w0 [Finding 0 await_Monitor_findAll] 1).
    cbn [step nth_error tasks world fired resume await_Monitor_findAll].
    destruct (handle e Monitor_findAll w0) as [[ms | x] w1] eqn:Hh.
    - assert (Hms : ms = monitors w).
      { cbn in Hh. unfold store_op in Hh.
        destruct (store_fault e w0 Monitor_findAll); congruence. }
      subst ms. cbn [advance settle finding_task].
      pose proof (fan_out_budget e (V2.checkMonitors cfg) 4 0 (monitors w)
                    (V2_handleMonitor_within cfg) w1) as Hb.
      destruct (fan_out e (V2.checkMonitors cfg) 0 (monitors w) w1)
        as [ts w2]. cbn [fst] in Hb.
      change (remove_nth 0 [Finding 0 (Vis Monitor_findAll settle)] ++ ts)
        with ts.
      apply (drain e (V2.checkMonitors cfg) _ ts w2 1 Hb).
    - cbn [advance settle finding_task].
      change (remove_nth 0 [Finding 0 (Vis Monitor_findAll settle)] ++ [])
        with (@nil Task).
      apply (drain e (V2.checkMonitors cfg) _ [] w1 1). constructor. }
  destruct H as [Ht Hf]. split; [exact Ht | ].
  split; [split; [rewrite Hf; lia | rewrite Ht; intros t []] | ].
  unfold s, exec. cbn [fold_left].
  change (step e (V2.checkMonitors cfg) Fire (boot w))
    with (mkSys w0 [Finding 0 await_Monitor_findAll] 1).
  apply (exec_Inv e (V2.checkMonitors cfg)
           (fun w' => exists rest,
              trace w' = trace w ++ console_log [VStr "Checking"] :: rest)).
  - intros c w' [rest Hw']. exists (rest ++ [c]).
    rewrite handle_trace, Hw', <- app_assoc. reflexivity.
  - exists []. reflexivity.
Qed.
